(** * Trading-System: the signal-generation engine

    A shallow embedding of [src/strategies/*.py]: the shared strategy
    base ([strategy_base.py]), the four strategy variants
    ([ma101_strategy.py], [donchian_strategy.py],
    [swing_trading_strategy.py], [qullamaggie_htf_strategy.py]), the
    pandas operations they are written with, and the scan and risk
    columns of the watchlist page ([dashboard/pages]) that calls them.

    Numbers.  The source computes on IEEE doubles held in pandas columns.
    A column cell is modelled as an [fval]: an exact rational, one of the
    two infinities, or NaN.  Finite arithmetic on columns is exact (no
    rounding, no overflow, no signed zero); the special values follow
    IEEE: every comparison with NaN is false, [x / 0] is an infinity for
    [x <> 0] and NaN for [x = 0].  The model of a column therefore agrees
    with the code up to the rounding of each cell, and a comparison of
    two computed cells that are equal up to rounding (two moving averages
    on a flat stretch) can come out differently in the code.

    The scalar arithmetic of [calculate_position_size], whose result is
    an integer, is modelled bit for bit on binary64 numbers (module
    [PyFloat]). *)

From Stdlib Require Import String DecimalString.
From Stdlib Require Import QArith Qabs Qround ZArith Bool Lia Lqa.
From Stdlib Require Import Permutation Sorted List.
From Stdlib Require Floats.
Import ListNotations.

Local Open Scope Q_scope.

(* ================================================================== *)
(** ** Column cells                                                    *)
(* ================================================================== *)

Module Float.

Inductive fval : Type :=
| Fin (q : Q)
| PInf
| NInf
| NaN.

Definition is_nan (x : fval) : bool :=
  match x with NaN => true | _ => false end.

Definition Qlt_bool (a b : Q) : bool :=
  (Qnum a * QDen b <? Qnum b * QDen a)%Z.

(** [-x] *)
Definition fneg (x : fval) : fval :=
  match x with
  | Fin q => Fin (- q)
  | PInf => NInf
  | NInf => PInf
  | NaN => NaN
  end.

(** [x + y] *)
Definition fadd (x y : fval) : fval :=
  match x, y with
  | NaN, _ | _, NaN => NaN
  | Fin a, Fin b => Fin (a + b)
  | PInf, NInf | NInf, PInf => NaN
  | PInf, _ | _, PInf => PInf
  | NInf, _ | _, NInf => NInf
  end.

(** [x - y] *)
Definition fsub (x y : fval) : fval := fadd x (fneg y).

(** The infinity carrying the sign of [q], NaN when [q] is zero. *)
Definition inf_of_sign (q : Q) : fval :=
  match q ?= 0 with
  | Gt => PInf
  | Lt => NInf
  | Eq => NaN
  end.

(** [x * y] *)
Definition fmul (x y : fval) : fval :=
  match x, y with
  | NaN, _ | _, NaN => NaN
  | Fin a, Fin b => Fin (a * b)
  | PInf, Fin q | Fin q, PInf => inf_of_sign q
  | NInf, Fin q | Fin q, NInf => inf_of_sign (- q)
  | PInf, PInf | NInf, NInf => PInf
  | PInf, NInf | NInf, PInf => NInf
  end.

(** [x / y].  A finite non-zero value divided by zero is an infinity,
    [0 / 0] is NaN, a finite value divided by an infinity is zero. *)
Definition fdiv (x y : fval) : fval :=
  match x, y with
  | NaN, _ | _, NaN => NaN
  | Fin a, Fin b => if Qeq_bool b 0 then inf_of_sign a else Fin (a / b)
  | Fin _, PInf | Fin _, NInf => Fin 0
  | PInf, Fin b => if Qlt_bool b 0 then NInf else PInf
  | NInf, Fin b => if Qlt_bool b 0 then PInf else NInf
  | PInf, PInf | PInf, NInf | NInf, PInf | NInf, NInf => NaN
  end.

(** [abs(x)] *)
Definition fabs (x : fval) : fval :=
  match x with
  | Fin q => Fin (Qabs q)
  | PInf | NInf => PInf
  | NaN => NaN
  end.

(** [x < y]; false as soon as one side is NaN. *)
Definition flt (x y : fval) : bool :=
  match x, y with
  | NaN, _ | _, NaN => false
  | Fin a, Fin b => Qlt_bool a b
  | NInf, NInf | PInf, _ | _, NInf => false
  | NInf, _ | _, PInf => true
  end.

(** [x <= y]; false as soon as one side is NaN. *)
Definition fle (x y : fval) : bool :=
  match x, y with
  | NaN, _ | _, NaN => false
  | Fin a, Fin b => Qle_bool a b
  | NInf, _ | _, PInf => true
  | PInf, _ | _, NInf => false
  end.

Definition fgt (x y : fval) : bool := flt y x.
Definition fge (x y : fval) : bool := fle y x.

(** [x == y] as pandas compares cells: NaN differs from everything. *)
Definition feqb (x y : fval) : bool :=
  match x, y with
  | Fin a, Fin b => Qeq_bool a b
  | PInf, PInf | NInf, NInf => true
  | _, _ => false
  end.

(** [max] and [min] of two cells that are not NaN (the rolling
    aggregations only reach them on NaN-free windows). *)
Definition fmax (x y : fval) : fval := if fle x y then y else x.
Definition fmin (x y : fval) : fval := if fle x y then x else y.

(** Equality of cells up to the value of the rational. *)
Definition feq (x y : fval) : Prop :=
  match x, y with
  | Fin a, Fin b => a == b
  | PInf, PInf | NInf, NInf | NaN, NaN => True
  | _, _ => False
  end.

(** A cell holding a real number. *)
Definition defined (x : fval) : Prop :=
  match x with Fin _ => True | _ => False end.

Definition definedb (x : fval) : bool :=
  match x with Fin _ => true | _ => false end.

End Float.
Export Float.

Declare Scope fval_scope.
Delimit Scope fval_scope with F.
Infix "+" := fadd : fval_scope.
Infix "-" := fsub : fval_scope.
Infix "*" := fmul : fval_scope.
Infix "/" := fdiv : fval_scope.
Infix "<?" := flt : fval_scope.
Infix "<=?" := fle : fval_scope.
Infix ">?" := fgt (at level 70) : fval_scope.
Infix ">=?" := fge (at level 70) : fval_scope.
Infix "==" := feq : fval_scope.

(** Rational literals used by the strategies. *)
Definition Qnat (n : nat) : Q := inject_Z (Z.of_nat n).

(** Decimal rendering of a period, as an f-string prints it. *)
Definition str_of_nat (n : nat) : string :=
  NilEmpty.string_of_uint (Nat.to_uint n).

(* ================================================================== *)
(** ** Failures                                                        *)
(* ================================================================== *)

(** The exceptions the modelled code can raise: [df['x']] on a frame
    without column [x]; [ewm(span=s)] for [s < 1] and [int(nan)], both a
    ValueError; a division of Python floats by zero; [int(inf)]. *)
Inductive exn : Type :=
| KeyError (column : string)
| ValueError (msg : string)
| ZeroDivisionError
| OverflowError.

Definition Err (A : Type) : Type := (exn + A)%type.

Definition ret {A} (x : A) : Err A := inr x.
Definition raise {A} (e : exn) : Err A := inl e.
Definition bind {A B} (c : Err A) (k : A -> Err B) : Err B :=
  match c with
  | inl e => inl e
  | inr x => k x
  end.

Notation "x <- c ;; k" := (bind c (fun x => k))
  (at level 61, c at next level, right associativity).

(* ================================================================== *)
(** ** Python numbers                                                  *)
(* ================================================================== *)

(** [calculate_position_size] computes on the scalars it is handed, not
    on columns, and its result is an integer: there the rounding of each
    operation decides the answer, and the scalars are modelled bit for
    bit.  A Python [float] and a [numpy.float64] (what a cell read from a
    pandas row is) are both IEEE binary64 numbers, Rocq's primitive
    [float].  They differ in one respect: dividing Python floats by zero
    raises ZeroDivisionError, while numpy returns an infinity or NaN; an
    operation with one numpy operand is numpy's. *)
Module PyFloat.
Import PrimFloat FloatOps SpecFloat.

Inductive number : Type :=
| Float (x : float)
| Float64 (x : float).

Definition value (a : number) : float :=
  match a with Float x | Float64 x => x end.

Definition is_float64 (a : number) : bool :=
  match a with Float64 _ => true | Float _ => false end.

Definition binop (op : float -> float -> float) (a b : number) : number :=
  if is_float64 a || is_float64 b then Float64 (op (value a) (value b))
  else Float (op (value a) (value b)).

(** [a * b] and [a - b] *)
Definition mul : number -> number -> number := binop PrimFloat.mul.
Definition sub : number -> number -> number := binop PrimFloat.sub.

(** [abs(a)] *)
Definition abs (a : number) : number :=
  match a with
  | Float x => Float (PrimFloat.abs x)
  | Float64 x => Float64 (PrimFloat.abs x)
  end.

(** [a == 0]; true of both zeros, false of NaN. *)
Definition eq_zero (a : number) : bool :=
  PrimFloat.eqb (value a) PrimFloat.zero.

(** [a / b] *)
Definition truediv (a b : number) : Err number :=
  if negb (is_float64 a || is_float64 b) && eq_zero b
  then raise ZeroDivisionError
  else ret (binop PrimFloat.div a b).

(** [int(x)]: truncation towards zero of the number [(-1)^s * m * 2^e];
    an infinity and NaN cannot be converted. *)
Definition trunc (x : spec_float) : Err Z :=
  match x with
  | S754_nan => raise (ValueError "cannot convert float NaN to integer")
  | S754_infinity _ => raise OverflowError
  | S754_zero _ => ret 0%Z
  | S754_finite s m e =>
      let a := Z.shiftl (Zpos m) e in
      ret (if s then Z.opp a else a)
  end.

Definition int (a : number) : Err Z := trunc (Prim2SF (value a)).

End PyFloat.

(* ================================================================== *)
(** ** pandas Series                                                   *)
(* ================================================================== *)

Module Series.

(** [tabulate n f] is the column [f 0, ..., f (n-1)]. *)
Definition tabulate {A} (n : nat) (f : nat -> A) : list A :=
  map f (seq 0 n).

(** [s.iloc[t]] for the three kinds of column. *)
Definition iloc (s : list fval) (t : nat) : fval := nth t s NaN.
Definition mloc (m : list bool) (t : nat) : bool := nth t m false.
Definition zloc (z : list Z) (t : nat) : Z := nth t z 0%Z.
Definition sloc (z : list string) (t : nat) : string := nth t z EmptyString.

(** Element-wise operation of two columns on the same index. *)
Definition zip_with (f : fval -> fval -> fval) (a b : list fval) : list fval :=
  tabulate (length a) (fun t => f (iloc a t) (iloc b t)).

(** Element-wise comparison, giving a boolean mask. *)
Definition compare (cmp : fval -> fval -> bool) (a b : list fval) : list bool :=
  tabulate (length a) (fun t => cmp (iloc a t) (iloc b t)).

(** [m1 & m2] *)
Definition mask_and (m1 m2 : list bool) : list bool :=
  tabulate (length m1) (fun t => mloc m1 t && mloc m2 t).

(** [s.shift(k)]: the cell of [k] rows earlier, NaN on the first [k]. *)
Definition shift (k : nat) (s : list fval) : list fval :=
  tabulate (length s) (fun t => if t <? k then NaN else iloc s (t - k)).

(** [s.diff()] *)
Definition diff (s : list fval) : list fval :=
  zip_with fsub s (shift 1 s).

(** [s.where(cond, other)] with a scalar [other]. *)
Definition where_ (s : list fval) (cond : list bool) (other : fval) : list fval :=
  tabulate (length s) (fun t => if mloc cond t then iloc s t else other).

(** The cells [t-w+1 .. t] of [s]. *)
Definition window (w : nat) (s : list fval) (t : nat) : list fval :=
  firstn w (skipn (t + 1 - w) s).

(** [s.rolling(window=w).agg()].  pandas takes [min_periods = w]: the
    cell is NaN until [w] rows are available and whenever the window
    holds a NaN.  A window of [0] holds no observation; its cells are
    modelled as NaN. *)
Definition rolling (agg : list fval -> fval) (w : nat) (s : list fval) : list fval :=
  tabulate (length s) (fun t =>
    if (w =? 0)%nat || (t + 1 <? w)%nat then NaN
    else if existsb is_nan (window w s t) then NaN
    else agg (window w s t)).

Definition fsum (l : list fval) : fval := fold_right fadd (Fin 0) l.

Definition mean (l : list fval) : fval :=
  fdiv (fsum l) (Fin (Qnat (length l))).

Definition maximum (l : list fval) : fval :=
  match l with
  | [] => NaN
  | x :: r => fold_left fmax r x
  end.

Definition minimum (l : list fval) : fval :=
  match l with
  | [] => NaN
  | x :: r => fold_left fmin r x
  end.

Definition rolling_mean := rolling mean.
Definition rolling_max := rolling maximum.
Definition rolling_min := rolling minimum.

(** [s.ewm(span=span, adjust=False).mean()] on a column of finite cells:
    [y_0 = x_0], [y_t = (1 - alpha) * y_(t-1) + alpha * x_t] with
    [alpha = 2 / (span + 1)].  pandas refuses [span < 1].  The recurrence
    is computed exactly here and in doubles by pandas: each cell agrees
    with the code's up to rounding, and two averages of different spans
    that the model finds equal (after a long flat stretch) may differ by
    an ulp in the code. *)
Definition ewm_alpha (span : nat) : Q := 2 / (Qnat span + 1).

Fixpoint ewm_from (alpha prev : Q) (xs : list Q) : list Q :=
  match xs with
  | [] => []
  | x :: r =>
      let y := (1 - alpha) * prev + alpha * x in
      y :: ewm_from alpha y r
  end.

Definition ewm_Q (span : nat) (xs : list Q) : list Q :=
  match xs with
  | [] => []
  | x0 :: r => x0 :: ewm_from (ewm_alpha span) x0 r
  end.

Definition ewm_mean (span : nat) (xs : list Q) : Err (list Q) :=
  if (span <? 1)%nat
  then raise (ValueError "span must satisfy: span >= 1")
  else ret (ewm_Q span xs).

(** [pd.concat([a, b, c], axis=1).max(axis=1)]: the row-wise maximum,
    skipping NaN cells; NaN when the three cells are NaN. *)
Definition nanmax (x y : fval) : fval :=
  match x, y with
  | NaN, _ => y
  | _, NaN => x
  | _, _ => fmax x y
  end.

Definition row_max3 (a b c : list fval) : list fval :=
  tabulate (length a) (fun t => nanmax (nanmax (iloc a t) (iloc b t)) (iloc c t)).

(** [df.loc[mask, col] = vals]: the rows of [col] selected by [mask]
    take the cell of [vals] on the same row. *)
Definition loc_set {A} (d : A) (mask : list bool) (vals col : list A) : list A :=
  tabulate (length col) (fun t => if mloc mask t then nth t vals d else nth t col d).

(** [df.loc[mask, col] = v] for a scalar [v]. *)
Definition loc_fill {A} (d : A) (mask : list bool) (v : A) (col : list A) : list A :=
  tabulate (length col) (fun t => if mloc mask t then v else nth t col d).

End Series.
Export Series.

(* ================================================================== *)
(** ** Bars and frames                                                 *)
(* ================================================================== *)

(** One OHLCV observation, keyed by its trading date (a day number). *)
Record Bar : Type := {
  date : Z;
  open : Q;
  high : Q;
  low : Q;
  close : Q;
  volume : Q
}.

Inductive column : Type := ColOpen | ColHigh | ColLow | ColClose | ColVolume.

Definition column_name (c : column) : string :=
  match c with
  | ColOpen => "open"
  | ColHigh => "high"
  | ColLow => "low"
  | ColClose => "close"
  | ColVolume => "volume"
  end.

Definition cell (c : column) (b : Bar) : Q :=
  match c with
  | ColOpen => open b
  | ColHigh => high b
  | ColLow => low b
  | ColClose => close b
  | ColVolume => volume b
  end.

(** The frame handed to a strategy: its rows in the order received (the
    index is the [date] of each row), the OHLCV columns it really has,
    and the [symbol] column when the caller added one. *)
Record DataFrame : Type := {
  rows : list Bar;
  columns : column -> bool;
  symbol : option string
}.

(** A frame with the five OHLCV columns. *)
Definition of_bars (bars : list Bar) : DataFrame :=
  {| rows := bars; columns := fun _ => true; symbol := None |}.

(** [df[c]] as rationals: KeyError when the column is missing. *)
Definition getitem_Q (df : DataFrame) (c : column) : Err (list Q) :=
  if columns df c then ret (map (cell c) (rows df))
  else raise (KeyError (column_name c)).

(** [df[c]] as a column of cells. *)
Definition getitem (df : DataFrame) (c : column) : Err (list fval) :=
  xs <- getitem_Q df c ;;
  ret (map Fin xs).

(** [df.empty] *)
Definition empty (df : DataFrame) : bool :=
  match rows df with [] => true | _ => false end.

(** The position of the final row. *)
Definition last_index (df : DataFrame) : nat := length (rows df) - 1.

(** [df.iloc[t]] restricted to the OHLCV cells; [bar0] stands for a row
    that does not exist. *)
Definition bar0 : Bar :=
  {| date := 0; open := 0; high := 0; low := 0; close := 0; volume := 0 |}.

Definition row (df : DataFrame) (t : nat) : Bar := nth t (rows df) bar0.

(** The cells of column [c], when the frame has it. *)
Definition col_of (c : column) (df : DataFrame) : list fval :=
  map (fun b => Fin (cell c b)) (rows df).

(** [latest.name] of [df.iloc[-1]]: the date of the final row. *)
Definition last_date (df : DataFrame) : Z := date (row df (last_index df)).

(** [latest.get('symbol', 'Unknown')] *)
Definition symbol_or_unknown (df : DataFrame) : string :=
  match symbol df with
  | Some s => s
  | None => "Unknown"
  end.

(* ================================================================== *)
(** ** strategy_base.py                                                *)
(* ================================================================== *)

(** The base class.  Its own [calculate_indicators] walks the indicator
    list of a strategy definition (module [strategy_definitions], not
    among these sources) and is overridden by each of the four variants,
    whose versions are the ones modelled further down; [_calculate_rsi],
    [_calculate_atr] and [calculate_position_size] are shared by them. *)
Module StrategyBase.

(** [_calculate_rsi(series, period)] *)
Definition rsi_gain (series : list fval) (period : nat) : list fval :=
  let delta := diff series in
  rolling_mean period
    (where_ delta (map (fun d => fgt d (Fin 0)) delta) (Fin 0)).

Definition rsi_loss (series : list fval) (period : nat) : list fval :=
  let delta := diff series in
  rolling_mean period
    (map fneg (where_ delta (map (fun d => flt d (Fin 0)) delta) (Fin 0))).

Definition _calculate_rsi (series : list fval) (period : nat) : list fval :=
  let gain := rsi_gain series period in
  let loss := rsi_loss series period in
  let rs := zip_with fdiv gain loss in
  map (fun r => fsub (Fin 100) (fdiv (Fin 100) (fadd (Fin 1) r))) rs.

(** [_calculate_atr(df, period)] *)
Definition _calculate_atr (df : DataFrame) (period : nat) : Err (list fval) :=
  high <- getitem df ColHigh ;;
  low <- getitem df ColLow ;;
  close <- getitem df ColClose ;;
  let tr1 := zip_with fsub high low in
  let tr2 := map fabs (zip_with fsub high (shift 1 close)) in
  let tr3 := map fabs (zip_with fsub low (shift 1 close)) in
  let tr := row_max3 tr1 tr2 tr3 in
  ret (rolling_mean period tr).

(** [calculate_position_size(entry_price, stop_price, account_equity)]
    on float arguments.  [risk_pct] is read from the strategy definition
    and [max_position_pct] from [RISK_CONFIG]; both live outside the
    strategies package and are taken as parameters, Python floats. *)
Definition calculate_position_size (risk_pct max_position_pct : PrimFloat.float)
    (entry_price stop_price account_equity : PyFloat.number) : Err Z :=
  let risk_dollars := PyFloat.mul account_equity (PyFloat.Float risk_pct) in
  let risk_per_share := PyFloat.abs (PyFloat.sub entry_price stop_price) in
  if PyFloat.eq_zero risk_per_share then ret 0%Z
  else
    q <- PyFloat.truediv risk_dollars risk_per_share ;;
    shares <- PyFloat.int q ;;
    q' <- PyFloat.truediv
            (PyFloat.mul account_equity (PyFloat.Float max_position_pct))
            entry_price ;;
    max_shares <- PyFloat.int q' ;;
    ret (Z.min shares max_shares).

End StrategyBase.

(* ================================================================== *)
(** ** ma101_strategy.py                                               *)
(* ================================================================== *)

Module MA101Strategy.

(** The attributes [__init__] sets; [name] comes from the strategy
    definition. *)
Record t : Type := {
  name : string;
  regime_ma : nat;
  fast_ema : nat;
  slow_ema : nat;
  rsi_period : nat;
  rsi_overbought : Q;
  stop_ma : nat
}.

Definition default (name : string) : t :=
  {| name := name; regime_ma := 200; fast_ema := 10; slow_ema := 30;
     rsi_period := 14; rsi_overbought := 70; stop_ma := 10 |}.

(** The columns [calculate_indicators] adds. *)
Record Indicators : Type := {
  sma_regime : list fval;
  ema_fast : list fval;
  ema_slow : list fval;
  ema_stop : list fval;
  rsi : list fval;
  atr_14 : list fval
}.

Definition calculate_indicators (self : t) (df : DataFrame) : Err Indicators :=
  close <- getitem df ColClose ;;
  closeQ <- getitem_Q df ColClose ;;
  let sma := rolling_mean (regime_ma self) close in
  fast <- ewm_mean (fast_ema self) closeQ ;;
  slow <- ewm_mean (slow_ema self) closeQ ;;
  stop <- ewm_mean (stop_ma self) closeQ ;;
  let rsi := StrategyBase._calculate_rsi close (rsi_period self) in
  atr <- StrategyBase._calculate_atr df 14 ;;
  ret {| sma_regime := sma; ema_fast := map Fin fast;
         ema_slow := map Fin slow; ema_stop := map Fin stop;
         rsi := rsi; atr_14 := atr |}.

(** The frame [generate_signals] returns. *)
Record Signals : Type := {
  ind : Indicators;
  signal : list Z;
  entry_price : list fval;
  stop_price : list fval;
  reason : list string
}.

Definition cross_above (fast slow : list fval) : list bool :=
  mask_and (compare fle (shift 1 fast) (shift 1 slow))
           (compare fgt fast slow).

Definition entry_reason (self : t) : string :=
  "EMA " ++ str_of_nat (fast_ema self) ++ "/" ++ str_of_nat (slow_ema self)
  ++ " cross above, price > SMA " ++ str_of_nat (regime_ma self).

Definition generate_signals (self : t) (df : DataFrame) : Err Signals :=
  ind <- calculate_indicators self df ;;
  close <- getitem df ColClose ;;
  let n := length (rows df) in
  let regime := compare fgt close (sma_regime ind) in
  let entry_signal := mask_and (cross_above (ema_fast ind) (ema_slow ind)) regime in
  ret {| ind := ind;
         signal := loc_fill 0%Z entry_signal 1%Z (repeat 0%Z n);
         entry_price := loc_set NaN entry_signal close (repeat NaN n);
         stop_price := loc_set NaN entry_signal (ema_stop ind) (repeat NaN n);
         reason := loc_fill EmptyString entry_signal (entry_reason self)
                     (repeat EmptyString n) |}.

(** The dict [check_current_signal] returns. *)
Record Record_ : Type := {
  r_symbol : string;
  r_date : Z;
  r_signal : string;
  r_entry_price : fval;
  r_stop_price : fval;
  r_reason : string;
  r_strategy : string;
  risk_per_share : fval;
  r_atr : fval
}.

Definition check_current_signal (self : t) (df : DataFrame) : Err (option Record_) :=
  sf <- generate_signals self df ;;
  if empty df then ret None
  else
    let t := last_index df in
    if (zloc (signal sf) t =? 1)%Z then
      ret (Some {| r_symbol := symbol_or_unknown df;
                   r_date := last_date df;
                   r_signal := "LONG";
                   r_entry_price := iloc (entry_price sf) t;
                   r_stop_price := iloc (stop_price sf) t;
                   r_reason := sloc (reason sf) t;
                   r_strategy := name self;
                   risk_per_share :=
                     fsub (iloc (entry_price sf) t) (iloc (stop_price sf) t);
                   r_atr := iloc (atr_14 (ind sf)) t |})
    else ret None.

End MA101Strategy.

(* ================================================================== *)
(** ** donchian_strategy.py                                            *)
(* ================================================================== *)

Module DonchianStrategy.

Record t : Type := {
  name : string;
  entry_period : nat;
  exit_period : nat;
  atr_period : nat;
  atr_stop_multiple : Q;
  use_atr_stop : bool;
  allow_shorts : bool
}.

Definition default (name : string) : t :=
  {| name := name; entry_period := 50; exit_period := 25; atr_period := 14;
     atr_stop_multiple := 3; use_atr_stop := false; allow_shorts := false |}.

Record Indicators : Type := {
  donchian_high_entry : list fval;
  donchian_low_entry : list fval;
  donchian_high_exit : list fval;
  donchian_low_exit : list fval;
  atr : list fval
}.

Definition calculate_indicators (self : t) (df : DataFrame) : Err Indicators :=
  high <- getitem df ColHigh ;;
  low <- getitem df ColLow ;;
  let dhe := rolling_max (entry_period self) (shift 1 high) in
  let dle := rolling_min (entry_period self) (shift 1 low) in
  let dhx := rolling_max (exit_period self) (shift 1 high) in
  let dlx := rolling_min (exit_period self) (shift 1 low) in
  atr <- StrategyBase._calculate_atr df (atr_period self) ;;
  ret {| donchian_high_entry := dhe; donchian_low_entry := dle;
         donchian_high_exit := dhx; donchian_low_exit := dlx; atr := atr |}.

Record Signals : Type := {
  ind : Indicators;
  signal : list Z;
  entry_price : list fval;
  stop_price : list fval;
  reason : list string
}.

(** [close -/+ atr_stop_multiple * atr] *)
Definition atr_stop (op : fval -> fval -> fval) (self : t)
    (close atr : list fval) : list fval :=
  zip_with op close (map (fun a => fmul (Fin (atr_stop_multiple self)) a) atr).

(** The long block of [generate_signals]. *)
Definition long_entries (self : t) (close : list fval) (i : Indicators)
    (n : nat) : Signals :=
  let long_breakout := compare fgt close (donchian_high_entry i) in
  let stop :=
    if use_atr_stop self then atr_stop fsub self close (atr i)
    else donchian_low_exit i in
  {| ind := i;
     signal := loc_fill 0%Z long_breakout 1%Z (repeat 0%Z n);
     entry_price := loc_set NaN long_breakout close (repeat NaN n);
     stop_price := loc_set NaN long_breakout stop (repeat NaN n);
     reason := loc_fill EmptyString long_breakout
                 (str_of_nat (entry_period self) ++ "-day breakout high")%string
                 (repeat EmptyString n) |}.

(** The short block, run when [allow_shorts] is set. *)
Definition short_entries (self : t) (close : list fval) (sf : Signals) : Signals :=
  let i := ind sf in
  let short_breakout := compare flt close (donchian_low_entry i) in
  let stop_short :=
    if use_atr_stop self then atr_stop fadd self close (atr i)
    else donchian_high_exit i in
  {| ind := i;
     signal := loc_fill 0%Z short_breakout (-1)%Z (signal sf);
     entry_price := loc_set NaN short_breakout close (entry_price sf);
     stop_price := loc_set NaN short_breakout stop_short (stop_price sf);
     reason := loc_fill EmptyString short_breakout
                 (str_of_nat (entry_period self) ++ "-day breakdown low")%string
                 (reason sf) |}.

Definition generate_signals (self : t) (df : DataFrame) : Err Signals :=
  i <- calculate_indicators self df ;;
  close <- getitem df ColClose ;;
  let sf := long_entries self close i (length (rows df)) in
  ret (if allow_shorts self then short_entries self close sf else sf).

Record Record_ : Type := {
  r_symbol : string;
  r_date : Z;
  r_signal : string;
  r_entry_price : fval;
  r_stop_price : fval;
  r_reason : string;
  r_strategy : string;
  risk_per_share : fval;
  r_atr : fval;
  r_parameters : nat * nat * bool
}.

Definition check_current_signal (self : t) (df : DataFrame) : Err (option Record_) :=
  sf <- generate_signals self df ;;
  if empty df then ret None
  else
    let t := last_index df in
    if negb (zloc (signal sf) t =? 0)%Z then
      ret (Some {| r_symbol := symbol_or_unknown df;
                   r_date := last_date df;
                   r_signal := if (zloc (signal sf) t =? 1)%Z
                               then "LONG" else "SHORT";
                   r_entry_price := iloc (entry_price sf) t;
                   r_stop_price := iloc (stop_price sf) t;
                   r_reason := sloc (reason sf) t;
                   r_strategy := name self;
                   risk_per_share :=
                     fabs (fsub (iloc (entry_price sf) t) (iloc (stop_price sf) t));
                   r_atr := iloc (atr (ind sf)) t;
                   r_parameters :=
                     (entry_period self, exit_period self, use_atr_stop self) |})
    else ret None.

End DonchianStrategy.

(* ================================================================== *)
(** ** swing_trading_strategy.py                                       *)
(* ================================================================== *)

Module SwingTradingStrategy.

Record t : Type := {
  name : string;
  fast_ema : nat;
  slow_ema : nat;
  ma_50 : nat;
  ma_200 : nat;
  rsi_period : nat;
  rsi_profit_target : Q;
  atr_period : nat;
  entry_mode : string
}.

Definition default (name : string) : t :=
  {| name := name; fast_ema := 5; slow_ema := 20; ma_50 := 50; ma_200 := 200;
     rsi_period := 14; rsi_profit_target := 70; atr_period := 14;
     entry_mode := "all" |}.

Record Indicators : Type := {
  ema_fast : list fval;
  ema_slow : list fval;
  sma_50 : list fval;
  sma_200 : list fval;
  rsi : list fval;
  atr : list fval
}.

Definition calculate_indicators (self : t) (df : DataFrame) : Err Indicators :=
  close <- getitem df ColClose ;;
  closeQ <- getitem_Q df ColClose ;;
  fast <- ewm_mean (fast_ema self) closeQ ;;
  slow <- ewm_mean (slow_ema self) closeQ ;;
  let sma50 := rolling_mean (ma_50 self) close in
  let sma200 := rolling_mean (ma_200 self) close in
  let rsi := StrategyBase._calculate_rsi close (rsi_period self) in
  atr <- StrategyBase._calculate_atr df (atr_period self) ;;
  ret {| ema_fast := map Fin fast; ema_slow := map Fin slow;
         sma_50 := sma50; sma_200 := sma200; rsi := rsi; atr := atr |}.

Record Signals : Type := {
  ind : Indicators;
  signal : list Z;
  entry_price : list fval;
  stop_price : list fval;
  reason : list string;
  entry_type : list string
}.

(** [mode in [a, b]] *)
Definition mode_in (mode : string) (l : list string) : bool :=
  existsb (String.eqb mode) l.

Definition cross_above (fast slow : list fval) : list bool :=
  mask_and (compare fle (shift 1 fast) (shift 1 slow))
           (compare fgt fast slow).

(** [(low <= ma) & (close > ma) & (close.shift(1) > ma.shift(1))] *)
Definition dip (low close ma : list fval) : list bool :=
  mask_and (mask_and (compare fle low ma) (compare fgt close ma))
           (compare fgt (shift 1 close) (shift 1 ma)).

(** [df['signal'] == 0] *)
Definition is_flat (signal : list Z) : list bool :=
  map (fun s => (s =? 0)%Z) signal.

(** The five assignments every pattern makes on its mask. *)
Definition mark (mask : list bool) (close stop : list fval)
    (why kind : string) (sf : Signals) : Signals :=
  {| ind := ind sf;
     signal := loc_fill 0%Z mask 1%Z (signal sf);
     entry_price := loc_set NaN mask close (entry_price sf);
     stop_price := loc_set NaN mask stop (stop_price sf);
     reason := loc_fill EmptyString mask why (reason sf);
     entry_type := loc_fill EmptyString mask kind (entry_type sf) |}.

(** ENTRY PATTERN 1: EMA crossover *)
Definition pattern_crossover (self : t) (close : list fval) (sf : Signals) : Signals :=
  if mode_in (entry_mode self) ["crossover"; "all"]%string then
    let i := ind sf in
    mark (cross_above (ema_fast i) (ema_slow i)) close (ema_slow i)
      ("EMA " ++ str_of_nat (fast_ema self) ++ "/"
         ++ str_of_nat (slow_ema self) ++ " bullish cross")%string
      "crossover" sf
  else sf.

(** ENTRY PATTERN 2: 50-day MA dip-buy *)
Definition pattern_dip_50 (self : t) (low close : list fval) (sf : Signals) : Signals :=
  if mode_in (entry_mode self) ["dip_50"; "all"]%string then
    let ma := sma_50 (ind sf) in
    let new_dip_50 := mask_and (dip low close ma) (is_flat (signal sf)) in
    mark new_dip_50 close (map (fun m => fmul m (Fin (98 # 100))) ma)
      "50-day MA dip-buy (bounce)" "dip_50" sf
  else sf.

(** ENTRY PATTERN 3: 200-day MA dip-buy *)
Definition pattern_dip_200 (self : t) (low close : list fval) (sf : Signals) : Signals :=
  if mode_in (entry_mode self) ["dip_200"; "all"]%string then
    let ma := sma_200 (ind sf) in
    let new_dip_200 := mask_and (dip low close ma) (is_flat (signal sf)) in
    mark new_dip_200 close (map (fun m => fmul m (Fin (97 # 100))) ma)
      "200-day MA deep dip-buy" "dip_200" sf
  else sf.

Definition initial (i : Indicators) (n : nat) : Signals :=
  {| ind := i;
     signal := repeat 0%Z n;
     entry_price := repeat NaN n;
     stop_price := repeat NaN n;
     reason := repeat EmptyString n;
     entry_type := repeat EmptyString n |}.

Definition generate_signals (self : t) (df : DataFrame) : Err Signals :=
  i <- calculate_indicators self df ;;
  close <- getitem df ColClose ;;
  low <- getitem df ColLow ;;
  let sf0 := initial i (length (rows df)) in
  let sf1 := pattern_crossover self close sf0 in
  let sf2 := pattern_dip_50 self low close sf1 in
  let sf3 := pattern_dip_200 self low close sf2 in
  ret sf3.

Record Record_ : Type := {
  r_symbol : string;
  r_date : Z;
  r_signal : string;
  r_entry_price : fval;
  r_stop_price : fval;
  r_reason : string;
  r_entry_type : string;
  r_strategy : string;
  risk_per_share : fval;
  r_atr : fval;
  r_rsi : fval
}.

Definition check_current_signal (self : t) (df : DataFrame) : Err (option Record_) :=
  sf <- generate_signals self df ;;
  if empty df then ret None
  else
    let t := last_index df in
    if (zloc (signal sf) t =? 1)%Z then
      ret (Some {| r_symbol := symbol_or_unknown df;
                   r_date := last_date df;
                   r_signal := "LONG";
                   r_entry_price := iloc (entry_price sf) t;
                   r_stop_price := iloc (stop_price sf) t;
                   r_reason := sloc (reason sf) t;
                   r_entry_type := sloc (entry_type sf) t;
                   r_strategy := name self;
                   risk_per_share :=
                     fsub (iloc (entry_price sf) t) (iloc (stop_price sf) t);
                   r_atr := iloc (atr (ind sf)) t;
                   r_rsi := iloc (rsi (ind sf)) t |})
    else ret None.

End SwingTradingStrategy.

(* ================================================================== *)
(** ** qullamaggie_htf_strategy.py                                     *)
(* ================================================================== *)

Module QullamaggieHTFStrategy.

Record t : Type := {
  name : string;
  volume_lookback : nat;
  volume_breakout_multiplier : Q;
  min_dollar_volume : Q;
  pole_lookback : nat;
  min_pole_move : Q;
  max_flag_retrace : Q
}.

(** The three periods [__init__] fixes. *)
Definition ema_10_period : nat := 10.
Definition sma_20_period : nat := 20.
Definition ma_50_period : nat := 50.

Definition default (name : string) : t :=
  {| name := name; volume_lookback := 20;
     volume_breakout_multiplier := 15 # 10;
     min_dollar_volume := 50000000; pole_lookback := 40;
     min_pole_move := 50 # 100; max_flag_retrace := 25 # 100 |}.

Record Indicators : Type := {
  ema_10 : list fval;
  sma_20 : list fval;
  sma_50 : list fval;
  avg_volume : list fval;
  volume_ratio : list fval;
  dollar_volume : list fval;
  avg_dollar_volume : list fval;
  high_20 : list fval;
  low_20 : list fval;
  pole_move : list fval
}.

Definition calculate_indicators (self : t) (df : DataFrame) : Err Indicators :=
  close <- getitem df ColClose ;;
  closeQ <- getitem_Q df ColClose ;;
  ema <- ewm_mean ema_10_period closeQ ;;
  let sma20 := rolling_mean sma_20_period close in
  let sma50 := rolling_mean ma_50_period close in
  volume <- getitem df ColVolume ;;
  let avg_vol := rolling_mean (volume_lookback self) volume in
  let vol_ratio := zip_with fdiv volume avg_vol in
  let dollar := zip_with fmul close volume in
  let avg_dollar := rolling_mean (volume_lookback self) dollar in
  high <- getitem df ColHigh ;;
  let high20 := rolling_max 20 high in
  low <- getitem df ColLow ;;
  let low20 := rolling_min 20 low in
  let pole :=
    map (fun r => fsub r (Fin 1))
        (zip_with fdiv close (shift (pole_lookback self) close)) in
  ret {| ema_10 := map Fin ema; sma_20 := sma20; sma_50 := sma50;
         avg_volume := avg_vol; volume_ratio := vol_ratio;
         dollar_volume := dollar; avg_dollar_volume := avg_dollar;
         high_20 := high20; low_20 := low20; pole_move := pole |}.

Record Signals : Type := {
  ind : Indicators;
  signal : list Z;
  entry_price : list fval;
  stop_price : list fval;
  reason : list string
}.

(** [col >= v] against a scalar. *)
Definition ge_scalar (s : list fval) (v : Q) : list bool :=
  map (fun x => fge x (Fin v)) s.

(** The seven masks of [generate_signals] and their conjunction. *)
Definition liquidity_ok (self : t) (i : Indicators) : list bool :=
  ge_scalar (avg_dollar_volume i) (min_dollar_volume self).

Definition above_50ma (close : list fval) (i : Indicators) : list bool :=
  compare fgt close (sma_50 i).

Definition strong_pole (self : t) (i : Indicators) : list bool :=
  ge_scalar (pole_move i) (min_pole_move self).

Definition near_highs (close : list fval) (i : Indicators) : list bool :=
  compare fge close (map (fun h => fmul h (Fin (90 # 100))) (high_20 i)).

Definition tight (close : list fval) (i : Indicators) : list bool :=
  mask_and (compare fge close (ema_10 i)) (compare fge close (sma_20 i)).

Definition breakout (high : list fval) (i : Indicators) : list bool :=
  compare fgt high (shift 1 (high_20 i)).

Definition volume_confirmation (self : t) (i : Indicators) : list bool :=
  ge_scalar (volume_ratio i) (volume_breakout_multiplier self).

Definition htf_signal (self : t) (close high : list fval) (i : Indicators) : list bool :=
  mask_and (mask_and (mask_and (mask_and (mask_and (mask_and
    (liquidity_ok self i)
    (above_50ma close i))
    (strong_pole self i))
    (near_highs close i))
    (tight close i))
    (breakout high i))
    (volume_confirmation self i).

Definition generate_signals (self : t) (df : DataFrame) : Err Signals :=
  i <- calculate_indicators self df ;;
  close <- getitem df ColClose ;;
  high <- getitem df ColHigh ;;
  low <- getitem df ColLow ;;
  let n := length (rows df) in
  let m := htf_signal self close high i in
  ret {| ind := i;
         signal := loc_fill 0%Z m 1%Z (repeat 0%Z n);
         entry_price := loc_set NaN m high (repeat NaN n);
         stop_price := loc_set NaN m low (repeat NaN n);
         reason := loc_fill EmptyString m
                     "HTF breakout: strong leader, pole+flag, volume"%string
                     (repeat EmptyString n) |}.

(** The dict of [check_current_signal]; [pole_move_pct] holds the number
    the source renders with one decimal and a percent sign. *)
Record Record_ : Type := {
  r_symbol : string;
  r_date : Z;
  r_signal : string;
  r_entry_price : fval;
  r_stop_price : fval;
  r_reason : string;
  r_strategy : string;
  risk_per_share : fval;
  r_volume_ratio : fval;
  r_dollar_volume : fval;
  r_pole_move_pct : fval;
  r_pattern : string
}.

Definition check_current_signal (self : t) (df : DataFrame) : Err (option Record_) :=
  sf <- generate_signals self df ;;
  if empty df then ret None
  else
    let t := last_index df in
    if (zloc (signal sf) t =? 1)%Z then
      let pole_pct := fmul (iloc (pole_move (ind sf)) t) (Fin 100) in
      ret (Some {| r_symbol := symbol_or_unknown df;
                   r_date := last_date df;
                   r_signal := "LONG";
                   r_entry_price := iloc (entry_price sf) t;
                   r_stop_price := iloc (stop_price sf) t;
                   r_reason := sloc (reason sf) t;
                   r_strategy := name self;
                   risk_per_share :=
                     fsub (iloc (entry_price sf) t) (iloc (stop_price sf) t);
                   r_volume_ratio := iloc (volume_ratio (ind sf)) t;
                   r_dollar_volume := iloc (avg_dollar_volume (ind sf)) t;
                   r_pole_move_pct := pole_pct;
                   r_pattern := "High Tight Flag" |})
    else ret None.

End QullamaggieHTFStrategy.

(* ================================================================== *)
(** * Properties                                                       *)
(* ================================================================== *)

(** ** Cells *)

Lemma Qlt_bool_iff a b : Qlt_bool a b = true <-> a < b.
Proof. unfold Qlt_bool, Qlt. apply Z.ltb_lt. Qed.

Lemma Qlt_bool_false a b : Qlt_bool a b = false <-> b <= a.
Proof. unfold Qlt_bool, Qle. rewrite Z.ltb_ge. reflexivity. Qed.

Lemma Qle_bool_false a b : Qle_bool a b = false <-> b < a.
Proof.
  split; intros H.
  - apply Qnot_le_lt. intros Hle. apply Qle_bool_iff in Hle. congruence.
  - destruct (Qle_bool a b) eqn:E; [|reflexivity].
    apply Qle_bool_iff in E. exfalso. apply (Qlt_not_le _ _ H E).
Qed.

Lemma flt_nan_l x : flt NaN x = false.
Proof. reflexivity. Qed.

Lemma flt_nan_r x : flt x NaN = false.
Proof. destruct x; reflexivity. Qed.

Lemma fle_nan_l x : fle NaN x = false.
Proof. reflexivity. Qed.


Lemma fgt_nan_l x : fgt NaN x = false.
Proof. apply flt_nan_r. Qed.

Lemma fgt_nan_r x : fgt x NaN = false.
Proof. reflexivity. Qed.


Lemma fge_nan_r x : fge x NaN = false.
Proof. reflexivity. Qed.

Lemma feq_refl x : feq x x.
Proof. destruct x; simpl; auto. reflexivity. Qed.

Lemma Qnat_pos w : (1 <= w)%nat -> 0 < Qnat w.
Proof.
  intros H. unfold Qnat, Qlt. simpl. lia.
Qed.

(** ** Columns *)

Lemma length_tabulate {A} n (f : nat -> A) : length (tabulate n f) = n.
Proof. unfold tabulate. now rewrite length_map, length_seq. Qed.

Lemma nth_tabulate {A} n (f : nat -> A) t d :
  (t < n)%nat -> nth t (tabulate n f) d = f t.
Proof.
  intros H. unfold tabulate.
  rewrite (nth_indep _ d (f 0%nat)) by now rewrite length_map, length_seq.
  rewrite map_nth, seq_nth by assumption. reflexivity.
Qed.

Lemma nth_tabulate_out {A} n (f : nat -> A) t d :
  (n <= t)%nat -> nth t (tabulate n f) d = d.
Proof. intros H. apply nth_overflow. now rewrite length_tabulate. Qed.

Lemma length_zip_with f a b : length (zip_with f a b) = length a.
Proof. apply length_tabulate. Qed.

Lemma length_compare f a b : length (compare f a b) = length a.
Proof. apply length_tabulate. Qed.

Lemma length_mask_and a b : length (mask_and a b) = length a.
Proof. apply length_tabulate. Qed.

Lemma length_shift k s : length (shift k s) = length s.
Proof. apply length_tabulate. Qed.

Lemma length_rolling agg w s : length (rolling agg w s) = length s.
Proof. apply length_tabulate. Qed.

Lemma length_loc_set {A} (d : A) m v c : length (loc_set d m v c) = length c.
Proof. apply length_tabulate. Qed.

Lemma length_loc_fill {A} (d : A) m v c : length (loc_fill d m v c) = length c.
Proof. apply length_tabulate. Qed.

Lemma length_where s c o : length (where_ s c o) = length s.
Proof. apply length_tabulate. Qed.

Lemma length_diff s : length (diff s) = length s.
Proof. apply length_tabulate. Qed.

Lemma length_row_max3 a b c : length (row_max3 a b c) = length a.
Proof. apply length_tabulate. Qed.

Lemma length_rolling_mean w s : length (rolling_mean w s) = length s.
Proof. apply length_tabulate. Qed.

Lemma length_rolling_max w s : length (rolling_max w s) = length s.
Proof. apply length_tabulate. Qed.

Lemma length_rolling_min w s : length (rolling_min w s) = length s.
Proof. apply length_tabulate. Qed.

Create Rewrite HintDb len.

#[global] Hint Rewrite length_rolling_mean length_rolling_max
  length_rolling_min : len.

#[global] Hint Rewrite @length_tabulate length_zip_with length_compare
  length_mask_and length_shift length_rolling @length_loc_set
  @length_loc_fill length_where length_diff length_row_max3
  @length_map @repeat_length : len.

Lemma iloc_zip_with f a b t :
  (t < length a)%nat -> iloc (zip_with f a b) t = f (iloc a t) (iloc b t).
Proof. intros H. unfold iloc at 1, zip_with. now rewrite nth_tabulate. Qed.

Lemma mloc_compare f a b t :
  (t < length a)%nat -> mloc (compare f a b) t = f (iloc a t) (iloc b t).
Proof. intros H. unfold mloc, compare. now rewrite nth_tabulate. Qed.

Lemma mloc_compare_out f a b t :
  (length a <= t)%nat -> mloc (compare f a b) t = false.
Proof. intros H. unfold mloc, compare. now rewrite nth_tabulate_out. Qed.

Lemma mloc_mask_and a b t :
  (t < length a)%nat -> mloc (mask_and a b) t = mloc a t && mloc b t.
Proof. intros H. unfold mloc at 1, mask_and. now rewrite nth_tabulate. Qed.

Lemma iloc_shift k s t :
  (t < length s)%nat ->
  iloc (shift k s) t = if (t <? k)%nat then NaN else iloc s (t - k).
Proof. intros H. unfold iloc at 1, shift. now rewrite nth_tabulate. Qed.

Lemma iloc_rolling agg w s t :
  (t < length s)%nat ->
  iloc (rolling agg w s) t =
    if (w =? 0)%nat || (t + 1 <? w)%nat then NaN
    else if existsb is_nan (window w s t) then NaN
    else agg (window w s t).
Proof. intros H. unfold iloc at 1, rolling. now rewrite nth_tabulate. Qed.

Lemma iloc_map f s t :
  (t < length s)%nat -> iloc (map f s) t = f (iloc s t).
Proof.
  intros H. unfold iloc.
  rewrite (nth_indep _ NaN (f NaN)) by now rewrite length_map.
  apply map_nth.
Qed.

Lemma iloc_map_Fin {A} (g : A -> Q) (l : list A) d t :
  (t < length l)%nat -> iloc (map (fun x => Fin (g x)) l) t = Fin (g (nth t l d)).
Proof.
  intros H. unfold iloc.
  rewrite (nth_indep _ NaN (Fin (g d))) by now rewrite length_map.
  apply (map_nth (fun x => Fin (g x))).
Qed.

Lemma mloc_map (f : fval -> bool) s t :
  (t < length s)%nat -> mloc (map f s) t = f (iloc s t).
Proof.
  intros H. unfold mloc, iloc.
  rewrite (nth_indep _ false (f NaN)) by now rewrite length_map.
  apply map_nth.
Qed.

Lemma iloc_where s c o t :
  (t < length s)%nat ->
  iloc (where_ s c o) t = if mloc c t then iloc s t else o.
Proof. intros H. unfold iloc at 1, where_. now rewrite nth_tabulate. Qed.

Lemma nth_loc_set {A} (d : A) m v c t :
  (t < length c)%nat ->
  nth t (loc_set d m v c) d = if mloc m t then nth t v d else nth t c d.
Proof. intros H. unfold loc_set. now rewrite nth_tabulate. Qed.

Lemma nth_loc_fill {A} (d : A) m v c t :
  (t < length c)%nat ->
  nth t (loc_fill d m v c) d = if mloc m t then v else nth t c d.
Proof. intros H. unfold loc_fill. now rewrite nth_tabulate. Qed.

Lemma nth_repeat_same {A} (d : A) n t : nth t (repeat d n) d = d.
Proof.
  revert t. induction n as [|n IH]; intros [|t]; simpl; auto.
Qed.

(* ================================================================== *)
(** ** Position sizing                                                 *)
(* ================================================================== *)

Lemma Qdiv_nonneg a b : 0 <= a -> 0 < b -> 0 <= a / b.
Proof.
  intros Ha Hb. unfold Qdiv. apply Qmult_le_0_compat; [assumption|].
  apply Qlt_le_weak, Qinv_lt_0_compat, Hb.
Qed.

(** *** Signs and NaN of the binary64 operations

    Read off the Standard Library's specification of the primitive
    floats ([SpecFloat]): what [*], [-], [/] and [abs] do to the sign of
    their result, and when they give NaN. *)
Module Binary64.
Import PrimFloat FloatOps SpecFloat FloatAxioms PyFloat.

(** Zero of either sign, a positive number, plus infinity, or NaN. *)
Definition nonneg (x : spec_float) : Prop :=
  match x with
  | S754_zero _ | S754_finite false _ _ | S754_infinity false | S754_nan => True
  | _ => False
  end.

(** The sign bit is clear. *)
Definition unsigned (x : spec_float) : Prop :=
  match x with
  | S754_zero false | S754_finite false _ _ | S754_infinity false
  | S754_nan => True
  | _ => False
  end.

Definition not_nan (x : spec_float) : Prop :=
  match x with S754_nan => False | _ => True end.

Definition finite_or_zero (x : spec_float) : Prop :=
  match x with
  | S754_zero _ | S754_finite _ _ _ => True
  | _ => False
  end.

Lemma shr_1_nonneg mrs : (0 <= shr_m mrs)%Z -> (0 <= shr_m (shr_1 mrs))%Z.
Proof.
  destruct mrs as [m r s]. cbn [shr_m shr_1].
  destruct m as [|[p|p|]|[p|p|]]; cbn [shr_m]; lia.
Qed.

Lemma iter_pos_nonneg p mrs :
  (0 <= shr_m mrs)%Z -> (0 <= shr_m (iter_pos shr_1 p mrs))%Z.
Proof.
  revert mrs. induction p as [p IH|p IH|]; intros mrs H; cbn [iter_pos].
  - apply IH, IH, shr_1_nonneg, H.
  - apply IH, IH, H.
  - apply shr_1_nonneg, H.
Qed.

Lemma shr_nonneg mrs e n :
  (0 <= shr_m mrs)%Z -> (0 <= shr_m (fst (shr mrs e n)))%Z.
Proof.
  intros H. unfold shr. destruct n; cbn [fst]; try assumption.
  now apply iter_pos_nonneg.
Qed.

Lemma shr_record_of_loc_m m l : shr_m (shr_record_of_loc m l) = m.
Proof. destruct l as [|[ | | ]]; reflexivity. Qed.

Lemma shr_fexp_nonneg m e l :
  (0 <= m)%Z -> (0 <= shr_m (fst (shr_fexp prec emax m e l)))%Z.
Proof.
  intros H. unfold shr_fexp. apply shr_nonneg.
  now rewrite shr_record_of_loc_m.
Qed.

Lemma round_nearest_even_nonneg m l :
  (0 <= m)%Z -> (0 <= round_nearest_even m l)%Z.
Proof.
  intros H. unfold round_nearest_even.
  destruct l as [|[ | | ]]; try assumption; try lia.
  destruct (Z.even m); lia.
Qed.

(** Rounding keeps the sign it is given and, on a mantissa that is not
    negative, gives a number or an infinity. *)
Lemma binary_round_aux_spec sx mx ex lx :
  (0 <= mx)%Z ->
  match binary_round_aux prec emax sx mx ex lx with
  | S754_zero s | S754_finite s _ _ | S754_infinity s => s = sx
  | S754_nan => False
  end.
Proof.
  intros H. unfold binary_round_aux.
  pose proof (shr_fexp_nonneg mx ex lx H) as H1.
  destruct (shr_fexp prec emax mx ex lx) as [mrs' e'].
  cbn [fst] in H1.
  pose proof (shr_fexp_nonneg
                (round_nearest_even (shr_m mrs') (loc_of_shr_record mrs'))
                e' loc_Exact (round_nearest_even_nonneg _ _ H1)) as H2.
  destruct (shr_fexp prec emax _ e' loc_Exact) as [mrs'' e''].
  cbn [fst] in H2.
  destruct (shr_m mrs'') as [|m|m]; [reflexivity| |lia].
  destruct (Z.leb e'' (emax - prec)); reflexivity.
Qed.

Lemma binary_normalize_not_nan m e s :
  not_nan (binary_normalize prec emax m e s).
Proof.
  unfold binary_normalize, binary_round.
  destruct m as [|p|p]; [exact I| |].
  - destruct (shl_align p e _) as [mz ez].
    pose proof (binary_round_aux_spec false (Zpos mz) ez loc_Exact
                  ltac:(lia)) as H.
    destruct (binary_round_aux _ _ _ _ _ _); try exact I. contradiction.
  - destruct (shl_align p e _) as [mz ez].
    pose proof (binary_round_aux_spec true (Zpos mz) ez loc_Exact
                  ltac:(lia)) as H.
    destruct (binary_round_aux _ _ _ _ _ _); try exact I. contradiction.
Qed.

Lemma SFmul_nonneg x y :
  nonneg x -> nonneg y -> nonneg (SF64mul x y).
Proof.
  unfold SF64mul, SFmul.
  destruct x as [sx|[|]| |[|] mx ex], y as [sy|[|]| |[|] my ey];
    cbn [nonneg xorb]; try tauto; intros _ _.
  pose proof (binary_round_aux_spec false (Zpos (mx * my)) (ex + ey)
                loc_Exact ltac:(lia)) as H.
  cbn [xorb].
  destruct (binary_round_aux _ _ _ _ _ _) as [s|s| |s m e];
    try contradiction; subst; exact I.
Qed.

Lemma SFmul_not_nan x y :
  finite_or_zero x -> finite_or_zero y -> not_nan (SF64mul x y).
Proof.
  unfold SF64mul, SFmul.
  destruct x as [sx|sx| |sx mx ex], y as [sy|sy| |sy my ey];
    cbn [finite_or_zero not_nan]; try tauto; intros _ _.
  pose proof (binary_round_aux_spec (xorb sx sy) (Zpos (mx * my)) (ex + ey)
                loc_Exact ltac:(lia)) as H.
  destruct (binary_round_aux _ _ _ _ _ _); try exact I. contradiction.
Qed.

Lemma SFsub_not_nan x y :
  finite_or_zero x -> finite_or_zero y -> not_nan (SF64sub x y).
Proof.
  unfold SF64sub, SFsub.
  destruct x as [[|]|sx| |sx mx ex], y as [[|]|sy| |sy my ey];
    cbn [finite_or_zero not_nan]; try tauto; intros _ _.
  apply binary_normalize_not_nan.
Qed.

Lemma div_core_nonneg mx ex my ey :
  (0 <= fst (fst (SFdiv_core_binary prec emax (Zpos mx) ex (Zpos my) ey)))%Z.
Proof.
  unfold SFdiv_core_binary. cbv zeta.
  set (s := (ex - ey - _)%Z).
  set (m' := match s with Z0 => Zpos mx | Zpos _ => Z.shiftl (Zpos mx) s
             | Zneg _ => 0%Z end).
  assert (Hm : (0 <= m')%Z).
  { unfold m'. destruct s; try lia. apply Z.shiftl_nonneg. lia. }
  pose proof (Z.div_eucl_eq m' (Zpos my) ltac:(lia)) as E.
  pose proof (Z.mod_pos_bound m' (Zpos my) ltac:(lia)) as B.
  unfold Z.modulo in B.
  destruct (Z.div_eucl m' (Zpos my)) as [q r]. cbn [fst].
  nia.
Qed.

Lemma SFdiv_nonneg x y :
  nonneg x -> unsigned y -> nonneg (SF64div x y).
Proof.
  unfold SF64div, SFdiv.
  destruct x as [sx|[|]| |[|] mx ex], y as [[|]|[|]| |[|] my ey];
    cbn [nonneg unsigned xorb]; try tauto; intros _ _;
    try (destruct sx; exact I).
  pose proof (div_core_nonneg mx ex my ey) as Hq.
  destruct (SFdiv_core_binary _ _ _ _ _ _) as [[mz ez] lz]. cbn [fst] in Hq.
  pose proof (binary_round_aux_spec false mz ez lz Hq) as H.
  destruct (binary_round_aux _ _ _ _ _ _) as [s|s| |s m e];
    try contradiction; subst; exact I.
Qed.

(** A quotient is NaN only when an operand is, or for inf/inf and 0/0. *)
Lemma SFdiv_nan x y :
  SF64div x y = S754_nan ->
  x = S754_nan \/ y = S754_nan
  \/ (exists sx sy, x = S754_infinity sx /\ y = S754_infinity sy)
  \/ (exists sx sy, x = S754_zero sx /\ y = S754_zero sy).
Proof.
  unfold SF64div, SFdiv.
  destruct x as [sx|sx| |sx mx ex], y as [sy|sy| |sy my ey];
    intros H; try discriminate; eauto 8.
  exfalso.
  pose proof (div_core_nonneg mx ex my ey) as Hq.
  destruct (SFdiv_core_binary _ _ _ _ _ _) as [[mz ez] lz]. cbn [fst] in Hq.
  pose proof (binary_round_aux_spec (xorb sx sy) mz ez lz Hq) as Hr.
  now rewrite H in Hr.
Qed.

Lemma SFdiv_by_zero x s :
  match SF64div x (S754_zero s) with
  | S754_nan | S754_infinity _ => True
  | _ => False
  end.
Proof. destruct x; exact I. Qed.

(** *** Magnitudes: what rounding cannot overflow *)

Definition not_infinity (x : spec_float) : Prop :=
  match x with S754_infinity _ => False | _ => True end.

Section Magnitude.

Variables prec emax : Z.
Hypothesis prec_pos : (0 < prec)%Z.
Hypothesis prec_lt_emax : (prec < emax)%Z.

Local Open Scope Z_scope.

Lemma digits2_pos_spec p :
  2 ^ (Zpos (digits2_pos p) - 1) <= Zpos p < 2 ^ Zpos (digits2_pos p).
Proof.
  induction p as [p IH|p IH|]; cbn [digits2_pos].
  - rewrite Pos2Z.inj_succ.
    replace (Z.succ (Zpos (digits2_pos p)) - 1)
      with (Z.succ (Zpos (digits2_pos p) - 1)) by lia.
    rewrite !Z.pow_succ_r by lia. lia.
  - rewrite Pos2Z.inj_succ.
    replace (Z.succ (Zpos (digits2_pos p)) - 1)
      with (Z.succ (Zpos (digits2_pos p) - 1)) by lia.
    rewrite !Z.pow_succ_r by lia. lia.
  - cbn. lia.
Qed.

Lemma Zdigits2_le m k :
  0 <= m -> 0 <= k -> m < 2 ^ k -> Zdigits2 m <= k.
Proof.
  intros Hm Hk H. destruct m as [|p|p]; cbn [Zdigits2]; [lia| |lia].
  destruct (digits2_pos_spec p) as [Hl _].
  destruct (Z.le_gt_cases (Zpos (digits2_pos p)) k) as [|Hgt]; [assumption|].
  exfalso.
  assert (2 ^ k <= 2 ^ (Zpos (digits2_pos p) - 1))
    by (apply Z.pow_le_mono_r; lia).
  lia.
Qed.

Lemma iter_xO_spec d m : Zpos (Pos.iter xO m d) = Zpos m * 2 ^ Zpos d.
Proof.
  revert m. induction d as [|d IH] using Pos.peano_ind; intros m.
  - cbn [Pos.iter]. lia.
  - rewrite Pos.iter_succ, Pos2Z.inj_succ, Z.pow_succ_r by lia.
    rewrite Pos2Z.inj_xO, IH. lia.
Qed.

Lemma shr_1_div mrs : 0 <= shr_m mrs -> shr_m (shr_1 mrs) = shr_m mrs / 2.
Proof.
  destruct mrs as [m r s]. cbn [shr_m shr_1]. intros H.
  destruct m as [|[p|p|]|p]; cbn [shr_m]; [reflexivity| | |reflexivity|lia].
  - apply Z.div_unique with (r := 1); lia.
  - apply Z.div_unique with (r := 0); lia.
Qed.

Lemma iter_pos_shr_div p mrs :
  0 <= shr_m mrs ->
  shr_m (iter_pos shr_1 p mrs) = shr_m mrs / 2 ^ Zpos p.
Proof.
  revert mrs. induction p as [p IH|p IH|]; intros mrs H; cbn [iter_pos].
  - assert (H1 : 0 <= shr_m (shr_1 mrs)) by now apply shr_1_nonneg.
    assert (H2 : 0 <= shr_m (iter_pos shr_1 p (shr_1 mrs))).
    { rewrite IH by assumption. apply Z.div_pos; lia. }
    rewrite IH, IH, shr_1_div by assumption.
    rewrite !Z.div_div by lia. f_equal.
    rewrite (Pos2Z.inj_xI p).
    replace (2 * Zpos p + 1) with (Z.succ (2 * Zpos p)) by lia.
    rewrite Z.pow_succ_r by lia. rewrite Z.pow_twice_r. reflexivity.
  - assert (H2 : 0 <= shr_m (iter_pos shr_1 p mrs)).
    { rewrite IH by assumption. apply Z.div_pos; lia. }
    rewrite IH, IH by assumption.
    rewrite !Z.div_div by lia. f_equal.
    rewrite (Pos2Z.inj_xO p), Z.pow_twice_r. reflexivity.
  - rewrite shr_1_div by assumption. reflexivity.
Qed.

Lemma round_nearest_even_le m l : round_nearest_even m l <= m + 1.
Proof.
  unfold round_nearest_even. destruct l as [|[ | | ]]; try lia.
  destruct (Z.even m); lia.
Qed.

Lemma round_nearest_even_ge m l : m <= round_nearest_even m l.
Proof.
  unfold round_nearest_even. destruct l as [|[ | | ]]; try lia.
  destruct (Z.even m); lia.
Qed.

(** The largest mantissa, [2^prec - 1]. *)
Definition max_mantissa : Z := 2 ^ prec - 1.

Lemma fexp_le e : e <= emax -> fexp prec emax e <= emax - prec.
Proof. unfold fexp, emin. lia. Qed.

Lemma pack_not_infinity s z e :
  e <= emax - prec ->
  not_infinity
    match z with
    | 0 => S754_zero s
    | Zpos m =>
        if e <=? emax - prec then S754_finite s m e else S754_infinity s
    | Zneg _ => S754_nan
    end.
Proof.
  intros H. apply Z.leb_le in H. rewrite H. now destruct z.
Qed.

(** Rounding a magnitude below the largest finite number does not
    overflow. *)
Lemma binary_round_aux_finite s m e :
  e <= emax - prec ->
  Zpos m < max_mantissa * 2 ^ (emax - prec - e) ->
  not_infinity (binary_round_aux prec emax s (Zpos m) e loc_Exact).
Proof.
  intros He Hm. unfold binary_round_aux, shr_fexp.
  cbn [Zdigits2 shr_record_of_loc].
  destruct (digits2_pos_spec m) as [Hd _].
  set (d := Zpos (digits2_pos m)) in *.
  assert (Hpow : max_mantissa * 2 ^ (emax - prec - e) < 2 ^ (emax - e)).
  { unfold max_mantissa.
    replace (emax - e) with (prec + (emax - prec - e)) by lia.
    rewrite Z.pow_add_r by lia.
    assert (0 < 2 ^ (emax - prec - e)) by (apply Z.pow_pos_nonneg; lia).
    nia. }
  assert (Hde : d + e <= emax).
  { destruct (Z.le_gt_cases (d + e) emax) as [|Hgt]; [assumption|].
    exfalso.
    assert (2 ^ (emax - e) <= 2 ^ (d - 1)) by (apply Z.pow_le_mono_r; lia).
    lia. }
  pose proof (fexp_le _ Hde) as Hf.
  set (f := fexp prec emax (d + e)) in *.
  assert (Hstay : not_infinity
            (let '(mrs'', e'') :=
               shr {| shr_m := Zpos m; shr_r := false; shr_s := false |} e
                 (f - e) in
             match shr_m mrs'' with
             | 0 => S754_zero s
             | Zpos m0 =>
                 if e'' <=? emax - prec then S754_finite s m0 e''
                 else S754_infinity s
             | Zneg _ => S754_nan
             end) ->
          (f - e <= 0) ->
          not_infinity
            (let '(mrs', e') :=
               shr {| shr_m := Zpos m; shr_r := false; shr_s := false |} e
                 (f - e) in
             let '(mrs'', e'') :=
               shr {| shr_m := round_nearest_even (shr_m mrs')
                                 (loc_of_shr_record mrs');
                      shr_r := false; shr_s := false |} e'
                 (fexp prec emax
                    (Zdigits2 (round_nearest_even (shr_m mrs')
                                 (loc_of_shr_record mrs')) + e') - e') in
             match shr_m mrs'' with
             | 0 => S754_zero s
             | Zpos m0 =>
                 if e'' <=? emax - prec then S754_finite s m0 e''
                 else S754_infinity s
             | Zneg _ => S754_nan
             end)).
  { intros H Hle. unfold shr at 1.
    destruct (f - e) as [|p|p] eqn:Ep; [|lia|];
      cbn [shr_m loc_of_shr_record round_nearest_even Zdigits2];
      fold d; fold f; rewrite Ep; exact H. }
  destruct (Z.le_gt_cases (f - e) 0) as [Hle|Hgt].
  { apply Hstay; [|assumption]. unfold shr.
    destruct (f - e) as [|p|p]; [|lia|]; now apply pack_not_infinity. }
  clear Hstay. unfold shr at 1.
  destruct (f - e) as [|p|p] eqn:Ep; [lia| |lia].
  set (mrs := iter_pos shr_1 p _).
  assert (Hm' : shr_m mrs = Zpos m / 2 ^ Zpos p)
    by (apply iter_pos_shr_div; cbn; lia).
  set (m'' := round_nearest_even (shr_m mrs) (loc_of_shr_record mrs)).
  assert (Hlt : Zpos m / 2 ^ Zpos p < max_mantissa * 2 ^ (emax - prec - f)).
  { apply Z.div_lt_upper_bound; [apply Z.pow_pos_nonneg; lia|].
    replace (emax - prec - e) with (Zpos p + (emax - prec - f)) in Hm by lia.
    rewrite Z.pow_add_r in Hm by lia. lia. }
  assert (H0 : 0 <= shr_m mrs)
    by (rewrite Hm'; apply Z.div_pos; [lia | apply Z.pow_pos_nonneg; lia]).
  assert (Hm''u : m'' < 2 ^ (emax - f)).
  { pose proof (round_nearest_even_le (shr_m mrs) (loc_of_shr_record mrs)).
    fold m'' in H. rewrite Hm' in H.
    unfold max_mantissa in Hlt.
    replace (emax - f) with (prec + (emax - prec - f)) by lia.
    rewrite Z.pow_add_r by lia.
    assert (0 < 2 ^ (emax - prec - f)) by (apply Z.pow_pos_nonneg; lia).
    nia. }
  assert (Hm''l : 0 <= m'').
  { pose proof (round_nearest_even_ge (shr_m mrs) (loc_of_shr_record mrs)).
    fold m'' in H. lia. }
  replace (e + Zpos p) with f by lia.
  pose proof (Zdigits2_le m'' (emax - f) Hm''l ltac:(lia) Hm''u) as Hd''.
  assert (Hf2 : fexp prec emax (Zdigits2 m'' + f) <= emax - prec)
    by (apply fexp_le; lia).
  unfold shr.
  destruct (fexp prec emax (Zdigits2 m'' + f) - f) as [|q|q] eqn:Eq;
    apply pack_not_infinity; lia.
Qed.

(** Aligning to a smaller exponent multiplies the mantissa. *)
Lemma shl_align_spec m e e' :
  e' <= e ->
  Zpos (fst (shl_align m e e')) = Zpos m * 2 ^ (e - snd (shl_align m e e'))
  /\ snd (shl_align m e e') = e'.
Proof.
  intros H. unfold shl_align.
  destruct (e' - e) as [|p|p] eqn:E; cbn [fst snd]; try lia.
  - replace e' with e by lia. rewrite Z.sub_diag. cbn. lia.
  - rewrite iter_xO_spec. replace (e - e') with (Zpos p) by lia. lia.
Qed.

Lemma shl_align_ge m e e' :
  e <= e' -> shl_align m e e' = (m, e).
Proof.
  intros H. unfold shl_align.
  destruct (e' - e) as [|p|p] eqn:E; try reflexivity. lia.
Qed.

Lemma binary_round_finite s m e :
  e <= emax - prec ->
  Zpos m < max_mantissa * 2 ^ (emax - prec - e) ->
  not_infinity (binary_round prec emax s m e).
Proof.
  intros He Hm. unfold binary_round.
  set (f := fexp prec emax (Zpos (digits2_pos m) + e)).
  destruct (Z.le_gt_cases e f) as [Hle|Hgt].
  - rewrite shl_align_ge by assumption.
    now apply binary_round_aux_finite.
  - destruct (shl_align_spec m e f ltac:(lia)) as [Hv Hf].
    destruct (shl_align m e f) as [mz ez]. cbn [fst snd] in Hv, Hf. subst ez.
    apply binary_round_aux_finite; [lia|]. rewrite Hv.
    replace (emax - prec - f) with ((emax - prec - e) + (e - f)) by lia.
    rewrite Z.pow_add_r by lia.
    assert (0 < 2 ^ (e - f)) by (apply Z.pow_pos_nonneg; lia).
    nia.
Qed.

(** A valid mantissa has at most [prec] digits and a valid exponent is
    at most [emax - prec]. *)
Lemma bounded_spec m e :
  bounded prec emax m e = true ->
  Zpos m <= max_mantissa /\ e <= emax - prec.
Proof.
  unfold bounded, canonical_mantissa, fexp. intros H.
  apply andb_prop in H. destruct H as [H1 H2].
  apply Z.eqb_eq in H1. apply Z.leb_le in H2. split; [|assumption].
  destruct (digits2_pos_spec m) as [_ Hu].
  assert (2 ^ Zpos (digits2_pos m) <= 2 ^ prec)
    by (apply Z.pow_le_mono_r; lia).
  unfold max_mantissa. lia.
Qed.

Lemma scale_le a M P Q :
  0 <= a <= M -> 0 <= P -> 1 <= Q -> a * P <= M * (Q * P).
Proof.
  intros Ha HP HQ.
  apply Z.le_trans with (M * P).
  - apply Z.mul_le_mono_nonneg_r; lia.
  - apply Z.mul_le_mono_nonneg_l; [lia|].
    replace P with (1 * P) at 1 by lia.
    apply Z.mul_le_mono_nonneg_r; lia.
Qed.

(** The difference of two finite numbers of the same sign is finite. *)
Lemma SFsub_finite mx ex my ey s :
  bounded prec emax mx ex = true ->
  bounded prec emax my ey = true ->
  not_infinity
    (SFsub prec emax (S754_finite s mx ex) (S754_finite s my ey)).
Proof.
  intros Hx Hy. apply bounded_spec in Hx, Hy.
  destruct Hx as [Hmx Hex], Hy as [Hmy Hey].
  unfold SFsub. set (ez := Z.min ex ey).
  destruct (shl_align_spec mx ex ez ltac:(lia)) as [Vx Ex].
  destruct (shl_align_spec my ey ez ltac:(lia)) as [Vy Ey].
  rewrite Ex in Vx. rewrite Ey in Vy. rewrite Vx, Vy.
  assert (Bx : Zpos mx * 2 ^ (ex - ez)
               <= max_mantissa * 2 ^ (emax - prec - ez)).
  { replace (emax - prec - ez) with ((emax - prec - ex) + (ex - ez)) by lia.
    rewrite Z.pow_add_r by lia.
    assert (0 < 2 ^ (ex - ez)) by (apply Z.pow_pos_nonneg; lia).
    assert (1 <= 2 ^ (emax - prec - ex))
      by (pose proof (Z.pow_pos_nonneg 2 (emax - prec - ex)); lia).
    apply scale_le; lia. }
  assert (By : Zpos my * 2 ^ (ey - ez)
               <= max_mantissa * 2 ^ (emax - prec - ez)).
  { replace (emax - prec - ez) with ((emax - prec - ey) + (ey - ez)) by lia.
    rewrite Z.pow_add_r by lia.
    assert (0 < 2 ^ (ey - ez)) by (apply Z.pow_pos_nonneg; lia).
    assert (1 <= 2 ^ (emax - prec - ey))
      by (pose proof (Z.pow_pos_nonneg 2 (emax - prec - ey)); lia).
    apply scale_le; lia. }
  assert (Px : 0 < Zpos mx * 2 ^ (ex - ez))
    by (pose proof (Z.pow_pos_nonneg 2 (ex - ez)); nia).
  assert (Py : 0 < Zpos my * 2 ^ (ey - ez))
    by (pose proof (Z.pow_pos_nonneg 2 (ey - ez)); nia).
  set (a := Zpos mx * 2 ^ (ex - ez)) in *.
  set (b := Zpos my * 2 ^ (ey - ez)) in *.
  unfold binary_normalize.
  destruct s; cbn [cond_Zopp];
    match goal with
    | |- context [match ?z with _ => _ end] => destruct z as [|p|p] eqn:Ez
    end;
    try exact I; apply binary_round_finite; lia.
Qed.

End Magnitude.

(** The difference of two doubles that are finite and not negative is
    finite: it is no larger than the larger of the two. *)
Lemma SFsub_finite_or_zero x y :
  valid_binary x = true -> valid_binary y = true ->
  nonneg x -> nonneg y -> finite_or_zero x -> finite_or_zero y ->
  finite_or_zero (SF64sub x y).
Proof.
  intros Vx Vy Nx Ny Fx Fy.
  pose proof (SFsub_not_nan x y Fx Fy) as Hn.
  assert (Hi : not_infinity (SF64sub x y)).
  { destruct x as [[|]| | |[|] mx ex]; try contradiction;
      destruct y as [[|]| | |[|] my ey]; try contradiction; try exact I.
    exact (SFsub_finite prec emax eq_refl eq_refl mx ex my ey false Vx Vy). }
  destruct (SF64sub x y); try exact I; contradiction.
Qed.

Lemma SFabs_finite_or_zero x : finite_or_zero x -> finite_or_zero (SFabs x).
Proof. destruct x; intros H; exact H. Qed.

Lemma SFabs_unsigned x : unsigned (SFabs x).
Proof. destruct x; exact I. Qed.

Lemma SFcompare_refl x : x <> S754_nan -> SFcompare x x = Some Eq.
Proof.
  destruct x as [s|[|]| |[|] m e]; cbn; intros H; try reflexivity;
    try congruence;
    now rewrite Z.compare_refl, Pos.compare_cont_refl.
Qed.

Lemma trunc_nonneg x n : nonneg x -> trunc x = inr n -> (0 <= n)%Z.
Proof.
  destruct x as [s|[|]| |[|] m e]; cbn [nonneg trunc]; try tauto;
    intros _ H; try discriminate; injection H as <-; [lia|].
  apply Z.shiftl_nonneg. lia.
Qed.

Lemma trunc_not_zde x : trunc x <> inl ZeroDivisionError.
Proof. destruct x; cbn; discriminate. Qed.

(** [int] of a number that is not NaN converts it, or raises
    OverflowError. *)
Lemma trunc_not_nan x :
  not_nan x -> (exists n, trunc x = inr n) \/ trunc x = inl OverflowError.
Proof.
  destruct x; cbn [not_nan trunc]; intros H; try contradiction;
    try (left; eexists; reflexivity); right; reflexivity.
Qed.

Lemma trunc_nan_or_infinity x n :
  match x with S754_nan | S754_infinity _ => True | _ => False end ->
  trunc x <> inr n.
Proof. destruct x; cbn; intros H; try contradiction; discriminate. Qed.

Lemma Prim2SF_zero : Prim2SF zero = S754_zero false.
Proof. reflexivity. Qed.

Lemma Prim2SF_infinity : Prim2SF infinity = S754_infinity false.
Proof. reflexivity. Qed.

(** [0 <= x]: zero of either sign, a positive number or plus infinity. *)
Lemma leb_zero x :
  (zero <=? x)%float = true -> nonneg (Prim2SF x) /\ not_nan (Prim2SF x).
Proof.
  rewrite leb_spec, Prim2SF_zero. unfold SFleb, SFcompare.
  destruct (Prim2SF x) as [s|[|]| |[|] m e]; cbn; intros H;
    try discriminate; split; exact I.
Qed.

(** [0 < x]: a positive number or plus infinity. *)
Lemma ltb_zero x :
  (zero <? x)%float = true ->
  unsigned (Prim2SF x) /\ not_nan (Prim2SF x)
  /\ (forall s, Prim2SF x <> S754_zero s).
Proof.
  rewrite ltb_spec, Prim2SF_zero. unfold SFltb, SFcompare.
  destruct (Prim2SF x) as [s|[|]| |[|] m e]; cbn; intros H;
    try discriminate; repeat split; try exact I; intros; discriminate.
Qed.

(** [x < inf]: not plus infinity. *)
Lemma ltb_infinity x :
  (x <? infinity)%float = true -> Prim2SF x <> S754_infinity false.
Proof.
  rewrite ltb_spec, Prim2SF_infinity. unfold SFltb, SFcompare.
  destruct (Prim2SF x) as [s|[|]| |[|] m e]; cbn; intros H;
    try discriminate.
Qed.

Lemma eqb_zero x :
  (x =? zero)%float = true <-> exists s, Prim2SF x = S754_zero s.
Proof.
  rewrite eqb_spec, Prim2SF_zero. unfold SFeqb, SFcompare.
  destruct (Prim2SF x) as [s|[|]| |[|] m e]; cbn; split; intros H;
    try discriminate; try (destruct H; discriminate); eauto.
Qed.

Lemma is_nan_spec x : is_nan x = true -> Prim2SF x = S754_nan.
Proof.
  unfold is_nan. rewrite eqb_spec. unfold SFeqb. intros H.
  destruct (Prim2SF x) eqn:E; try reflexivity;
    rewrite SFcompare_refl in H by discriminate; discriminate.
Qed.

Lemma value_binop op a b : value (binop op a b) = op (value a) (value b).
Proof. unfold binop. destruct (is_float64 a || is_float64 b); reflexivity. Qed.

Lemma value_abs a : value (PyFloat.abs a) = PrimFloat.abs (value a).
Proof. destruct a; reflexivity. Qed.

Lemma is_float64_binop op a b :
  is_float64 (binop op a b) = is_float64 a || is_float64 b.
Proof. unfold binop. destruct (is_float64 a || is_float64 b); reflexivity. Qed.

End Binary64.

(** *** The parts of [calculate_position_size] *)

(** [risk_per_share = abs(entry_price - stop_price)] *)
Definition risk_per_share (entry_price stop_price : PyFloat.number) :
    PyFloat.number :=
  PyFloat.abs (PyFloat.sub entry_price stop_price).

(** [risk_dollars / risk_per_share], the double [int] truncates to
    [shares]. *)
Definition shares_quotient (risk_pct : PrimFloat.float)
    (entry_price stop_price account_equity : PyFloat.number) : PrimFloat.float :=
  PrimFloat.div
    (PyFloat.value (PyFloat.mul account_equity (PyFloat.Float risk_pct)))
    (PyFloat.value (risk_per_share entry_price stop_price)).

(** [(account_equity * max_position_pct) / entry_price], the double
    [int] truncates to [max_shares]. *)
Definition max_shares_quotient (max_position_pct : PrimFloat.float)
    (entry_price account_equity : PyFloat.number) : PrimFloat.float :=
  PrimFloat.div
    (PyFloat.value
       (PyFloat.mul account_equity (PyFloat.Float max_position_pct)))
    (PyFloat.value entry_price).

(** [0 <= x < inf] and [0 < x < inf], as the code would test them. *)
Definition finite_nonneg (x : PrimFloat.float) : Prop :=
  PrimFloat.leb PrimFloat.zero x = true
  /\ PrimFloat.ltb x PrimFloat.infinity = true.

Definition finite_pos (x : PrimFloat.float) : Prop :=
  PrimFloat.ltb PrimFloat.zero x = true
  /\ PrimFloat.ltb x PrimFloat.infinity = true.

(** The real number a finite double stands for, [(-1)^s * m * 2^e]. *)
Definition exact_value (x : PrimFloat.float) : Q :=
  match FloatOps.Prim2SF x with
  | SpecFloat.S754_finite s m e =>
      inject_Z (if s then Z.neg m else Z.pos m) * Qpower 2 e
  | _ => 0
  end.

(** The share count of the same formula on real numbers:
    [min(floor(equity * risk_pct / |entry - stop|),
         floor(equity * max_position_pct / entry))]. *)
Definition exact_shares (risk_pct max_position_pct entry stop equity : Q) : Z :=
  Z.min (Qfloor ((equity * risk_pct) / Qabs (entry - stop)))
        (Qfloor ((equity * max_position_pct) / entry)).

Section PositionSizing.

Import PrimFloat FloatOps SpecFloat FloatAxioms PyFloat Binary64 StrategyBase.

(** The function, with its two conversions and its one division by a
    possible zero in the order they happen. *)
Lemma calculate_position_size_eq risk_pct max_position_pct
    entry_price stop_price account_equity :
  calculate_position_size risk_pct max_position_pct
    entry_price stop_price account_equity =
  if eq_zero (risk_per_share entry_price stop_price) then inr 0%Z
  else
    shares <- trunc (Prim2SF (shares_quotient risk_pct entry_price stop_price
                                account_equity)) ;;
    if negb (is_float64 account_equity || is_float64 entry_price)
       && eq_zero entry_price
    then inl ZeroDivisionError
    else
      max_shares <- trunc (Prim2SF (max_shares_quotient max_position_pct
                                      entry_price account_equity)) ;;
      inr (Z.min shares max_shares).
Proof.
  unfold calculate_position_size. fold (risk_per_share entry_price stop_price).
  destruct (eq_zero (risk_per_share entry_price stop_price)) eqn:E;
    [reflexivity|].
  unfold truediv at 1. rewrite E, andb_false_r. cbn [bind ret].
  unfold int at 1. rewrite value_binop.
  change (value (PyFloat.mul account_equity (Float risk_pct)) /
          value (risk_per_share entry_price stop_price))%float
    with (shares_quotient risk_pct entry_price stop_price account_equity).
  destruct (trunc (Prim2SF (shares_quotient _ _ _ _))) as [e|shares];
    [reflexivity|]. cbn [bind].
  unfold truediv. unfold PyFloat.mul at 1. rewrite is_float64_binop.
  cbn [is_float64]. rewrite orb_false_r.
  destruct (negb (is_float64 account_equity || is_float64 entry_price)
            && eq_zero entry_price); [reflexivity|].
  cbn [bind ret]. unfold int. rewrite value_binop. reflexivity.
Qed.

Lemma finite_nonneg_spec x :
  finite_nonneg x ->
  nonneg (Prim2SF x) /\ finite_or_zero (Prim2SF x).
Proof.
  intros [H0 Hi]. destruct (leb_zero x H0) as [Hn Hnn].
  pose proof (ltb_infinity x Hi) as Hf.
  split; [assumption|].
  destruct (Prim2SF x) as [s|[|]| |s m e]; cbn in *; try tauto.
Qed.

Lemma finite_pos_spec x :
  finite_pos x -> exists m e, Prim2SF x = S754_finite false m e.
Proof.
  intros [H0 Hi]. destruct (ltb_zero x H0) as (Hu & Hnn & Hz).
  pose proof (ltb_infinity x Hi) as Hf.
  destruct (Prim2SF x) as [s|[|]| |[|] m e]; cbn in *; try tauto.
  - now destruct (Hz s).
  - eauto.
Qed.

(** C3 (amended).  For finite doubles [entry_price > 0],
    [stop_price >= 0], [account_equity >= 0] (and the two percentages
    not negative), [calculate_position_size] returns 0 when the
    per-share risk [abs(entry_price - stop_price)] is zero.  Otherwise
    both divisions are carried out - there is no ZeroDivisionError - and
    the result is what [int] makes of the two double-precision
    quotients: the smaller of their truncations, or the error [int]
    raises on a quotient that overflowed.  A share count that is
    returned is not negative and does not exceed the cap, the truncated
    [(account_equity * max_position_pct) / entry_price].  The only
    error the function can raise is the OverflowError of [int] on an
    infinite quotient: neither quotient is NaN. *)
Theorem calculate_position_size_spec risk_pct max_position_pct
    entry_price stop_price account_equity :
  finite_nonneg risk_pct -> finite_nonneg max_position_pct ->
  finite_pos (value entry_price) -> finite_nonneg (value stop_price) ->
  finite_nonneg (value account_equity) ->
  let result := calculate_position_size risk_pct max_position_pct
                  entry_price stop_price account_equity in
  let q1 := shares_quotient risk_pct entry_price stop_price account_equity in
  let q2 := max_shares_quotient max_position_pct entry_price account_equity in
  (eq_zero (risk_per_share entry_price stop_price) = true ->
     result = inr 0%Z)
  /\ (eq_zero (risk_per_share entry_price stop_price) = false ->
      result = (shares <- trunc (Prim2SF q1) ;;
                max_shares <- trunc (Prim2SF q2) ;;
                inr (Z.min shares max_shares)))
  /\ (forall n, result = inr n ->
        (0 <= n)%Z
        /\ (eq_zero (risk_per_share entry_price stop_price) = false ->
            exists cap, trunc (Prim2SF q2) = inr cap /\ (n <= cap)%Z))
  /\ result <> inl ZeroDivisionError
  /\ ((exists n, result = inr n) \/ result = inl OverflowError).
Proof.
  intros Hrp Hmp He Hs Ha. cbv zeta.
  rewrite calculate_position_size_eq.
  destruct (finite_nonneg_spec _ Hrp) as [Nrp Frp].
  destruct (finite_nonneg_spec _ Hmp) as [Nmp Fmp].
  destruct (finite_nonneg_spec _ Hs) as [Ns Fs].
  destruct (finite_nonneg_spec _ Ha) as [Na Fa].
  destruct (finite_pos_spec _ He) as (me & ee & Ee).
  assert (Hez : eq_zero entry_price = false).
  { unfold eq_zero. destruct (value entry_price =? zero)%float eqn:E;
      [|reflexivity].
    apply eqb_zero in E. destruct E as [s E]. congruence. }
  rewrite Hez, andb_false_r.
  assert (Nq2 : nonneg (Prim2SF (max_shares_quotient max_position_pct
                                   entry_price account_equity))
                /\ not_nan (Prim2SF (max_shares_quotient max_position_pct
                                       entry_price account_equity))).
  { unfold max_shares_quotient, PyFloat.mul.
    rewrite value_binop. cbn [value].
    rewrite div_spec, mul_spec, Ee.
    pose proof (SFmul_nonneg _ _ Na Nmp) as Nm.
    pose proof (SFmul_not_nan _ _ Fa Fmp) as Fm.
    split.
    - apply SFdiv_nonneg; [assumption | exact I].
    - destruct (SF64div _ _) eqn:E; try exact I.
      apply SFdiv_nan in E.
      destruct E as [E|[E|[(sx & sy & E1 & E2)|(sx & sy & E1 & E2)]]];
        try discriminate.
      rewrite E in Fm. exact Fm. }
  destruct Nq2 as [Nq2 Fq2].
  assert (Nq1 : nonneg (Prim2SF (shares_quotient risk_pct entry_price
                                   stop_price account_equity))).
  { unfold shares_quotient, risk_per_share, PyFloat.mul, PyFloat.sub.
    rewrite value_abs, !value_binop. cbn [value].
    rewrite div_spec, mul_spec, abs_spec.
    apply SFdiv_nonneg; [now apply SFmul_nonneg | apply SFabs_unsigned]. }
  split; [|split; [|split; [|split]]].
  - intros ->. reflexivity.
  - intros ->. reflexivity.
  - intros n.
    destruct (eq_zero (risk_per_share entry_price stop_price)) eqn:Er.
    + intros [= <-]. split; [lia | discriminate].
    + destruct (trunc (Prim2SF (shares_quotient _ _ _ _))) as [e|s] eqn:E1;
        [discriminate|]. cbn [bind].
      destruct (trunc (Prim2SF (max_shares_quotient _ _ _))) as [e|c] eqn:E2;
        [discriminate|]. cbn [bind].
      intros [= <-].
      pose proof (trunc_nonneg _ _ Nq1 E1).
      pose proof (trunc_nonneg _ _ Nq2 E2).
      split; [lia|]. intros _. exists c. split; [reflexivity | lia].
  - destruct (eq_zero (risk_per_share entry_price stop_price));
      [discriminate|].
    destruct (trunc (Prim2SF (shares_quotient _ _ _ _))) as [e|s] eqn:E1.
    { cbn [bind]. intros [= ->]. now apply trunc_not_zde in E1. }
    cbn [bind].
    destruct (trunc (Prim2SF (max_shares_quotient _ _ _))) as [e|c] eqn:E2.
    { cbn [bind]. intros [= ->]. now apply trunc_not_zde in E2. }
    discriminate.
  - destruct (eq_zero (risk_per_share entry_price stop_price)) eqn:Er;
      [left; eexists; reflexivity|].
    assert (Fr : finite_or_zero
                   (Prim2SF (value (risk_per_share entry_price stop_price)))).
    { unfold risk_per_share, PyFloat.sub.
      rewrite value_abs, value_binop, abs_spec, sub_spec.
      apply SFabs_finite_or_zero, SFsub_finite_or_zero;
        try apply Prim2SF_valid; try assumption; rewrite Ee; exact I. }
    assert (Fq1 : not_nan (Prim2SF (shares_quotient risk_pct entry_price
                                      stop_price account_equity))).
    { unfold shares_quotient. rewrite div_spec.
      unfold PyFloat.mul at 1. rewrite value_binop. cbn [value].
      rewrite mul_spec.
      pose proof (SFmul_not_nan _ _ Fa Frp) as Fm.
      destruct (SF64div _ _) eqn:E; try exact I.
      apply SFdiv_nan in E.
      destruct E as [E|[E|[(sx & sy & E1 & E2)|(sx & sy & E1 & E2)]]].
      - rewrite E in Fm. contradiction.
      - rewrite E in Fr. contradiction.
      - rewrite E2 in Fr. contradiction.
      - exfalso.
        assert (Hz : eq_zero (risk_per_share entry_price stop_price) = true)
          by (apply eqb_zero; eauto).
        congruence. }
    destruct (trunc_not_nan _ Fq1) as [[shares E1]|E1]; rewrite E1;
      cbn [bind]; [|right; reflexivity].
    destruct (trunc_not_nan _ Fq2) as [[cap E2]|E2]; rewrite E2;
      cbn [bind]; [left; eexists; reflexivity | right; reflexivity].
Qed.

End PositionSizing.

Set Warnings "-inexact-float".

Section PositionSizingRuns.

Import PrimFloat.

(** A run of C3: 1%% risk and a 2%% cap on 100000 of equity, entry 100,
    stop 99: the risk allows 1000 shares, the cap 20. *)
Lemma calculate_position_size_spec_witness :
  StrategyBase.calculate_position_size 0.01%float 0.02%float
    (PyFloat.Float 100%float) (PyFloat.Float 99%float)
    (PyFloat.Float 100000%float) = inr 20%Z
  /\ (0 <= 20)%Z.
Proof.
  assert (E : StrategyBase.calculate_position_size 0.01%float 0.02%float
                (PyFloat.Float 100%float) (PyFloat.Float 99%float)
                (PyFloat.Float 100000%float) = inr 20%Z)
    by (vm_compute; reflexivity).
  split; [exact E|].
  refine (proj1 (proj1 (proj2 (proj2
    (calculate_position_size_spec 0.01%float 0.02%float
       (PyFloat.Float 100%float) (PyFloat.Float 99%float)
       (PyFloat.Float 100000%float) _ _ _ _ _))) 20%Z E));
    split; vm_compute; reflexivity.
Defined.

(** Inside the domain [entry_price > 0], [stop_price >= 0],
    [account_equity >= 0] the function can raise: with a stop 1e-8
    below the entry and 1e308 of equity the first quotient overflows
    and [int] raises OverflowError.  And where it returns, the count is
    that of the rounded quotient, not of the exact one: at entry 54.68,
    stop 119.08, equity 547400 the exact [5474 / 64.4] is 85, on the
    decimal inputs as on the doubles nearest to them, the double
    quotient is 84.99999999999999 and the function returns 84. *)
Lemma position_size_overflows_and_rounds :
  (finite_pos 100%float /\ finite_nonneg 99.99999999%float
   /\ finite_nonneg 1e308%float
   /\ StrategyBase.calculate_position_size 0.01%float 0.02%float
        (PyFloat.Float 100%float) (PyFloat.Float 99.99999999%float)
        (PyFloat.Float 1e308%float) = inl OverflowError)
  /\ (finite_pos 54.68%float /\ finite_nonneg 119.08%float
      /\ finite_nonneg 547400%float
      /\ StrategyBase.calculate_position_size 0.01%float 0.02%float
           (PyFloat.Float 54.68%float) (PyFloat.Float 119.08%float)
           (PyFloat.Float 547400%float) = inr 84%Z
      /\ exact_shares (1 # 100) (2 # 100) (5468 # 100) (11908 # 100) 547400
         = 85%Z
      /\ exact_shares (exact_value 0.01%float) (exact_value 0.02%float)
           (exact_value 54.68%float) (exact_value 119.08%float)
           (exact_value 547400%float) = 85%Z).
Proof.
  repeat split; vm_compute; reflexivity.
Qed.

End PositionSizingRuns.

(* ================================================================== *)
(** ** Frames and failures                                             *)
(* ================================================================== *)

Lemma bind_inv {A B} (c : Err A) (k : A -> Err B) y :
  bind c k = inr y -> exists x, c = inr x /\ k x = inr y.
Proof. destruct c as [e|x]; simpl; [discriminate | eauto]. Qed.

Lemma getitem_Q_eq df c :
  getitem_Q df c =
    if columns df c then inr (map (cell c) (rows df))
    else inl (KeyError (column_name c)).
Proof. reflexivity. Qed.

Lemma getitem_eq df c :
  getitem df c =
    if columns df c then inr (col_of c df)
    else inl (KeyError (column_name c)).
Proof.
  unfold getitem, getitem_Q, col_of.
  destruct (columns df c); simpl; [|reflexivity].
  now rewrite map_map.
Qed.

Lemma getitem_inv df c xs :
  getitem df c = inr xs -> columns df c = true /\ xs = col_of c df.
Proof.
  rewrite getitem_eq. destruct (columns df c); [|discriminate].
  intros [= <-]. auto.
Qed.

Lemma getitem_Q_inv df c xs :
  getitem_Q df c = inr xs ->
  columns df c = true /\ xs = map (cell c) (rows df).
Proof.
  rewrite getitem_Q_eq. destruct (columns df c); [|discriminate].
  intros [= <-]. auto.
Qed.

Lemma ewm_mean_inv span xs ys :
  ewm_mean span xs = inr ys -> (1 <= span)%nat /\ ys = ewm_Q span xs.
Proof.
  unfold ewm_mean. destruct (Nat.ltb_spec span 1); [discriminate|].
  intros [= <-]. auto.
Qed.

Lemma ewm_mean_ok span xs :
  (1 <= span)%nat -> ewm_mean span xs = inr (ewm_Q span xs).
Proof.
  intros H. unfold ewm_mean. destruct (Nat.ltb_spec span 1); [lia|reflexivity].
Qed.

Lemma length_ewm_from alpha prev xs :
  length (ewm_from alpha prev xs) = length xs.
Proof.
  revert prev. induction xs as [|x r IH]; intros prev; simpl; auto.
Qed.

Lemma length_ewm_Q span xs : length (ewm_Q span xs) = length xs.
Proof.
  destruct xs as [|x r]; simpl; [reflexivity|].
  now rewrite length_ewm_from.
Qed.

Lemma length_col_of c df : length (col_of c df) = length (rows df).
Proof. unfold col_of. apply length_map. Qed.

#[global] Hint Rewrite length_ewm_Q length_col_of : len.

Lemma iloc_col_of c df t :
  (t < length (rows df))%nat -> iloc (col_of c df) t = Fin (cell c (row df t)).
Proof. intros H. unfold col_of, row. now apply iloc_map_Fin. Qed.

(** The true range averaged by [_calculate_atr]. *)
Definition true_range (df : DataFrame) : list fval :=
  row_max3
    (zip_with fsub (col_of ColHigh df) (col_of ColLow df))
    (map fabs (zip_with fsub (col_of ColHigh df) (shift 1 (col_of ColClose df))))
    (map fabs (zip_with fsub (col_of ColLow df) (shift 1 (col_of ColClose df)))).

Lemma calculate_atr_eq df period :
  StrategyBase._calculate_atr df period =
    if columns df ColHigh then
      if columns df ColLow then
        if columns df ColClose then inr (rolling_mean period (true_range df))
        else inl (KeyError "close")
      else inl (KeyError "low")
    else inl (KeyError "high").
Proof.
  unfold StrategyBase._calculate_atr. rewrite !getitem_eq.
  destruct (columns df ColHigh); [|reflexivity].
  destruct (columns df ColLow); [|reflexivity].
  destruct (columns df ColClose); reflexivity.
Qed.

(** Unfolds one monadic step of a successful run. *)
Ltac err_step H :=
  let x := fresh "x" in
  let Hx := fresh "Hx" in
  apply bind_inv in H; destruct H as (x & Hx & H).

Ltac err_inv H :=
  repeat (err_step H);
  try (injection H as H).

(* ================================================================== *)
(** ** The high-tight-flag variant                                     *)
(* ================================================================== *)

Module HTFFacts.
Import QullamaggieHTFStrategy.

(** The indicator columns on a frame that has the columns read. *)
Definition indicators_of (self : t) (df : DataFrame) : Indicators :=
  let close := col_of ColClose df in
  let volume := col_of ColVolume df in
  {| ema_10 := map Fin (ewm_Q ema_10_period (map (cell ColClose) (rows df)));
     sma_20 := rolling_mean sma_20_period close;
     sma_50 := rolling_mean ma_50_period close;
     avg_volume := rolling_mean (volume_lookback self) volume;
     volume_ratio :=
       zip_with fdiv volume (rolling_mean (volume_lookback self) volume);
     dollar_volume := zip_with fmul close volume;
     avg_dollar_volume :=
       rolling_mean (volume_lookback self) (zip_with fmul close volume);
     high_20 := rolling_max 20 (col_of ColHigh df);
     low_20 := rolling_min 20 (col_of ColLow df);
     pole_move :=
       map (fun r => fsub r (Fin 1))
           (zip_with fdiv close (shift (pole_lookback self) close)) |}.

Definition signals_of (self : t) (df : DataFrame) : Signals :=
  let i := indicators_of self df in
  let n := length (rows df) in
  let m := htf_signal self (col_of ColClose df) (col_of ColHigh df) i in
  {| ind := i;
     signal := loc_fill 0%Z m 1%Z (repeat 0%Z n);
     entry_price := loc_set NaN m (col_of ColHigh df) (repeat NaN n);
     stop_price := loc_set NaN m (col_of ColLow df) (repeat NaN n);
     reason := loc_fill EmptyString m
                 "HTF breakout: strong leader, pole+flag, volume"%string
                 (repeat EmptyString n) |}.

Lemma htf_calculate_indicators_eq self df :
  calculate_indicators self df =
    if columns df ColClose then
      if columns df ColVolume then
        if columns df ColHigh then
          if columns df ColLow then inr (indicators_of self df)
          else inl (KeyError "low")
        else inl (KeyError "high")
      else inl (KeyError "volume")
    else inl (KeyError "close").
Proof.
  unfold calculate_indicators. rewrite !getitem_eq, getitem_Q_eq.
  destruct (columns df ColClose); [|reflexivity]. simpl.
  destruct (columns df ColVolume); [|reflexivity]. simpl.
  destruct (columns df ColHigh); [|reflexivity]. simpl.
  destruct (columns df ColLow); reflexivity.
Qed.

Lemma htf_generate_signals_eq self df :
  generate_signals self df =
    if columns df ColClose then
      if columns df ColVolume then
        if columns df ColHigh then
          if columns df ColLow then inr (signals_of self df)
          else inl (KeyError "low")
        else inl (KeyError "high")
      else inl (KeyError "volume")
    else inl (KeyError "close").
Proof.
  unfold generate_signals. rewrite htf_calculate_indicators_eq, !getitem_eq.
  destruct (columns df ColClose); [|reflexivity].
  destruct (columns df ColVolume); [|reflexivity].
  destruct (columns df ColHigh); [|reflexivity].
  destruct (columns df ColLow); reflexivity.
Qed.

Lemma htf_generate_signals_inv self df sf :
  generate_signals self df = inr sf ->
  sf = signals_of self df /\
  calculate_indicators self df = inr (indicators_of self df).
Proof.
  rewrite htf_generate_signals_eq, htf_calculate_indicators_eq.
  destruct (columns df ColClose); [|discriminate].
  destruct (columns df ColVolume); [|discriminate].
  destruct (columns df ColHigh); [|discriminate].
  destruct (columns df ColLow); [|discriminate].
  intros [= <-]. auto.
Qed.

(** The mask of [generate_signals], read on one row. *)
Lemma mloc_htf_signal self df t :
  (t < length (rows df))%nat ->
  let i := indicators_of self df in
  let b := row df t in
  mloc (htf_signal self (col_of ColClose df) (col_of ColHigh df) i) t =
    fge (iloc (avg_dollar_volume i) t) (Fin (min_dollar_volume self))
    && fgt (Fin (close b)) (iloc (sma_50 i) t)
    && fge (iloc (pole_move i) t) (Fin (min_pole_move self))
    && fge (Fin (close b)) (fmul (iloc (high_20 i) t) (Fin (90 # 100)))
    && (fge (Fin (close b)) (iloc (ema_10 i) t)
        && fge (Fin (close b)) (iloc (sma_20 i) t))
    && fgt (Fin (high b)) (iloc (shift 1 (high_20 i)) t)
    && fge (iloc (volume_ratio i) t) (Fin (volume_breakout_multiplier self)).
Proof.
  intros Ht i b. subst i b.
  unfold htf_signal, liquidity_ok, above_50ma, strong_pole, near_highs, tight,
    breakout, volume_confirmation, ge_scalar, indicators_of.
  cbn [ema_10 sma_20 sma_50 avg_volume volume_ratio dollar_volume
       avg_dollar_volume high_20 low_20 pole_move].
  rewrite !mloc_mask_and by (autorewrite with len; lia).
  rewrite !mloc_compare by (autorewrite with len; lia).
  rewrite !mloc_map by (autorewrite with len; lia).
  rewrite (iloc_map (fun h => fmul h (Fin (90 # 100))))
    by (autorewrite with len; lia).
  rewrite !iloc_col_of by assumption.
  reflexivity.
Qed.

Lemma htf_signal_at self df t :
  (t < length (rows df))%nat ->
  zloc (signal (signals_of self df)) t =
    if mloc (htf_signal self (col_of ColClose df) (col_of ColHigh df)
               (indicators_of self df)) t
    then 1%Z else 0%Z.
Proof.
  intros Ht. unfold zloc, signals_of; cbn [signal].
  rewrite nth_loc_fill by (autorewrite with len; lia).
  now rewrite nth_repeat_same.
Qed.

Lemma htf_entry_at self df t :
  (t < length (rows df))%nat ->
  iloc (entry_price (signals_of self df)) t =
    if mloc (htf_signal self (col_of ColClose df) (col_of ColHigh df)
               (indicators_of self df)) t
    then Fin (high (row df t)) else NaN.
Proof.
  intros Ht. unfold iloc, signals_of; cbn [entry_price].
  rewrite nth_loc_set by (autorewrite with len; lia).
  rewrite nth_repeat_same.
  change (nth t (col_of ColHigh df) NaN) with (iloc (col_of ColHigh df) t).
  now rewrite iloc_col_of.
Qed.

Lemma htf_stop_at self df t :
  (t < length (rows df))%nat ->
  iloc (stop_price (signals_of self df)) t =
    if mloc (htf_signal self (col_of ColClose df) (col_of ColHigh df)
               (indicators_of self df)) t
    then Fin (low (row df t)) else NaN.
Proof.
  intros Ht. unfold iloc, signals_of; cbn [stop_price].
  rewrite nth_loc_set by (autorewrite with len; lia).
  rewrite nth_repeat_same.
  change (nth t (col_of ColLow df) NaN) with (iloc (col_of ColLow df) t).
  now rewrite iloc_col_of.
Qed.

End HTFFacts.

Lemma last_index_lt df : empty df = false -> (last_index df < length (rows df))%nat.
Proof.
  unfold empty, last_index. destruct (rows df); [discriminate|].
  simpl. lia.
Qed.

Module HTFRecord.
Import QullamaggieHTFStrategy HTFFacts.

(** A record is returned exactly on a non-empty frame whose final row is
    marked long; its fields are cells of that row. *)
Lemma htf_check_current_signal_inv self df r :
  check_current_signal self df = inr (Some r) ->
  let t := last_index df in
  let sf := signals_of self df in
  generate_signals self df = inr sf /\
  (t < length (rows df))%nat /\
  zloc (signal sf) t = 1%Z /\
  r_entry_price r = iloc (entry_price sf) t /\
  r_stop_price r = iloc (stop_price sf) t /\
  risk_per_share r = fsub (iloc (entry_price sf) t) (iloc (stop_price sf) t) /\
  r_volume_ratio r = iloc (volume_ratio (ind sf)) t /\
  r_signal r = "LONG"%string.
Proof.
  unfold check_current_signal. intros H.
  apply bind_inv in H. destruct H as (sf & Hsf & H).
  pose proof (htf_generate_signals_inv _ _ _ Hsf) as [-> _].
  destruct (empty df) eqn:Hemp; [discriminate|].
  destruct (zloc (signal (signals_of self df)) (last_index df) =? 1)%Z eqn:Hs;
    [|discriminate].
  injection H as <-. cbn [r_entry_price r_stop_price risk_per_share
                          r_volume_ratio r_signal].
  apply Z.eqb_eq in Hs.
  repeat split; auto using last_index_lt.
Qed.

End HTFRecord.

(** C10.  Whenever the high-tight-flag variant marks a bar long, the
    entry price written on that row is the bar's own high and the stop
    price its own low (not the close); the record returned for the final
    row therefore carries risk-per-share [high - low], the range of the
    breakout bar, which is not negative when the bar has
    [low <= high]. *)
Theorem htf_entry_high_stop_low self df sf :
  QullamaggieHTFStrategy.generate_signals self df = inr sf ->
  (forall t, (t < length (rows df))%nat ->
     zloc (QullamaggieHTFStrategy.signal sf) t = 1%Z ->
     iloc (QullamaggieHTFStrategy.entry_price sf) t = Fin (high (row df t)) /\
     iloc (QullamaggieHTFStrategy.stop_price sf) t = Fin (low (row df t)))
  /\ (forall r,
     QullamaggieHTFStrategy.check_current_signal self df = inr (Some r) ->
     let b := row df (last_index df) in
     QullamaggieHTFStrategy.r_entry_price r = Fin (high b) /\
     QullamaggieHTFStrategy.r_stop_price r = Fin (low b) /\
     QullamaggieHTFStrategy.risk_per_share r = Fin (high b - low b) /\
     (low b <= high b ->
      fle (Fin 0) (QullamaggieHTFStrategy.risk_per_share r) = true)).
Proof.
  intros Hsf.
  pose proof (HTFFacts.htf_generate_signals_inv _ _ _ Hsf) as [-> _].
  assert (Hrow : forall t, (t < length (rows df))%nat ->
     zloc (QullamaggieHTFStrategy.signal (HTFFacts.signals_of self df)) t = 1%Z ->
     iloc (QullamaggieHTFStrategy.entry_price (HTFFacts.signals_of self df)) t
       = Fin (high (row df t)) /\
     iloc (QullamaggieHTFStrategy.stop_price (HTFFacts.signals_of self df)) t
       = Fin (low (row df t))).
  { intros t Ht Hs.
    rewrite HTFFacts.htf_signal_at in Hs by assumption.
    rewrite HTFFacts.htf_entry_at, HTFFacts.htf_stop_at by assumption.
    destruct (mloc _ t); [auto | discriminate]. }
  split; [exact Hrow|].
  intros r Hr b.
  destruct (HTFRecord.htf_check_current_signal_inv _ _ _ Hr)
    as (_ & Ht & Hs & He & Hst & Hrisk & _).
  destruct (Hrow _ Ht Hs) as [He' Hst'].
  rewrite He' in He, Hrisk. rewrite Hst' in Hst, Hrisk.
  subst b. repeat split; try assumption.
  intros Hwf. rewrite Hrisk. simpl.
  apply Qle_bool_iff. unfold Qminus in *.
  apply (Qplus_le_l _ _ (low (row df (last_index df)))).
  ring_simplify. exact Hwf.
Qed.




(** *** A run: fifty quiet bars, then a breakout on three times the
    volume. *)

Definition quiet_bar (d : nat) : Bar :=
  {| date := Z.of_nat d; open := 10; high := 10; low := 10; close := 10;
     volume := 10000000 |}.

Definition breakout_bars : list Bar :=
  map quiet_bar (seq 0 50) ++
  [{| date := 50; open := 11; high := 21; low := 11; close := 20;
      volume := 30000000 |}].

Definition htf_default : QullamaggieHTFStrategy.t :=
  QullamaggieHTFStrategy.default "HTF".


Lemma htf_entry_high_stop_low_witness :
  iloc (QullamaggieHTFStrategy.entry_price
          (HTFFacts.signals_of htf_default (of_bars breakout_bars))) 50 = Fin 21
  /\ iloc (QullamaggieHTFStrategy.stop_price
          (HTFFacts.signals_of htf_default (of_bars breakout_bars))) 50 = Fin 11
  /\ exists r,
       QullamaggieHTFStrategy.check_current_signal htf_default
         (of_bars breakout_bars) = inr (Some r)
       /\ QullamaggieHTFStrategy.risk_per_share r = Fin (21 - 11)
       /\ fle (Fin 0) (QullamaggieHTFStrategy.risk_per_share r) = true.
Proof.
  assert (Hgen : QullamaggieHTFStrategy.generate_signals htf_default
                   (of_bars breakout_bars)
                 = inr (HTFFacts.signals_of htf_default (of_bars breakout_bars)))
    by (vm_compute; reflexivity).
  pose proof (htf_entry_high_stop_low htf_default (of_bars breakout_bars)
                _ Hgen) as (Hrow & Hrec).
  assert (Hlen : (50 < length (rows (of_bars breakout_bars)))%nat)
    by (vm_compute; lia).
  assert (Hsig : zloc (QullamaggieHTFStrategy.signal
            (HTFFacts.signals_of htf_default (of_bars breakout_bars))) 50 = 1%Z)
    by (vm_compute; reflexivity).
  destruct (Hrow 50%nat Hlen Hsig) as [He Hs].
  split; [exact He|]. split; [exact Hs|].
  eexists. split; [vm_compute; reflexivity|].
  match goal with
  | |- context [QullamaggieHTFStrategy.risk_per_share ?r] =>
      assert (Hr : QullamaggieHTFStrategy.check_current_signal htf_default
                     (of_bars breakout_bars) = inr (Some r))
        by (vm_compute; reflexivity);
      destruct (Hrec r Hr) as (_ & _ & Hrisk & Hpos)
  end.
  split; [exact Hrisk|].
  apply Hpos. vm_compute. discriminate.
Defined.

(* ================================================================== *)
(** ** Windows and aggregations                                        *)
(* ================================================================== *)

Lemma window_incl w s t x : In x (window w s t) -> In x s.
Proof.
  unfold window. intros H.
  rewrite <- (firstn_skipn (t + 1 - w) s). apply in_or_app. right.
  rewrite <- (firstn_skipn w (skipn (t + 1 - w) s)). apply in_or_app.
  now left.
Qed.

Lemma Forall_window (P : fval -> Prop) w s t :
  Forall P s -> Forall P (window w s t).
Proof.
  rewrite !Forall_forall. intros H x Hx. apply H. eapply window_incl, Hx.
Qed.

Lemma length_window w s t :
  (w <= t + 1)%nat -> (t < length s)%nat -> length (window w s t) = w.
Proof.
  intros Hw Ht. unfold window. rewrite length_firstn, length_skipn. lia.
Qed.

(** The window of a column shifted by one row holds the [w] cells
    strictly before row [t]. *)
Lemma window_shift1 w s t :
  (w <= t)%nat -> (t < length s)%nat ->
  window w (shift 1 s) t = firstn w (skipn (t - w) s).
Proof.
  intros Hw Ht. unfold window.
  apply (nth_ext _ _ NaN NaN).
  - rewrite !length_firstn, !length_skipn, length_shift. lia.
  - intros i Hi.
    rewrite length_firstn, length_skipn, length_shift in Hi.
    rewrite !nth_firstn.
    destruct (Nat.ltb_spec i w); [|reflexivity].
    rewrite !nth_skipn.
    change (nth (t + 1 - w + i) (shift 1 s) NaN)
      with (iloc (shift 1 s) (t + 1 - w + i)).
    rewrite iloc_shift by lia.
    destruct (Nat.ltb_spec (t + 1 - w + i) 1); [lia|].
    unfold iloc. f_equal. lia.
Qed.

(** The rows [t-w .. t-1] of a frame. *)
Definition prior_rows (w : nat) (df : DataFrame) (t : nat) : list Bar :=
  firstn w (skipn (t - w) (rows df)).

Lemma length_prior_rows w df t :
  (w <= t)%nat -> (t < length (rows df))%nat -> length (prior_rows w df t) = w.
Proof.
  intros Hw Ht. unfold prior_rows. rewrite length_firstn, length_skipn. lia.
Qed.

Lemma nth_prior_rows w df t i :
  (i < w)%nat -> nth i (prior_rows w df t) bar0 = row df (t - w + i).
Proof.
  intros Hi. unfold prior_rows, row. rewrite nth_firstn.
  destruct (Nat.ltb_spec i w); [|lia]. now rewrite nth_skipn.
Qed.

Lemma window_shift1_col c w df t :
  (w <= t)%nat -> (t < length (rows df))%nat ->
  window w (shift 1 (col_of c df)) t =
    map (fun b => Fin (cell c b)) (prior_rows w df t).
Proof.
  intros Hw Ht. rewrite window_shift1 by (autorewrite with len; lia).
  unfold col_of, prior_rows. now rewrite skipn_map, firstn_map.
Qed.

Lemma existsb_is_nan_Fin {A} (g : A -> Q) (l : list A) :
  existsb is_nan (map (fun x => Fin (g x)) l) = false.
Proof. induction l; simpl; auto. Qed.

Lemma existsb_is_nan_defined l :
  Forall defined l -> existsb is_nan l = false.
Proof.
  induction 1 as [|x l Hx _ IH]; simpl; [reflexivity|].
  destruct x; simpl in *; try contradiction. exact IH.
Qed.

(** [maximum] of finite cells is the largest of them. *)
Lemma fold_fmax_spec (r : list Q) (x : Q) :
  exists m, fold_left fmax (map Fin r) (Fin x) = Fin m
            /\ In m (x :: r) /\ Forall (fun y => y <= m) (x :: r).
Proof.
  revert x. induction r as [|y r IH]; intros x; simpl.
  - exists x. repeat split; auto. constructor; [apply Qle_refl | constructor].
  - unfold fmax at 2. simpl.
    destruct (Qle_bool x y) eqn:E.
    + apply Qle_bool_iff in E.
      destruct (IH y) as (m & Hm & Hin & Hall). exists m.
      split; [exact Hm|]. split; [now right|].
      inversion Hall; subst. constructor; [|assumption].
      eapply Qle_trans; eauto.
    + apply Qle_bool_false in E.
      destruct (IH x) as (m & Hm & Hin & Hall). exists m.
      split; [exact Hm|].
      split; [destruct Hin as [Hin|Hin]; [now left | now right; right]|].
      inversion Hall; subst. constructor; [assumption|].
      constructor; [|assumption].
      eapply Qle_trans; [apply Qlt_le_weak, E | assumption].
Qed.

Lemma fold_fmin_spec (r : list Q) (x : Q) :
  exists m, fold_left fmin (map Fin r) (Fin x) = Fin m
            /\ In m (x :: r) /\ Forall (fun y => m <= y) (x :: r).
Proof.
  revert x. induction r as [|y r IH]; intros x; simpl.
  - exists x. repeat split; auto. constructor; [apply Qle_refl | constructor].
  - unfold fmin at 2. simpl.
    destruct (Qle_bool x y) eqn:E.
    + apply Qle_bool_iff in E.
      destruct (IH x) as (m & Hm & Hin & Hall). exists m.
      split; [exact Hm|].
      split; [destruct Hin as [Hin|Hin]; [now left | now right; right]|].
      inversion Hall; subst. constructor; [assumption|].
      constructor; [|assumption].
      eapply Qle_trans; eauto.
    + apply Qle_bool_false in E.
      destruct (IH y) as (m & Hm & Hin & Hall). exists m.
      split; [exact Hm|]. split; [now right|].
      inversion Hall; subst. constructor; [|assumption].
      eapply Qle_trans; [eassumption | apply Qlt_le_weak, E].
Qed.

Lemma maximum_spec {A} (g : A -> Q) (l : list A) :
  l <> [] ->
  exists m, maximum (map (fun b => Fin (g b)) l) = Fin m
            /\ In m (map g l) /\ Forall (fun b => g b <= m) l.
Proof.
  destruct l as [|b l]; [congruence|]. intros _. simpl.
  destruct (fold_fmax_spec (map g l) (g b)) as (m & Hm & Hin & Hall).
  exists m. rewrite map_map in Hm. split; [exact Hm|].
  split; [exact Hin|].
  change (g b :: map g l) with (map g (b :: l)) in Hall.
  now rewrite Forall_map in Hall.
Qed.

Lemma minimum_spec {A} (g : A -> Q) (l : list A) :
  l <> [] ->
  exists m, minimum (map (fun b => Fin (g b)) l) = Fin m
            /\ In m (map g l) /\ Forall (fun b => m <= g b) l.
Proof.
  destruct l as [|b l]; [congruence|]. intros _. simpl.
  destruct (fold_fmin_spec (map g l) (g b)) as (m & Hm & Hin & Hall).
  exists m. rewrite map_map in Hm. split; [exact Hm|].
  split; [exact Hin|].
  change (g b :: map g l) with (map g (b :: l)) in Hall.
  now rewrite Forall_map in Hall.
Qed.

(** A rolling extremum over the cells strictly before row [t]. *)
Lemma rolling_max_shift1_col c w df t :
  (1 <= w)%nat -> (w <= t)%nat -> (t < length (rows df))%nat ->
  exists m,
    iloc (rolling_max w (shift 1 (col_of c df))) t = Fin m
    /\ In m (map (cell c) (prior_rows w df t))
    /\ Forall (fun b => cell c b <= m) (prior_rows w df t).
Proof.
  intros H1 Hw Ht. unfold rolling_max.
  rewrite iloc_rolling by (autorewrite with len; lia).
  destruct (Nat.eqb_spec w 0); [lia|].
  destruct (Nat.ltb_spec (t + 1) w); [lia|]. cbn [orb].
  rewrite window_shift1_col by assumption.
  rewrite existsb_is_nan_Fin.
  apply maximum_spec. intros E.
  apply (f_equal (@length Bar)) in E.
  rewrite length_prior_rows in E by assumption. simpl in E. lia.
Qed.

Lemma rolling_min_shift1_col c w df t :
  (1 <= w)%nat -> (w <= t)%nat -> (t < length (rows df))%nat ->
  exists m,
    iloc (rolling_min w (shift 1 (col_of c df))) t = Fin m
    /\ In m (map (cell c) (prior_rows w df t))
    /\ Forall (fun b => m <= cell c b) (prior_rows w df t).
Proof.
  intros H1 Hw Ht. unfold rolling_min.
  rewrite iloc_rolling by (autorewrite with len; lia).
  destruct (Nat.eqb_spec w 0); [lia|].
  destruct (Nat.ltb_spec (t + 1) w); [lia|]. cbn [orb].
  rewrite window_shift1_col by assumption.
  rewrite existsb_is_nan_Fin.
  apply minimum_spec. intros E.
  apply (f_equal (@length Bar)) in E.
  rewrite length_prior_rows in E by assumption. simpl in E. lia.
Qed.

(** Before [w] earlier rows exist the shifted rolling cell is NaN. *)
Lemma rolling_shift1_short agg w s t :
  (t < w)%nat -> (t < length s)%nat ->
  iloc (rolling agg w (shift 1 s)) t = NaN.
Proof.
  intros Hw Ht. rewrite iloc_rolling by (autorewrite with len; lia).
  destruct (Nat.eqb_spec w 0); [reflexivity|].
  destruct (Nat.ltb_spec (t + 1) w); [reflexivity|]. cbn [orb].
  assert (w = t + 1)%nat as -> by lia.
  unfold window. replace (t + 1 - (t + 1))%nat with 0%nat by lia.
  rewrite skipn_O.
  destruct s as [|x s]; [simpl in Ht; lia|].
  unfold shift. simpl length. unfold tabulate. simpl seq.
  replace (t + 1)%nat with (S t) by lia. reflexivity.
Qed.

Lemma rolling_short agg w s t :
  (t + 1 < w)%nat -> (t < length s)%nat -> iloc (rolling agg w s) t = NaN.
Proof.
  intros Hw Ht. rewrite iloc_rolling by assumption.
  destruct (Nat.ltb_spec (t + 1) w); [|lia].
  now rewrite orb_true_r.
Qed.

(* ================================================================== *)
(** ** The Donchian variant                                            *)
(* ================================================================== *)

Module DonchianFacts.
Import DonchianStrategy.

Definition indicators_of (self : t) (df : DataFrame) : Indicators :=
  {| donchian_high_entry :=
       rolling_max (entry_period self) (shift 1 (col_of ColHigh df));
     donchian_low_entry :=
       rolling_min (entry_period self) (shift 1 (col_of ColLow df));
     donchian_high_exit :=
       rolling_max (exit_period self) (shift 1 (col_of ColHigh df));
     donchian_low_exit :=
       rolling_min (exit_period self) (shift 1 (col_of ColLow df));
     atr := rolling_mean (atr_period self) (true_range df) |}.

Definition signals_of (self : t) (df : DataFrame) : Signals :=
  let close := col_of ColClose df in
  let sf := long_entries self close (indicators_of self df)
              (length (rows df)) in
  if allow_shorts self then short_entries self close sf else sf.

Lemma donchian_calculate_indicators_eq self df :
  calculate_indicators self df =
    if columns df ColHigh then
      if columns df ColLow then
        if columns df ColClose then inr (indicators_of self df)
        else inl (KeyError "close")
      else inl (KeyError "low")
    else inl (KeyError "high").
Proof.
  unfold calculate_indicators. rewrite !getitem_eq, calculate_atr_eq.
  destruct (columns df ColHigh); [|reflexivity].
  destruct (columns df ColLow); [|reflexivity].
  destruct (columns df ColClose); reflexivity.
Qed.

Lemma donchian_generate_signals_eq self df :
  generate_signals self df =
    if columns df ColHigh then
      if columns df ColLow then
        if columns df ColClose then inr (signals_of self df)
        else inl (KeyError "close")
      else inl (KeyError "low")
    else inl (KeyError "high").
Proof.
  unfold generate_signals. rewrite donchian_calculate_indicators_eq, !getitem_eq.
  destruct (columns df ColHigh); [|reflexivity].
  destruct (columns df ColLow); [|reflexivity].
  destruct (columns df ColClose); reflexivity.
Qed.

Lemma donchian_generate_signals_inv self df sf :
  generate_signals self df = inr sf -> sf = signals_of self df.
Proof.
  rewrite donchian_generate_signals_eq.
  destruct (columns df ColHigh); [|discriminate].
  destruct (columns df ColLow); [|discriminate].
  destruct (columns df ColClose); [|discriminate].
  now intros [= <-].
Qed.


(** The two masks on row [t]. *)
Definition long_at (self : t) (df : DataFrame) (t : nat) : bool :=
  fgt (Fin (close (row df t)))
      (iloc (donchian_high_entry (indicators_of self df)) t).

Definition short_at (self : t) (df : DataFrame) (t : nat) : bool :=
  allow_shorts self &&
  flt (Fin (close (row df t)))
      (iloc (donchian_low_entry (indicators_of self df)) t).

(** The stop candidates on row [t]. *)
Definition long_stop_at (self : t) (df : DataFrame) (t : nat) : fval :=
  if use_atr_stop self then
    fsub (Fin (close (row df t)))
         (fmul (Fin (atr_stop_multiple self))
               (iloc (atr (indicators_of self df)) t))
  else iloc (donchian_low_exit (indicators_of self df)) t.

Definition short_stop_at (self : t) (df : DataFrame) (t : nat) : fval :=
  if use_atr_stop self then
    fadd (Fin (close (row df t)))
         (fmul (Fin (atr_stop_multiple self))
               (iloc (atr (indicators_of self df)) t))
  else iloc (donchian_high_exit (indicators_of self df)) t.

Lemma iloc_atr_stop op self df t :
  (t < length (rows df))%nat ->
  iloc (atr_stop op self (col_of ColClose df)
          (atr (indicators_of self df))) t =
    op (Fin (close (row df t)))
       (fmul (Fin (atr_stop_multiple self))
             (iloc (atr (indicators_of self df)) t)).
Proof.
  intros Ht. unfold atr_stop.
  rewrite iloc_zip_with by (autorewrite with len; lia).
  rewrite iloc_map
    by (unfold indicators_of; cbn [atr]; autorewrite with len;
        unfold true_range; autorewrite with len; lia).
  now rewrite iloc_col_of.
Qed.

Lemma donchian_signal_at self df t :
  (t < length (rows df))%nat ->
  zloc (signal (signals_of self df)) t =
    if short_at self df t then (-1)%Z
    else if long_at self df t then 1%Z else 0%Z.
Proof.
  intros Ht. unfold zloc, signals_of, short_at, long_at.
  destruct (allow_shorts self); cbn [andb];
    unfold short_entries, long_entries; cbn [signal ind];
    rewrite ?nth_loc_fill by (autorewrite with len; lia);
    rewrite ?nth_repeat_same;
    rewrite ?mloc_compare by (autorewrite with len; lia);
    rewrite ?iloc_col_of by assumption; reflexivity.
Qed.

Lemma donchian_entry_at self df t :
  (t < length (rows df))%nat ->
  iloc (entry_price (signals_of self df)) t =
    if short_at self df t || long_at self df t
    then Fin (close (row df t)) else NaN.
Proof.
  intros Ht. unfold iloc, signals_of, short_at, long_at.
  destruct (allow_shorts self); cbn [andb orb];
    unfold short_entries, long_entries; cbn [entry_price ind];
    rewrite ?nth_loc_set by (autorewrite with len; lia);
    rewrite ?nth_repeat_same;
    rewrite ?mloc_compare by (autorewrite with len; lia);
    change (nth t (col_of ColClose df) NaN) with (iloc (col_of ColClose df) t);
    rewrite ?iloc_col_of by assumption.
  - destruct (flt _ _); [reflexivity|]. cbn [orb]. reflexivity.
  - reflexivity.
Qed.

Lemma donchian_stop_at self df t :
  (t < length (rows df))%nat ->
  iloc (stop_price (signals_of self df)) t =
    if short_at self df t then short_stop_at self df t
    else if long_at self df t then long_stop_at self df t else NaN.
Proof.
  intros Ht. unfold iloc, signals_of, short_at, long_at,
    short_stop_at, long_stop_at.
  destruct (allow_shorts self); cbn [andb];
    unfold short_entries, long_entries; cbn [stop_price ind];
    rewrite ?nth_loc_set by (autorewrite with len; lia);
    rewrite ?nth_repeat_same;
    rewrite ?mloc_compare by (autorewrite with len; lia);
    rewrite ?iloc_col_of by assumption;
    destruct (use_atr_stop self);
    repeat match goal with
    | |- context [nth t (atr_stop ?op self ?c ?a) NaN] =>
        change (nth t (atr_stop op self c a) NaN)
          with (iloc (atr_stop op self c a) t);
        rewrite (iloc_atr_stop op self df t Ht)
    end; reflexivity.
Qed.

End DonchianFacts.


(** *** A run: the third bar sets the highest high of the series. *)

Definition donchian_2_1 : DonchianStrategy.t :=
  {| DonchianStrategy.name := "Donchian";
     DonchianStrategy.entry_period := 2;
     DonchianStrategy.exit_period := 1;
     DonchianStrategy.atr_period := 14;
     DonchianStrategy.atr_stop_multiple := 3;
     DonchianStrategy.use_atr_stop := false;
     DonchianStrategy.allow_shorts := true |}.

Definition new_high_bars : list Bar :=
  [ {| date := 1; open := 9; high := 10; low := 8; close := 9; volume := 100 |};
    {| date := 2; open := 9; high := 11; low := 9; close := 10; volume := 100 |};
    {| date := 3; open := 10; high := 20; low := 10; close := 15; volume := 100 |} ].


(* ================================================================== *)
(** ** Finite cells                                                    *)
(* ================================================================== *)

(** A finite cell whose value satisfies [P]. *)
Definition fin_sat (P : Q -> Prop) (x : fval) : Prop :=
  match x with
  | Fin q => P q
  | _ => False
  end.

Definition Qsum (qs : list Q) : Q := fold_right Qplus 0 qs.

Lemma fin_sat_defined P x : fin_sat P x -> defined x.
Proof. destruct x; simpl; auto. Qed.

Lemma Forall_fin_sat_map P l :
  Forall (fin_sat P) l -> exists qs, l = map Fin qs /\ Forall P qs.
Proof.
  induction 1 as [|x l Hx _ (qs & -> & Hqs)].
  - exists []. split; [reflexivity | constructor].
  - destruct x as [q| | |]; simpl in Hx; try contradiction.
    exists (q :: qs). split; [reflexivity | now constructor].
Qed.

Lemma fsum_Fin qs : fsum (map Fin qs) = Fin (Qsum qs).
Proof.
  induction qs as [|q qs IH]; [reflexivity|].
  change (fsum (map Fin (q :: qs))) with (fadd (Fin q) (fsum (map Fin qs))).
  now rewrite IH.
Qed.

Lemma Qsum_nonneg qs : Forall (fun q => 0 <= q) qs -> 0 <= Qsum qs.
Proof.
  induction 1 as [|q qs Hq _ IH]; simpl; [apply Qle_refl|].
  change 0 with (0 + 0). now apply Qplus_le_compat.
Qed.

Lemma Qnat_neq_0 w : (1 <= w)%nat -> Qeq_bool (Qnat w) 0 = false.
Proof.
  intros H. destruct (Qeq_bool (Qnat w) 0) eqn:E; [|reflexivity].
  apply Qeq_bool_iff in E. pose proof (Qnat_pos w H) as Hp.
  rewrite E in Hp. now apply Qlt_irrefl in Hp.
Qed.

Lemma mean_Fin qs :
  qs <> [] -> mean (map Fin qs) = Fin (Qsum qs / Qnat (length qs)).
Proof.
  intros Hne. unfold mean. rewrite fsum_Fin, length_map. cbn [fdiv].
  rewrite Qnat_neq_0; [reflexivity|].
  destruct qs; [congruence | simpl; lia].
Qed.

(** On a column of finite cells, a full window averages to a finite
    cell; when the cells are not negative, neither is the average. *)
Lemma rolling_mean_full P s w t :
  Forall (fin_sat P) s ->
  (1 <= w)%nat -> (w <= t + 1)%nat -> (t < length s)%nat ->
  exists qs,
    window w s t = map Fin qs /\ Forall P qs /\ length qs = w /\
    iloc (rolling_mean w s) t = Fin (Qsum qs / Qnat w).
Proof.
  intros Hs H1 Hw Ht.
  destruct (Forall_fin_sat_map P _ (Forall_window _ w s t Hs))
    as (qs & Hqs & HP).
  assert (Hlen : length qs = w).
  { rewrite <- (length_map Fin), <- Hqs. now apply length_window. }
  exists qs. repeat (split; [assumption|]).
  unfold rolling_mean. rewrite iloc_rolling by assumption.
  destruct (Nat.eqb_spec w 0); [lia|].
  destruct (Nat.ltb_spec (t + 1) w); [lia|]. cbn [orb].
  rewrite Hqs.
  rewrite (existsb_is_nan_Fin (fun q => q)).
  rewrite mean_Fin, Hlen; [reflexivity|].
  destruct qs; [simpl in Hlen; lia | congruence].
Qed.

Lemma rolling_mean_defined_or_nan P s w t :
  Forall (fin_sat P) s -> (t < length s)%nat ->
  iloc (rolling_mean w s) t = NaN \/ defined (iloc (rolling_mean w s) t).
Proof.
  intros Hs Ht.
  destruct (Nat.eq_dec w 0) as [->|Hw0].
  { left. unfold rolling_mean. now rewrite iloc_rolling. }
  destruct (Nat.lt_ge_cases (t + 1) w) as [Hlt|Hge].
  { left. now apply rolling_short. }
  right.
  destruct (rolling_mean_full P s w t Hs) as (qs & _ & _ & _ & ->);
    try assumption; try lia.
  exact I.
Qed.

Lemma Forall_defined_col_of c df :
  Forall (fin_sat (fun _ => True)) (col_of c df).
Proof.
  unfold col_of. apply Forall_map, Forall_forall. intros; exact I.
Qed.

Lemma Forall_iloc (P : fval -> Prop) s :
  (forall t, (t < length s)%nat -> P (iloc s t)) -> Forall P s.
Proof.
  intros H. apply Forall_nth. intros i d Hi.
  rewrite (nth_indep _ d NaN) by assumption. now apply H.
Qed.

Lemma nanmax_defined x y :
  defined x -> defined y \/ y = NaN -> defined (nanmax x y).
Proof.
  destruct x as [a| | |]; simpl; try contradiction. intros _.
  destruct y as [b| | |]; simpl; intros [H|H];
    try contradiction; try discriminate; try exact I.
  unfold fmax. simpl. destruct (Qle_bool a b); exact I.
Qed.

(** The true range of every row is a finite number. *)
Lemma iloc_true_range_defined df t :
  (t < length (rows df))%nat -> defined (iloc (true_range df) t).
Proof.
  intros Ht. unfold true_range, row_max3.
  unfold iloc at 1. rewrite nth_tabulate by (autorewrite with len; lia).
  rewrite !iloc_map by (autorewrite with len; lia).
  rewrite !iloc_zip_with by (autorewrite with len; lia).
  rewrite iloc_shift by (autorewrite with len; lia).
  rewrite !iloc_col_of by lia.
  cbn [fsub fneg fadd].
  destruct (Nat.ltb_spec t 1).
  - apply nanmax_defined; [apply nanmax_defined|]; simpl; auto.
  - apply nanmax_defined; [apply nanmax_defined|]; simpl; auto.
Qed.

Lemma Forall_defined_true_range df :
  Forall (fin_sat (fun _ => True)) (true_range df).
Proof.
  apply Forall_iloc. intros t Ht.
  assert (Hl : (t < length (rows df))%nat).
  { unfold true_range in Ht. autorewrite with len in Ht. exact Ht. }
  pose proof (iloc_true_range_defined df t Hl) as H.
  destruct (iloc (true_range df) t); simpl in *; auto.
Qed.

Lemma length_true_range df : length (true_range df) = length (rows df).
Proof. unfold true_range. now autorewrite with len. Qed.

#[global] Hint Rewrite length_true_range : len.

(* ================================================================== *)
(** ** The moving-average crossover variant                            *)
(* ================================================================== *)

Definition span_error : exn := ValueError "span must satisfy: span >= 1".

Lemma ewm_mean_eq span xs :
  ewm_mean span xs =
    if (span <? 1)%nat then inl span_error else inr (ewm_Q span xs).
Proof. reflexivity. Qed.

Lemma iloc_ema span xs t :
  (t < length xs)%nat ->
  iloc (map Fin (ewm_Q span xs)) t = Fin (nth t (ewm_Q span xs) 0).
Proof.
  intros Ht. apply (iloc_map_Fin (fun q => q)).
  now rewrite length_ewm_Q.
Qed.

Module MA101Facts.
Import MA101Strategy.

Definition closes (df : DataFrame) : list Q := map (cell ColClose) (rows df).

Definition indicators_of (self : t) (df : DataFrame) : Indicators :=
  {| sma_regime := rolling_mean (regime_ma self) (col_of ColClose df);
     ema_fast := map Fin (ewm_Q (fast_ema self) (closes df));
     ema_slow := map Fin (ewm_Q (slow_ema self) (closes df));
     ema_stop := map Fin (ewm_Q (stop_ma self) (closes df));
     rsi := StrategyBase._calculate_rsi (col_of ColClose df) (rsi_period self);
     atr_14 := rolling_mean 14 (true_range df) |}.

Definition entry_signal_of (self : t) (df : DataFrame) : list bool :=
  let i := indicators_of self df in
  mask_and (cross_above (ema_fast i) (ema_slow i))
           (compare fgt (col_of ColClose df) (sma_regime i)).

Definition signals_of (self : t) (df : DataFrame) : Signals :=
  let i := indicators_of self df in
  let n := length (rows df) in
  let m := entry_signal_of self df in
  {| ind := i;
     signal := loc_fill 0%Z m 1%Z (repeat 0%Z n);
     entry_price := loc_set NaN m (col_of ColClose df) (repeat NaN n);
     stop_price := loc_set NaN m (ema_stop i) (repeat NaN n);
     reason := loc_fill EmptyString m (entry_reason self)
                 (repeat EmptyString n) |}.

Lemma ma101_calculate_indicators_eq self df :
  calculate_indicators self df =
    if columns df ColClose then
      if (fast_ema self <? 1)%nat then inl span_error
      else if (slow_ema self <? 1)%nat then inl span_error
      else if (stop_ma self <? 1)%nat then inl span_error
      else if columns df ColHigh then
        if columns df ColLow then inr (indicators_of self df)
        else inl (KeyError "low")
      else inl (KeyError "high")
    else inl (KeyError "close").
Proof.
  unfold calculate_indicators. rewrite getitem_eq.
  destruct (columns df ColClose) eqn:Hc; [|reflexivity]. cbn [bind].
  rewrite getitem_Q_eq, Hc. cbn [bind].
  rewrite ewm_mean_eq.
  destruct (fast_ema self <? 1)%nat; [reflexivity|]. cbn [bind].
  rewrite ewm_mean_eq.
  destruct (slow_ema self <? 1)%nat; [reflexivity|]. cbn [bind].
  rewrite ewm_mean_eq.
  destruct (stop_ma self <? 1)%nat; [reflexivity|]. cbn [bind].
  rewrite calculate_atr_eq, Hc.
  destruct (columns df ColHigh); [|reflexivity].
  destruct (columns df ColLow); reflexivity.
Qed.

Lemma ma101_generate_signals_eq self df :
  generate_signals self df =
    if columns df ColClose then
      if (fast_ema self <? 1)%nat then inl span_error
      else if (slow_ema self <? 1)%nat then inl span_error
      else if (stop_ma self <? 1)%nat then inl span_error
      else if columns df ColHigh then
        if columns df ColLow then inr (signals_of self df)
        else inl (KeyError "low")
      else inl (KeyError "high")
    else inl (KeyError "close").
Proof.
  unfold generate_signals. rewrite ma101_calculate_indicators_eq, getitem_eq.
  destruct (columns df ColClose); [|reflexivity].
  destruct (fast_ema self <? 1)%nat; [reflexivity|].
  destruct (slow_ema self <? 1)%nat; [reflexivity|].
  destruct (stop_ma self <? 1)%nat; [reflexivity|].
  destruct (columns df ColHigh); [|reflexivity].
  destruct (columns df ColLow); reflexivity.
Qed.

Lemma ma101_generate_signals_inv self df sf :
  generate_signals self df = inr sf -> sf = signals_of self df.
Proof.
  rewrite ma101_generate_signals_eq.
  destruct (columns df ColClose); [|discriminate].
  destruct (fast_ema self <? 1)%nat; [discriminate|].
  destruct (slow_ema self <? 1)%nat; [discriminate|].
  destruct (stop_ma self <? 1)%nat; [discriminate|].
  destruct (columns df ColHigh); [|discriminate].
  destruct (columns df ColLow); [|discriminate].
  now intros [= <-].
Qed.

Lemma length_closes df : length (closes df) = length (rows df).
Proof. apply length_map. Qed.

(** The crossover on row [t]: fast at or below slow on the previous row,
    above it on this one. *)
Lemma ma101_mloc_cross_above fast slow t :
  (t < length fast)%nat -> (t < length slow)%nat ->
  mloc (cross_above fast slow) t =
    fle (iloc (shift 1 fast) t) (iloc (shift 1 slow) t)
    && fgt (iloc fast t) (iloc slow t).
Proof.
  intros Hf Hs. unfold cross_above.
  rewrite mloc_mask_and by (autorewrite with len; lia).
  now rewrite !mloc_compare by (autorewrite with len; lia).
Qed.


Lemma mloc_entry_signal self df t :
  (t < length (rows df))%nat ->
  mloc (entry_signal_of self df) t =
    mloc (cross_above (ema_fast (indicators_of self df))
                      (ema_slow (indicators_of self df))) t
    && fgt (Fin (close (row df t)))
           (iloc (sma_regime (indicators_of self df)) t).
Proof.
  intros Ht. unfold entry_signal_of. cbv zeta.
  rewrite mloc_mask_and
    by (unfold cross_above, indicators_of; cbn [ema_fast ema_slow];
        autorewrite with len; rewrite length_closes; lia).
  rewrite mloc_compare by (autorewrite with len; lia).
  now rewrite iloc_col_of.
Qed.

Lemma ma101_signal_at self df t :
  (t < length (rows df))%nat ->
  zloc (signal (signals_of self df)) t =
    if mloc (entry_signal_of self df) t then 1%Z else 0%Z.
Proof.
  intros Ht. unfold zloc, signals_of; cbn [signal].
  rewrite nth_loc_fill by (autorewrite with len; lia).
  now rewrite nth_repeat_same.
Qed.

Lemma ma101_entry_at self df t :
  (t < length (rows df))%nat ->
  iloc (entry_price (signals_of self df)) t =
    if mloc (entry_signal_of self df) t
    then Fin (close (row df t)) else NaN.
Proof.
  intros Ht. unfold iloc, signals_of; cbn [entry_price].
  rewrite nth_loc_set by (autorewrite with len; lia).
  rewrite nth_repeat_same.
  change (nth t (col_of ColClose df) NaN) with (iloc (col_of ColClose df) t).
  now rewrite iloc_col_of.
Qed.

Lemma ma101_stop_at self df t :
  (t < length (rows df))%nat ->
  iloc (stop_price (signals_of self df)) t =
    if mloc (entry_signal_of self df) t
    then Fin (nth t (ewm_Q (stop_ma self) (closes df)) 0) else NaN.
Proof.
  intros Ht. unfold iloc, signals_of; cbn [stop_price].
  rewrite nth_loc_set by (autorewrite with len; lia).
  rewrite nth_repeat_same.
  unfold indicators_of; cbn [ema_stop].
  change (nth t (map Fin (ewm_Q (stop_ma self) (closes df))) NaN)
    with (iloc (map Fin (ewm_Q (stop_ma self) (closes df))) t).
  rewrite iloc_ema by (rewrite length_closes; lia). reflexivity.
Qed.

Lemma ma101_check_current_signal_inv self df r :
  check_current_signal self df = inr (Some r) ->
  let t := last_index df in
  let sf := signals_of self df in
  (t < length (rows df))%nat /\
  zloc (signal sf) t = 1%Z /\
  r_entry_price r = iloc (entry_price sf) t /\
  r_stop_price r = iloc (stop_price sf) t /\
  risk_per_share r = fsub (iloc (entry_price sf) t) (iloc (stop_price sf) t).
Proof.
  unfold check_current_signal. intros H.
  apply bind_inv in H. destruct H as (sf & Hsf & H).
  apply ma101_generate_signals_inv in Hsf. subst sf.
  destruct (empty df) eqn:Hemp; [discriminate|].
  destruct (zloc (signal (signals_of self df)) (last_index df) =? 1)%Z eqn:Hs;
    [|discriminate].
  injection H as <-. cbn [r_entry_price r_stop_price risk_per_share].
  apply Z.eqb_eq in Hs.
  repeat split; auto using last_index_lt.
Qed.

End MA101Facts.

(** *** Risk per share

    [DonchianStrategy.check_current_signal] reports
    [abs(entry_price - stop_price)]; the three long-only variants report
    the signed difference [entry_price - stop_price]. *)

Lemma donchian_risk_is_abs self df r :
  DonchianStrategy.check_current_signal self df = inr (Some r) ->
  DonchianStrategy.risk_per_share r =
    fabs (fsub (DonchianStrategy.r_entry_price r)
               (DonchianStrategy.r_stop_price r)).
Proof.
  unfold DonchianStrategy.check_current_signal. intros H.
  apply bind_inv in H. destruct H as (sf & _ & H).
  destruct (empty df); [discriminate|].
  destruct (negb _); [|discriminate].
  now injection H as <-.
Qed.

Lemma ma101_risk_is_signed self df r :
  MA101Strategy.check_current_signal self df = inr (Some r) ->
  MA101Strategy.risk_per_share r =
    fsub (MA101Strategy.r_entry_price r) (MA101Strategy.r_stop_price r).
Proof.
  intros H.
  destruct (MA101Facts.ma101_check_current_signal_inv _ _ _ H)
    as (_ & _ & -> & -> & ->).
  reflexivity.
Qed.

(** A crossover strategy whose stop average is slower than its slow
    average: [regime_ma = 2], [fast_ema = 1], [slow_ema = 3],
    [stop_ma = 9]. *)
Definition ma101_slow_stop : MA101Strategy.t :=
  {| MA101Strategy.name := "MA101";
     MA101Strategy.regime_ma := 2;
     MA101Strategy.fast_ema := 1;
     MA101Strategy.slow_ema := 3;
     MA101Strategy.rsi_period := 14;
     MA101Strategy.rsi_overbought := 70;
     MA101Strategy.stop_ma := 9 |}.

Definition still_bar (d : Z) (p : Q) : Bar :=
  {| date := d; open := p; high := p; low := p; close := p; volume := 1000 |}.

(** Closes 100, 1, 60. *)
Definition rebound_bars : list Bar :=
  [still_bar 1 100; still_bar 2 1; still_bar 3 60].

(** C2 (the code departs from the claim).  On [rebound_bars] the
    crossover variant configured as [ma101_slow_stop] returns a record
    for the final bar: the fast average (60) crosses above the slow one
    (55.25) and the close is above the 2-bar mean (30.5).  Its stop is
    the 9-bar average 76.16, above the entry 60, and the reported
    risk-per-share is [60 - 76.16 = -16.16]: negative, and not
    [|entry - stop| = 16.16]. *)
Theorem ma101_risk_per_share_negative :
  exists r,
    MA101Strategy.check_current_signal ma101_slow_stop (of_bars rebound_bars)
      = inr (Some r)
    /\ MA101Strategy.r_entry_price r = Fin 60
    /\ feq (MA101Strategy.r_stop_price r) (Fin (7616 # 100))
    /\ feq (MA101Strategy.risk_per_share r) (Fin (- (1616 # 100)))
    /\ flt (MA101Strategy.risk_per_share r) (Fin 0) = true
    /\ ~ feq (MA101Strategy.risk_per_share r)
             (fabs (fsub (MA101Strategy.r_entry_price r)
                         (MA101Strategy.r_stop_price r))).
Proof.
  eexists. split; [vm_compute; reflexivity|].
  cbn [MA101Strategy.r_entry_price MA101Strategy.r_stop_price
       MA101Strategy.risk_per_share].
  split; [reflexivity|].
  split; [vm_compute; reflexivity|].
  split; [vm_compute; reflexivity|].
  split; [vm_compute; reflexivity|].
  vm_compute. discriminate.
Qed.

(* ================================================================== *)
(** ** The multi-pattern swing variant                                 *)
(* ================================================================== *)

Module SwingFacts.
Import SwingTradingStrategy.

Definition closes (df : DataFrame) : list Q := map (cell ColClose) (rows df).

Definition indicators_of (self : t) (df : DataFrame) : Indicators :=
  {| ema_fast := map Fin (ewm_Q (fast_ema self) (closes df));
     ema_slow := map Fin (ewm_Q (slow_ema self) (closes df));
     sma_50 := rolling_mean (ma_50 self) (col_of ColClose df);
     sma_200 := rolling_mean (ma_200 self) (col_of ColClose df);
     rsi := StrategyBase._calculate_rsi (col_of ColClose df) (rsi_period self);
     atr := rolling_mean (atr_period self) (true_range df) |}.

Definition signals_of (self : t) (df : DataFrame) : Signals :=
  let close := col_of ColClose df in
  let low := col_of ColLow df in
  pattern_dip_200 self low close
    (pattern_dip_50 self low close
       (pattern_crossover self close
          (initial (indicators_of self df) (length (rows df))))).

Lemma swing_calculate_indicators_eq self df :
  calculate_indicators self df =
    if columns df ColClose then
      if (fast_ema self <? 1)%nat then inl span_error
      else if (slow_ema self <? 1)%nat then inl span_error
      else if columns df ColHigh then
        if columns df ColLow then inr (indicators_of self df)
        else inl (KeyError "low")
      else inl (KeyError "high")
    else inl (KeyError "close").
Proof.
  unfold calculate_indicators. rewrite getitem_eq.
  destruct (columns df ColClose) eqn:Hc; [|reflexivity]. cbn [bind].
  rewrite getitem_Q_eq, Hc. cbn [bind].
  rewrite ewm_mean_eq.
  destruct (fast_ema self <? 1)%nat; [reflexivity|]. cbn [bind].
  rewrite ewm_mean_eq.
  destruct (slow_ema self <? 1)%nat; [reflexivity|]. cbn [bind].
  rewrite calculate_atr_eq, Hc.
  destruct (columns df ColHigh); [|reflexivity].
  destruct (columns df ColLow); reflexivity.
Qed.

Lemma swing_generate_signals_eq self df :
  generate_signals self df =
    if columns df ColClose then
      if (fast_ema self <? 1)%nat then inl span_error
      else if (slow_ema self <? 1)%nat then inl span_error
      else if columns df ColHigh then
        if columns df ColLow then inr (signals_of self df)
        else inl (KeyError "low")
      else inl (KeyError "high")
    else inl (KeyError "close").
Proof.
  unfold generate_signals. rewrite swing_calculate_indicators_eq, !getitem_eq.
  destruct (columns df ColClose); [|reflexivity].
  destruct (fast_ema self <? 1)%nat; [reflexivity|].
  destruct (slow_ema self <? 1)%nat; [reflexivity|].
  destruct (columns df ColHigh); [|reflexivity].
  destruct (columns df ColLow); reflexivity.
Qed.

Lemma swing_generate_signals_inv self df sf :
  generate_signals self df = inr sf -> sf = signals_of self df.
Proof.
  rewrite swing_generate_signals_eq.
  destruct (columns df ColClose); [|discriminate].
  destruct (fast_ema self <? 1)%nat; [discriminate|].
  destruct (slow_ema self <? 1)%nat; [discriminate|].
  destruct (columns df ColHigh); [|discriminate].
  destruct (columns df ColLow); [|discriminate].
  now intros [= <-].
Qed.

(** All result columns keep the length of the frame. *)
Definition sized (n : nat) (sf : Signals) : Prop :=
  length (signal sf) = n /\ length (entry_price sf) = n /\
  length (stop_price sf) = n /\ length (reason sf) = n /\
  length (entry_type sf) = n.

Lemma sized_initial i n : sized n (initial i n).
Proof. unfold sized, initial; cbn. now rewrite !repeat_length. Qed.

Lemma sized_mark n mask close stop why kind sf :
  sized n sf -> sized n (mark mask close stop why kind sf).
Proof.
  intros (H1 & H2 & H3 & H4 & H5). unfold sized, mark; cbn.
  now rewrite !length_loc_fill, !length_loc_set.
Qed.

(** What one pattern leaves on row [t]. *)
Lemma mark_at n mask close stop why kind sf t :
  sized n sf -> (t < n)%nat ->
  let sf' := mark mask close stop why kind sf in
  zloc (signal sf') t = (if mloc mask t then 1%Z else zloc (signal sf) t) /\
  iloc (entry_price sf') t =
    (if mloc mask t then iloc close t else iloc (entry_price sf) t) /\
  iloc (stop_price sf') t =
    (if mloc mask t then iloc stop t else iloc (stop_price sf) t) /\
  sloc (entry_type sf') t =
    (if mloc mask t then kind else sloc (entry_type sf) t) /\
  ind sf' = ind sf.
Proof.
  intros (H1 & H2 & H3 & H4 & H5) Ht. cbv zeta.
  unfold zloc, iloc, sloc, mark; cbn [signal entry_price stop_price
                                      entry_type ind].
  rewrite !nth_loc_fill, !nth_loc_set by lia. auto.
Qed.

Lemma mloc_is_flat sig t :
  (t < length sig)%nat -> mloc (is_flat sig) t = (zloc sig t =? 0)%Z.
Proof.
  intros Ht. unfold mloc, zloc, is_flat.
  rewrite (nth_indep _ false ((0 =? 0)%Z)) by now rewrite length_map.
  apply (map_nth (fun s => (s =? 0)%Z)).
Qed.

Lemma mloc_dip low close ma t :
  (t < length low)%nat -> (t < length close)%nat -> (t < length ma)%nat ->
  mloc (dip low close ma) t =
    fle (iloc low t) (iloc ma t) && fgt (iloc close t) (iloc ma t)
    && fgt (iloc (shift 1 close) t) (iloc (shift 1 ma) t).
Proof.
  intros Hl Hc Hm. unfold dip.
  rewrite !mloc_mask_and by (autorewrite with len; lia).
  now rewrite !mloc_compare by (autorewrite with len; lia).
Qed.

Lemma swing_mloc_cross_above fast slow t :
  (t < length fast)%nat ->
  mloc (cross_above fast slow) t =
    fle (iloc (shift 1 fast) t) (iloc (shift 1 slow) t)
    && fgt (iloc fast t) (iloc slow t).
Proof.
  intros Hf. unfold cross_above.
  rewrite mloc_mask_and by (autorewrite with len; lia).
  now rewrite !mloc_compare by (autorewrite with len; lia).
Qed.

End SwingFacts.

Module SwingRows.
Import SwingTradingStrategy SwingFacts.

Section Row.

Variables (self : t) (df : DataFrame) (t : nat).
Hypothesis Ht : (t < length (rows df))%nat.

Let i := indicators_of self df.
Let n := length (rows df).

(** The three patterns on row [t], before any tie-break. *)
Definition cross_at : bool := mloc (cross_above (ema_fast i) (ema_slow i)) t.
Definition dip_50_at : bool :=
  mloc (dip (col_of ColLow df) (col_of ColClose df) (sma_50 i)) t.
Definition dip_200_at : bool :=
  mloc (dip (col_of ColLow df) (col_of ColClose df) (sma_200 i)) t.

(** The patterns the mode selector enables. *)
Definition crossover_on : bool :=
  mode_in (entry_mode self) ["crossover"; "all"]%string.
Definition dip_50_on : bool :=
  mode_in (entry_mode self) ["dip_50"; "all"]%string.
Definition dip_200_on : bool :=
  mode_in (entry_mode self) ["dip_200"; "all"]%string.

(** The pattern that writes row [t]. *)
Definition fired1 : bool := crossover_on && cross_at.
Definition fired2 : bool := dip_50_on && dip_50_at && negb fired1.
Definition fired3 : bool :=
  dip_200_on && dip_200_at && negb fired1 && negb fired2.

(** The row after some of the patterns ran: [f1], [f2], [f3] tell which
    of them wrote it. *)
Definition stage (sf : Signals) (f1 f2 f3 : bool) : Prop :=
  sized n sf /\ ind sf = i /\
  zloc (signal sf) t = (if f1 || f2 || f3 then 1%Z else 0%Z) /\
  iloc (entry_price sf) t =
    (if f1 || f2 || f3 then Fin (close (row df t)) else NaN) /\
  iloc (stop_price sf) t =
    (if f3 then fmul (iloc (sma_200 i) t) (Fin (97 # 100))
     else if f2 then fmul (iloc (sma_50 i) t) (Fin (98 # 100))
     else if f1 then iloc (ema_slow i) t
     else NaN) /\
  sloc (entry_type sf) t =
    (if f3 then "dip_200" else if f2 then "dip_50"
     else if f1 then "crossover" else "")%string.

Lemma stage_initial : stage (initial i n) false false false.
Proof.
  unfold stage. split; [apply sized_initial|]. split; [reflexivity|].
  unfold zloc, iloc, sloc, initial; cbn [signal entry_price stop_price
                                         entry_type orb].
  now rewrite !nth_repeat_same.
Qed.

Lemma stage_crossover sf :
  stage sf false false false ->
  stage (pattern_crossover self (col_of ColClose df) sf) fired1 false false.
Proof.
  intros (Hsz & Hi & Hs & He & Hst & Hty).
  unfold pattern_crossover, fired1. fold crossover_on.
  destruct crossover_on; cbn [andb].
  2:{ unfold stage; auto 10. }
  cbv zeta. rewrite Hi.
  destruct (mark_at n (cross_above (ema_fast i) (ema_slow i))
              (col_of ColClose df) (ema_slow i)
              ("EMA " ++ str_of_nat (fast_ema self) ++ "/"
                 ++ str_of_nat (slow_ema self) ++ " bullish cross")%string
              "crossover" sf t Hsz Ht) as (Hs' & He' & Hst' & Hty' & Hi').
  unfold stage. split; [now apply sized_mark|].
  split; [congruence|].
  rewrite Hs', He', Hst', Hty', Hs, He, Hst, Hty.
  fold cross_at. rewrite iloc_col_of by exact Ht.
  destruct cross_at; cbn [orb]; auto.
Qed.

Lemma stage_dip_50 sf :
  stage sf fired1 false false ->
  stage (pattern_dip_50 self (col_of ColLow df) (col_of ColClose df) sf)
        fired1 fired2 false.
Proof.
  intros (Hsz & Hi & Hs & He & Hst & Hty).
  unfold pattern_dip_50, fired2. fold dip_50_on.
  destruct dip_50_on; cbn [andb].
  2:{ unfold stage; auto 10. }
  cbv zeta. rewrite Hi.
  set (mask := mask_and _ _).
  destruct (mark_at n mask (col_of ColClose df)
              (map (fun m => fmul m (Fin (98 # 100))) (sma_50 i))
              "50-day MA dip-buy (bounce)" "dip_50" sf t Hsz Ht)
    as (Hs' & He' & Hst' & Hty' & Hi').
  assert (Hmask : mloc mask t = dip_50_at && negb fired1).
  { subst mask. rewrite mloc_mask_and
      by (unfold dip; autorewrite with len; exact Ht).
    rewrite mloc_is_flat by (destruct Hsz as [-> _]; exact Ht).
    rewrite Hs. fold dip_50_at. rewrite !orb_false_r.
    destruct fired1; reflexivity. }
  unfold stage. split; [now apply sized_mark|].
  split; [congruence|].
  rewrite Hs', He', Hst', Hty', Hs, He, Hst, Hty, Hmask.
  rewrite iloc_col_of by exact Ht.
  rewrite iloc_map
    by (unfold i, indicators_of; cbn [sma_50];
        autorewrite with len; exact Ht).
  destruct dip_50_at, fired1; cbn [andb negb orb]; auto.
Qed.

Lemma stage_dip_200 sf :
  stage sf fired1 fired2 false ->
  stage (pattern_dip_200 self (col_of ColLow df) (col_of ColClose df) sf)
        fired1 fired2 fired3.
Proof.
  intros (Hsz & Hi & Hs & He & Hst & Hty).
  unfold pattern_dip_200, fired3. fold dip_200_on.
  destruct dip_200_on; cbn [andb].
  2:{ unfold stage; auto 10. }
  cbv zeta. rewrite Hi.
  set (mask := mask_and _ _).
  destruct (mark_at n mask (col_of ColClose df)
              (map (fun m => fmul m (Fin (97 # 100))) (sma_200 i))
              "200-day MA deep dip-buy" "dip_200" sf t Hsz Ht)
    as (Hs' & He' & Hst' & Hty' & Hi').
  assert (Hmask : mloc mask t = dip_200_at && negb fired1 && negb fired2).
  { subst mask. rewrite mloc_mask_and
      by (unfold dip; autorewrite with len; exact Ht).
    rewrite mloc_is_flat by (destruct Hsz as [-> _]; exact Ht).
    rewrite Hs. fold dip_200_at. rewrite !orb_false_r.
    destruct fired1, fired2, dip_200_at; reflexivity. }
  unfold stage. split; [now apply sized_mark|].
  split; [congruence|].
  rewrite Hs', He', Hst', Hty', Hs, He, Hst, Hty, Hmask.
  rewrite iloc_col_of by exact Ht.
  rewrite iloc_map
    by (unfold i, indicators_of; cbn [sma_200];
        autorewrite with len; exact Ht).
  destruct dip_200_at, fired1, fired2; cbn [andb negb orb]; auto.
Qed.

(** Row [t] of the frame [generate_signals] returns. *)
Lemma stage_signals_of : stage (signals_of self df) fired1 fired2 fired3.
Proof.
  unfold signals_of.
  apply stage_dip_200, stage_dip_50, stage_crossover, stage_initial.
Qed.

End Row.

End SwingRows.

Lemma swing_modes_all self :
  SwingTradingStrategy.entry_mode self = "all"%string ->
  SwingRows.crossover_on self = true /\ SwingRows.dip_50_on self = true
  /\ SwingRows.dip_200_on self = true.
Proof.
  intros H. unfold SwingRows.crossover_on, SwingRows.dip_50_on,
    SwingRows.dip_200_on. rewrite H. repeat split; reflexivity.
Qed.

(** The body of [generate_signals] after the indicators: the three
    patterns, in the order of the source, on the columns they read. *)
Definition run_patterns (self : SwingTradingStrategy.t)
    (low close : list fval) (i : SwingTradingStrategy.Indicators) (n : nat) :
    SwingTradingStrategy.Signals :=
  SwingTradingStrategy.pattern_dip_200 self low close
    (SwingTradingStrategy.pattern_dip_50 self low close
       (SwingTradingStrategy.pattern_crossover self close
          (SwingTradingStrategy.initial i n))).

Lemma mloc_mask_and_any a b t : mloc (mask_and a b) t = mloc a t && mloc b t.
Proof.
  destruct (Nat.lt_ge_cases t (length a)) as [H|H].
  - now apply mloc_mask_and.
  - unfold mloc at 1 2, mask_and.
    rewrite nth_tabulate_out by assumption.
    now rewrite (nth_overflow a false H).
Qed.

Lemma swing_calculate_indicators_ind self df sf :
  SwingTradingStrategy.generate_signals self df = inr sf ->
  SwingTradingStrategy.calculate_indicators self df
    = inr (SwingTradingStrategy.ind sf)
  /\ sf = run_patterns self (col_of ColLow df) (col_of ColClose df)
            (SwingTradingStrategy.ind sf) (length (rows df)).
Proof.
  intros Hsf.
  pose proof (SwingFacts.swing_generate_signals_inv _ _ _ Hsf) as E.
  rewrite SwingFacts.swing_generate_signals_eq in Hsf.
  rewrite SwingFacts.swing_calculate_indicators_eq.
  destruct (columns df ColClose); [|discriminate].
  destruct (SwingTradingStrategy.fast_ema self <? 1)%nat; [discriminate|].
  destruct (SwingTradingStrategy.slow_ema self <? 1)%nat; [discriminate|].
  destruct (columns df ColHigh); [|discriminate].
  destruct (columns df ColLow); [|discriminate].
  assert (Hi : SwingTradingStrategy.ind sf = SwingFacts.indicators_of self df).
  { subst sf. unfold SwingFacts.signals_of,
      SwingTradingStrategy.pattern_dip_200, SwingTradingStrategy.pattern_dip_50,
      SwingTradingStrategy.pattern_crossover.
    repeat match goal with
           | |- context [if ?c then _ else _] => destruct c
           end; reflexivity. }
  rewrite Hi. split; [reflexivity|]. subst sf. reflexivity.
Qed.

(** Row [t] after the three patterns ran in mode 'all', whatever the
    indicator columns hold. *)
Lemma run_patterns_row self low close i n t :
  SwingTradingStrategy.entry_mode self = "all"%string ->
  (t < n)%nat ->
  let sf := run_patterns self low close i n in
  let cross :=
    mloc (SwingTradingStrategy.cross_above
            (SwingTradingStrategy.ema_fast i)
            (SwingTradingStrategy.ema_slow i)) t in
  let dip_50 :=
    mloc (SwingTradingStrategy.dip low close
            (SwingTradingStrategy.sma_50 i)) t in
  let dip_200 :=
    mloc (SwingTradingStrategy.dip low close
            (SwingTradingStrategy.sma_200 i)) t in
  zloc (SwingTradingStrategy.signal sf) t
    = (if cross || dip_50 || dip_200 then 1%Z else 0%Z)
  /\ sloc (SwingTradingStrategy.entry_type sf) t
     = (if cross then "crossover"
        else if dip_50 then "dip_50"
        else if dip_200 then "dip_200" else "")%string
  /\ (cross = true ->
      iloc (SwingTradingStrategy.stop_price sf) t
      = iloc (SwingTradingStrategy.ema_slow i) t).
Proof.
  intros Hmode Ht. cbv zeta. unfold run_patterns.
  unfold SwingTradingStrategy.pattern_dip_200,
    SwingTradingStrategy.pattern_dip_50,
    SwingTradingStrategy.pattern_crossover.
  rewrite Hmode.
  change (SwingTradingStrategy.mode_in "all" ["crossover"; "all"]%string)
    with true.
  change (SwingTradingStrategy.mode_in "all" ["dip_50"; "all"]%string)
    with true.
  change (SwingTradingStrategy.mode_in "all" ["dip_200"; "all"]%string)
    with true.
  cbv iota zeta.
  set (sf0 := SwingTradingStrategy.initial i n).
  assert (Z0 : SwingFacts.sized n sf0) by apply SwingFacts.sized_initial.
  change (SwingTradingStrategy.ind sf0) with i.
  set (why1 := ("EMA " ++ _)%string).
  set (sf1 := SwingTradingStrategy.mark _ close
                (SwingTradingStrategy.ema_slow i) why1 "crossover" sf0).
  destruct (SwingFacts.mark_at n
              (SwingTradingStrategy.cross_above
                 (SwingTradingStrategy.ema_fast i)
                 (SwingTradingStrategy.ema_slow i))
              close (SwingTradingStrategy.ema_slow i) why1 "crossover"
              sf0 t Z0 Ht) as (S1 & _ & T1 & Y1 & I1).
  fold sf1 in S1, T1, Y1, I1.
  assert (Z1 : SwingFacts.sized n sf1) by now apply SwingFacts.sized_mark.
  unfold sf0, SwingTradingStrategy.initial, zloc, iloc, sloc in S1, T1, Y1;
    cbn [SwingTradingStrategy.signal SwingTradingStrategy.stop_price
         SwingTradingStrategy.entry_type] in S1, T1, Y1.
  rewrite nth_repeat_same in S1. rewrite nth_repeat_same in T1.
  rewrite nth_repeat_same in Y1.
  change (SwingTradingStrategy.ind sf0) with i in I1.
  fold (zloc (SwingTradingStrategy.signal sf1) t) in S1.
  fold (iloc (SwingTradingStrategy.stop_price sf1) t) in T1.
  fold (sloc (SwingTradingStrategy.entry_type sf1) t) in Y1.
  rewrite I1.
  set (m2 := mask_and _ (SwingTradingStrategy.is_flat
                           (SwingTradingStrategy.signal sf1))).
  set (sf2 := SwingTradingStrategy.mark m2 close _
                "50-day MA dip-buy (bounce)" "dip_50" sf1).
  destruct (SwingFacts.mark_at n m2 close
              (map (fun m => fmul m (Fin (98 # 100)))
                 (SwingTradingStrategy.sma_50 i))
              "50-day MA dip-buy (bounce)" "dip_50" sf1 t Z1 Ht)
    as (S2 & _ & T2 & Y2 & I2).
  fold sf2 in S2, T2, Y2, I2.
  assert (Z2 : SwingFacts.sized n sf2) by now apply SwingFacts.sized_mark.
  assert (M2 : mloc m2 t
               = mloc (SwingTradingStrategy.dip low close
                         (SwingTradingStrategy.sma_50 i)) t
                 && (zloc (SwingTradingStrategy.signal sf1) t =? 0)%Z).
  { unfold m2. rewrite mloc_mask_and_any.
    rewrite SwingFacts.mloc_is_flat by (destruct Z1 as [-> _]; exact Ht).
    reflexivity. }
  rewrite I2, I1.
  set (m3 := mask_and _ (SwingTradingStrategy.is_flat
                           (SwingTradingStrategy.signal sf2))).
  destruct (SwingFacts.mark_at n m3 close
              (map (fun m => fmul m (Fin (97 # 100)))
                 (SwingTradingStrategy.sma_200 i))
              "200-day MA deep dip-buy" "dip_200" sf2 t Z2 Ht)
    as (S3 & _ & T3 & Y3 & _).
  assert (M3 : mloc m3 t
               = mloc (SwingTradingStrategy.dip low close
                         (SwingTradingStrategy.sma_200 i)) t
                 && (zloc (SwingTradingStrategy.signal sf2) t =? 0)%Z).
  { unfold m3. rewrite mloc_mask_and_any.
    rewrite SwingFacts.mloc_is_flat by (destruct Z2 as [-> _]; exact Ht).
    reflexivity. }
  rewrite S3, Y3, T3, M3, S2, Y2, T2, M2, S1, Y1, T1.
  destruct (mloc (SwingTradingStrategy.cross_above _ _) t),
    (mloc (SwingTradingStrategy.dip low close
             (SwingTradingStrategy.sma_50 i)) t),
    (mloc (SwingTradingStrategy.dip low close
             (SwingTradingStrategy.sma_200 i)) t);
    cbn; repeat split; intros; try discriminate; reflexivity.
Qed.

(** C6.  With [entry_mode = 'all'] the three patterns run in the order
    crossover, 50-MA dip, 200-MA dip, on the indicator columns
    [calculate_indicators] computed, and a later pattern leaves alone a
    row an earlier one marked: a row on which the crossover mask holds
    carries [entry_type = 'crossover'] (and the slow EMA as stop) whether
    or not a dip mask holds there too; the 50-MA dip writes the rows its
    mask holds on that the crossover left flat; and the 200-MA dip
    writes exactly the rows its mask holds on that both left flat.  The
    order does not depend on what the indicator columns hold: the same
    is true of the three patterns run on any columns. *)
Theorem swing_first_match_wins self :
  SwingTradingStrategy.entry_mode self = "all"%string ->
  (forall df sf t,
     SwingTradingStrategy.generate_signals self df = inr sf ->
     (t < length (rows df))%nat ->
     let i := SwingTradingStrategy.ind sf in
     let cross :=
       mloc (SwingTradingStrategy.cross_above
               (SwingTradingStrategy.ema_fast i)
               (SwingTradingStrategy.ema_slow i)) t in
     let dip_50 :=
       mloc (SwingTradingStrategy.dip (col_of ColLow df) (col_of ColClose df)
               (SwingTradingStrategy.sma_50 i)) t in
     let dip_200 :=
       mloc (SwingTradingStrategy.dip (col_of ColLow df) (col_of ColClose df)
               (SwingTradingStrategy.sma_200 i)) t in
     SwingTradingStrategy.calculate_indicators self df = inr i
     /\ (cross = true ->
          sloc (SwingTradingStrategy.entry_type sf) t = "crossover"%string
          /\ zloc (SwingTradingStrategy.signal sf) t = 1%Z
          /\ iloc (SwingTradingStrategy.stop_price sf) t
             = iloc (SwingTradingStrategy.ema_slow i) t)
     /\ (sloc (SwingTradingStrategy.entry_type sf) t = "dip_50"%string
         <-> dip_50 = true /\ cross = false)
     /\ (sloc (SwingTradingStrategy.entry_type sf) t = "dip_200"%string
         <-> dip_200 = true /\ cross = false /\ dip_50 = false)
     /\ (cross = false -> dip_50 = false -> dip_200 = false ->
         sloc (SwingTradingStrategy.entry_type sf) t = EmptyString
         /\ zloc (SwingTradingStrategy.signal sf) t = 0%Z))
  /\ (forall low close i n t,
     (t < n)%nat ->
     let sf := run_patterns self low close i n in
     let cross :=
       mloc (SwingTradingStrategy.cross_above
               (SwingTradingStrategy.ema_fast i)
               (SwingTradingStrategy.ema_slow i)) t in
     let dip_50 :=
       mloc (SwingTradingStrategy.dip low close
               (SwingTradingStrategy.sma_50 i)) t in
     let dip_200 :=
       mloc (SwingTradingStrategy.dip low close
               (SwingTradingStrategy.sma_200 i)) t in
     (cross = true ->
        sloc (SwingTradingStrategy.entry_type sf) t = "crossover"%string
        /\ zloc (SwingTradingStrategy.signal sf) t = 1%Z
        /\ iloc (SwingTradingStrategy.stop_price sf) t
           = iloc (SwingTradingStrategy.ema_slow i) t)
     /\ (sloc (SwingTradingStrategy.entry_type sf) t = "dip_50"%string
         <-> dip_50 = true /\ cross = false)
     /\ (sloc (SwingTradingStrategy.entry_type sf) t = "dip_200"%string
         <-> dip_200 = true /\ cross = false /\ dip_50 = false)
     /\ (cross = false -> dip_50 = false -> dip_200 = false ->
         sloc (SwingTradingStrategy.entry_type sf) t = EmptyString
         /\ zloc (SwingTradingStrategy.signal sf) t = 0%Z)).
Proof.
  intros Hmode.
  assert (G : forall low close i n t,
     (t < n)%nat ->
     let sf := run_patterns self low close i n in
     let cross :=
       mloc (SwingTradingStrategy.cross_above
               (SwingTradingStrategy.ema_fast i)
               (SwingTradingStrategy.ema_slow i)) t in
     let dip_50 :=
       mloc (SwingTradingStrategy.dip low close
               (SwingTradingStrategy.sma_50 i)) t in
     let dip_200 :=
       mloc (SwingTradingStrategy.dip low close
               (SwingTradingStrategy.sma_200 i)) t in
     (cross = true ->
        sloc (SwingTradingStrategy.entry_type sf) t = "crossover"%string
        /\ zloc (SwingTradingStrategy.signal sf) t = 1%Z
        /\ iloc (SwingTradingStrategy.stop_price sf) t
           = iloc (SwingTradingStrategy.ema_slow i) t)
     /\ (sloc (SwingTradingStrategy.entry_type sf) t = "dip_50"%string
         <-> dip_50 = true /\ cross = false)
     /\ (sloc (SwingTradingStrategy.entry_type sf) t = "dip_200"%string
         <-> dip_200 = true /\ cross = false /\ dip_50 = false)
     /\ (cross = false -> dip_50 = false -> dip_200 = false ->
         sloc (SwingTradingStrategy.entry_type sf) t = EmptyString
         /\ zloc (SwingTradingStrategy.signal sf) t = 0%Z)).
  { intros low close i n t Ht.
    destruct (run_patterns_row self low close i n t Hmode Ht)
      as (Hs & Hty & Hst).
    cbv zeta in *. rewrite Hs, Hty.
    destruct (mloc (SwingTradingStrategy.cross_above _ _) t),
      (mloc (SwingTradingStrategy.dip low close
               (SwingTradingStrategy.sma_50 i)) t),
      (mloc (SwingTradingStrategy.dip low close
               (SwingTradingStrategy.sma_200 i)) t);
      cbn [orb]; repeat split; intros; try discriminate; auto;
      repeat match goal with
      | H : _ /\ _ |- _ => destruct H
      end; try discriminate; auto. }
  split; [|exact G].
  intros df sf t Hsf Ht.
  destruct (swing_calculate_indicators_ind self df sf Hsf) as [Hi Hrun].
  cbv zeta. split; [exact Hi|].
  pose proof (G (col_of ColLow df) (col_of ColClose df)
                (SwingTradingStrategy.ind sf) (length (rows df)) t Ht) as H.
  cbv zeta in H. rewrite <- Hrun in H. exact H.
Qed.

(** *** A run: a crossover and a 50-MA dip on the same bar. *)

Definition swing_short_windows : SwingTradingStrategy.t :=
  {| SwingTradingStrategy.name := "Swing";
     SwingTradingStrategy.fast_ema := 5;
     SwingTradingStrategy.slow_ema := 20;
     SwingTradingStrategy.ma_50 := 2;
     SwingTradingStrategy.ma_200 := 3;
     SwingTradingStrategy.rsi_period := 14;
     SwingTradingStrategy.rsi_profit_target := 70;
     SwingTradingStrategy.atr_period := 14;
     SwingTradingStrategy.entry_mode := "all" |}.

Definition surge_bars : list Bar :=
  [ still_bar 1 100; still_bar 2 50; still_bar 3 51;
    {| date := 4; open := 100; high := 200; low := 100; close := 200;
       volume := 1000 |} ].

Lemma swing_first_match_wins_witness :
  exists sf,
    SwingTradingStrategy.generate_signals swing_short_windows
      (of_bars surge_bars) = inr sf
    /\ mloc (SwingTradingStrategy.dip (col_of ColLow (of_bars surge_bars))
               (col_of ColClose (of_bars surge_bars))
               (SwingTradingStrategy.sma_50 (SwingTradingStrategy.ind sf))) 3
       = true
    /\ sloc (SwingTradingStrategy.entry_type sf) 3 = "crossover"%string.
Proof.
  destruct (SwingTradingStrategy.generate_signals swing_short_windows
              (of_bars surge_bars)) as [e|sf] eqn:Hgen.
  - vm_compute in Hgen. discriminate.
  - exists sf. split; [reflexivity|].
    assert (Ht : (3 < length (rows (of_bars surge_bars)))%nat)
      by (vm_compute; lia).
    destruct (proj1 (swing_first_match_wins swing_short_windows eq_refl)
                (of_bars surge_bars) sf 3%nat Hgen Ht)
      as (_ & Hc & _).
    assert (Esf : sf = SwingFacts.signals_of swing_short_windows
                         (of_bars surge_bars))
      by (apply SwingFacts.swing_generate_signals_inv; exact Hgen).
    split.
    + rewrite Esf. vm_compute. reflexivity.
    + apply Hc. rewrite Esf. vm_compute. reflexivity.
Defined.

(* ================================================================== *)
(** ** RSI                                                             *)
(* ================================================================== *)

Section RSI.

Import StrategyBase.

Variable closes : list Q.
Let series := map Fin closes.

Lemma length_series : length series = length closes.
Proof. apply length_map. Qed.

(** The close-to-close change: NaN on the first row, finite after. *)
Lemma iloc_diff_series t :
  (t < length closes)%nat ->
  iloc (diff series) t =
    if (t <? 1)%nat then NaN
    else Fin (nth t closes 0 - nth (t - 1) closes 0).
Proof.
  intros Ht. unfold diff.
  rewrite iloc_zip_with by (rewrite length_series; lia).
  rewrite iloc_shift by (rewrite length_series; lia).
  unfold series.
  rewrite (iloc_map_Fin (fun q => q) closes 0) by lia.
  destruct (Nat.ltb_spec t 1); [reflexivity|].
  rewrite (iloc_map_Fin (fun q => q) closes 0) by lia.
  reflexivity.
Qed.

(** The gains and the losses averaged by [_calculate_rsi]. *)
Definition gains : list fval :=
  where_ (diff series) (map (fun d => fgt d (Fin 0)) (diff series)) (Fin 0).

Definition losses : list fval :=
  map fneg
    (where_ (diff series) (map (fun d => flt d (Fin 0)) (diff series)) (Fin 0)).

Lemma length_gains : length gains = length closes.
Proof. unfold gains. autorewrite with len. apply length_series. Qed.

Lemma length_losses : length losses = length closes.
Proof. unfold losses. autorewrite with len. apply length_series. Qed.

Lemma gains_nonneg : Forall (fin_sat (fun q => 0 <= q)) gains.
Proof.
  apply Forall_iloc. intros t Ht. rewrite length_gains in Ht.
  unfold gains.
  rewrite iloc_where by (autorewrite with len; rewrite length_series; lia).
  rewrite mloc_map by (autorewrite with len; rewrite length_series; lia).
  rewrite iloc_diff_series by assumption.
  destruct (t <? 1)%nat; [simpl; apply Qle_refl|].
  unfold fgt. cbn [flt].
  destruct (Qlt_bool 0 _) eqn:E; simpl.
  - apply Qlt_le_weak, Qlt_bool_iff, E.
  - apply Qle_refl.
Qed.

Lemma losses_nonneg : Forall (fin_sat (fun q => 0 <= q)) losses.
Proof.
  apply Forall_iloc. intros t Ht. rewrite length_losses in Ht.
  unfold losses.
  rewrite iloc_map by (autorewrite with len; rewrite length_series; lia).
  rewrite iloc_where by (autorewrite with len; rewrite length_series; lia).
  rewrite mloc_map by (autorewrite with len; rewrite length_series; lia).
  rewrite iloc_diff_series by assumption.
  destruct (t <? 1)%nat; [simpl; unfold Qle; simpl; lia|].
  cbn [flt].
  destruct (Qlt_bool _ 0) eqn:E; simpl.
  - apply Qlt_bool_iff in E.
    apply (Qopp_le_compat _ 0), Qlt_le_weak, E.
  - unfold Qle; simpl; lia.
Qed.

Lemma rsi_gain_eq period : rsi_gain series period = rolling_mean period gains.
Proof. reflexivity. Qed.

Lemma rsi_loss_eq period : rsi_loss series period = rolling_mean period losses.
Proof. reflexivity. Qed.

(** A defined average loss means the window is full. *)
Lemma rsi_loss_defined_full period t :
  (t < length closes)%nat ->
  defined (iloc (rsi_loss series period) t) ->
  (1 <= period)%nat /\ (period <= t + 1)%nat.
Proof.
  intros Ht. rewrite rsi_loss_eq. unfold rolling_mean.
  rewrite iloc_rolling by (rewrite length_losses; lia).
  destruct (Nat.eqb_spec period 0); [simpl; contradiction|].
  destruct (Nat.ltb_spec (t + 1) period); [simpl; contradiction|].
  intros _. lia.
Qed.

Lemma iloc_rsi period t :
  (t < length closes)%nat ->
  iloc (_calculate_rsi series period) t =
    fsub (Fin 100)
      (fdiv (Fin 100)
         (fadd (Fin 1)
            (fdiv (iloc (rsi_gain series period) t)
                  (iloc (rsi_loss series period) t)))).
Proof.
  intros Ht. unfold _calculate_rsi. cbv zeta.
  rewrite iloc_map
    by (rewrite rsi_gain_eq; autorewrite with len; rewrite length_gains; lia).
  rewrite iloc_zip_with
    by (rewrite rsi_gain_eq; autorewrite with len; rewrite length_gains; lia).
  reflexivity.
Qed.

(** C5 (amended).  On a row where the average loss is zero, the average
    gain is a finite number [g >= 0]; the RSI is 100 when [g > 0], and
    NaN (undefined) when [g = 0], the constant-price stretch, where the
    source divides zero by zero. *)
Theorem rsi_zero_average_loss period t :
  (t < length closes)%nat ->
  feq (iloc (rsi_loss series period) t) (Fin 0) ->
  exists g,
    iloc (rsi_gain series period) t = Fin g /\ 0 <= g
    /\ (0 < g -> feq (iloc (_calculate_rsi series period) t) (Fin 100))
    /\ (g == 0 -> iloc (_calculate_rsi series period) t = NaN).
Proof.
  intros Ht Hloss.
  destruct (iloc (rsi_loss series period) t) as [l| | |] eqn:El;
    simpl in Hloss; try contradiction.
  assert (Hdef : defined (iloc (rsi_loss series period) t))
    by (rewrite El; exact I).
  destruct (rsi_loss_defined_full period t Ht Hdef) as [H1 Hw].
  destruct (rolling_mean_full _ gains period t gains_nonneg H1 Hw)
    as (qs & _ & Hqs & Hlen & Hg); [rewrite length_gains; lia|].
  rewrite <- rsi_gain_eq in Hg.
  exists (Qsum qs / Qnat period). split; [exact Hg|].
  split.
  { apply Qdiv_nonneg; [now apply Qsum_nonneg | now apply Qnat_pos]. }
  rewrite iloc_rsi, Hg, El by assumption.
  cbn [fdiv].
  assert (Hz : Qeq_bool l 0 = true) by now apply Qeq_bool_iff.
  rewrite Hz. unfold inf_of_sign.
  split.
  - intros Hpos. apply Qgt_alt in Hpos. rewrite Hpos.
    simpl. reflexivity.
  - intros Hzero. apply Qeq_alt in Hzero. rewrite Hzero. reflexivity.
Qed.

End RSI.

(** On three equal closes the period-2 average loss of the last row is
    zero and its RSI is NaN, not 100. *)
Lemma rsi_constant_prices_nan :
  (2 <= 2)%nat /\
  feq (iloc (StrategyBase.rsi_loss (map Fin [5; 5; 5]) 2) 2) (Fin 0) /\
  ~ feq (iloc (StrategyBase._calculate_rsi (map Fin [5; 5; 5]) 2) 2) (Fin 100).
Proof.
  split; [lia|]. split; [vm_compute; reflexivity|].
  vm_compute. auto.
Qed.

Lemma rsi_zero_average_loss_witness :
  exists g,
    iloc (StrategyBase.rsi_gain (map Fin [5; 6; 7]) 2) 2 = Fin g /\ 0 <= g
    /\ (0 < g ->
        feq (iloc (StrategyBase._calculate_rsi (map Fin [5; 6; 7]) 2) 2)
            (Fin 100))
    /\ (g == 0 ->
        iloc (StrategyBase._calculate_rsi (map Fin [5; 6; 7]) 2) 2 = NaN).
Proof.
  apply (rsi_zero_average_loss [5; 6; 7] 2 2).
  - vm_compute; lia.
  - vm_compute; reflexivity.
Defined.

(* ================================================================== *)
(** ** Series shorter than the lookback                                *)
(* ================================================================== *)

(** The number of rows each variant needs before its entry mask can
    hold on the final row. *)







Lemma ltb_1_false n : (1 <= n)%nat -> (n <? 1)%nat = false.
Proof. intros H. now apply Nat.ltb_ge. Qed.













(** *** A run: thirty bars against the default lookbacks (51, 200 and
    50 rows) and against the 50-bar dip of the swing variant. *)

Definition thirty_bars : list Bar := map quiet_bar (seq 0 30).




(* ================================================================== *)
(** ** Flat rows and marked rows                                       *)
(* ================================================================== *)

(** A row is consistent when a flat row has no entry and no stop, and a
    marked row has an entry, and a stop whenever [stop_ok] holds. *)
Definition row_consistent (stop_ok : Prop) (sig : Z) (entry stop : fval) : Prop :=
  (sig = 0%Z -> entry = NaN /\ stop = NaN)
  /\ (sig <> 0%Z -> defined entry /\ (stop_ok -> defined stop)).

Lemma ma101_rows_consistent self df sf t :
  MA101Strategy.generate_signals self df = inr sf ->
  (t < length (rows df))%nat ->
  row_consistent True (zloc (MA101Strategy.signal sf) t)
    (iloc (MA101Strategy.entry_price sf) t)
    (iloc (MA101Strategy.stop_price sf) t).
Proof.
  intros Hsf Ht. apply MA101Facts.ma101_generate_signals_inv in Hsf. subst sf.
  rewrite MA101Facts.ma101_signal_at, MA101Facts.ma101_entry_at, MA101Facts.ma101_stop_at
    by assumption.
  unfold row_consistent.
  destruct (mloc _ t); split; intros H; try easy; simpl; auto.
Qed.

Lemma htf_rows_consistent self df sf t :
  QullamaggieHTFStrategy.generate_signals self df = inr sf ->
  (t < length (rows df))%nat ->
  row_consistent True (zloc (QullamaggieHTFStrategy.signal sf) t)
    (iloc (QullamaggieHTFStrategy.entry_price sf) t)
    (iloc (QullamaggieHTFStrategy.stop_price sf) t).
Proof.
  intros Hsf Ht. apply HTFFacts.htf_generate_signals_inv in Hsf.
  destruct Hsf as [-> _].
  rewrite HTFFacts.htf_signal_at, HTFFacts.htf_entry_at, HTFFacts.htf_stop_at
    by assumption.
  unfold row_consistent.
  destruct (mloc _ t); split; intros H; try easy; simpl; auto.
Qed.

(** A dip mask that holds reads a defined average. *)
Lemma swing_dip_defined w df t :
  (t < length (rows df))%nat ->
  mloc (SwingTradingStrategy.dip (col_of ColLow df) (col_of ColClose df)
          (rolling_mean w (col_of ColClose df))) t = true ->
  defined (iloc (rolling_mean w (col_of ColClose df)) t).
Proof.
  intros Ht. rewrite SwingFacts.mloc_dip by (autorewrite with len; lia).
  intros H. apply andb_prop in H. destruct H as [H _].
  apply andb_prop in H. destruct H as [_ H].
  destruct (rolling_mean_defined_or_nan _ (col_of ColClose df) w t
              (Forall_defined_col_of ColClose df)) as [E|E];
    [autorewrite with len; lia | | exact E].
  rewrite E, fgt_nan_r in H. discriminate.
Qed.

Lemma defined_fmul_Fin x q : defined x -> defined (fmul x (Fin q)).
Proof. destruct x; simpl; tauto. Qed.

Lemma swing_rows_consistent self df sf t :
  SwingTradingStrategy.generate_signals self df = inr sf ->
  (t < length (rows df))%nat ->
  row_consistent True (zloc (SwingTradingStrategy.signal sf) t)
    (iloc (SwingTradingStrategy.entry_price sf) t)
    (iloc (SwingTradingStrategy.stop_price sf) t).
Proof.
  intros Hsf Ht. apply SwingFacts.swing_generate_signals_inv in Hsf. subst sf.
  destruct (SwingRows.stage_signals_of self df t Ht)
    as (_ & _ & Hs & He & Hst & _).
  rewrite Hs, He, Hst. unfold row_consistent.
  destruct (SwingRows.fired3 self df t) eqn:E3.
  { rewrite !orb_true_r. split; [discriminate|]. intros _.
    split; [exact I|]. intros _. apply defined_fmul_Fin.
    unfold SwingRows.fired3 in E3.
    apply andb_prop in E3. destruct E3 as [E3 _].
    apply andb_prop in E3. destruct E3 as [E3 _].
    apply andb_prop in E3. destruct E3 as [_ E3].
    now apply swing_dip_defined. }
  destruct (SwingRows.fired2 self df t) eqn:E2.
  { rewrite !orb_true_r. cbn [orb]. split; [discriminate|]. intros _.
    split; [exact I|]. intros _. apply defined_fmul_Fin.
    unfold SwingRows.fired2 in E2.
    apply andb_prop in E2. destruct E2 as [E2 _].
    apply andb_prop in E2. destruct E2 as [_ E2].
    now apply swing_dip_defined. }
  destruct (SwingRows.fired1 self df t) eqn:E1; cbn [orb].
  - split; [discriminate|]. intros _. split; [exact I|]. intros _.
    unfold SwingFacts.indicators_of; cbn [SwingTradingStrategy.ema_slow].
    rewrite iloc_ema by (unfold SwingFacts.closes; rewrite length_map; lia).
    exact I.
  - split; [auto | congruence].
Qed.

(** A defined shifted rolling cell has [w] earlier rows. *)
Lemma rolling_shift1_defined agg w s t :
  (t < length s)%nat ->
  iloc (rolling agg w (shift 1 s)) t <> NaN ->
  (1 <= w)%nat /\ (w <= t)%nat.
Proof.
  intros Ht H.
  destruct (Nat.eq_dec w 0) as [->|Hw].
  { exfalso. apply H. rewrite iloc_rolling by (autorewrite with len; lia).
    reflexivity. }
  destruct (Nat.lt_ge_cases t w) as [Hlt|Hge]; [|lia].
  exfalso. apply H. now apply rolling_shift1_short.
Qed.

(** When the Donchian stop is defined on a marked row: the exit channel
    is not longer than the entry channel, or the ATR window fits in the
    rows the entry channel needs. *)
Definition donchian_stop_ok (self : DonchianStrategy.t) : Prop :=
  (DonchianStrategy.use_atr_stop self = false
   /\ (1 <= DonchianStrategy.exit_period self)%nat
   /\ (DonchianStrategy.exit_period self
       <= DonchianStrategy.entry_period self)%nat)
  \/ (DonchianStrategy.use_atr_stop self = true
      /\ (1 <= DonchianStrategy.atr_period self)%nat
      /\ (DonchianStrategy.atr_period self
          <= DonchianStrategy.entry_period self + 1)%nat).

Lemma donchian_stops_defined self df t :
  (t < length (rows df))%nat ->
  (1 <= DonchianStrategy.entry_period self)%nat ->
  (DonchianStrategy.entry_period self <= t)%nat ->
  donchian_stop_ok self ->
  defined (DonchianFacts.long_stop_at self df t)
  /\ defined (DonchianFacts.short_stop_at self df t).
Proof.
  intros Ht H1 Hn Hok.
  unfold DonchianFacts.long_stop_at, DonchianFacts.short_stop_at,
    DonchianFacts.indicators_of.
  cbn [DonchianStrategy.atr DonchianStrategy.donchian_low_exit
       DonchianStrategy.donchian_high_exit].
  destruct Hok as [(-> & Hx1 & Hx) | (-> & Ha1 & Ha)].
  - destruct (rolling_min_shift1_col ColLow
                (DonchianStrategy.exit_period self) df t) as (lo & -> & _);
      try lia.
    destruct (rolling_max_shift1_col ColHigh
                (DonchianStrategy.exit_period self) df t) as (hi & -> & _);
      try lia.
    split; exact I.
  - destruct (rolling_mean_full _ (true_range df)
                (DonchianStrategy.atr_period self) t
                (Forall_defined_true_range df))
      as (qs & _ & _ & _ & ->); try lia.
    { autorewrite with len. lia. }
    split; exact I.
Qed.

Lemma donchian_rows_consistent self df sf t :
  DonchianStrategy.generate_signals self df = inr sf ->
  (t < length (rows df))%nat ->
  row_consistent (donchian_stop_ok self)
    (zloc (DonchianStrategy.signal sf) t)
    (iloc (DonchianStrategy.entry_price sf) t)
    (iloc (DonchianStrategy.stop_price sf) t).
Proof.
  intros Hsf Ht. apply DonchianFacts.donchian_generate_signals_inv in Hsf. subst sf.
  rewrite DonchianFacts.donchian_signal_at, DonchianFacts.donchian_entry_at,
    DonchianFacts.donchian_stop_at by assumption.
  unfold row_consistent.
  destruct (DonchianFacts.short_at self df t) eqn:Es.
  { cbn [orb]. split; [discriminate|]. intros _. split; [exact I|].
    intros Hok. unfold DonchianFacts.short_at in Es.
    apply andb_prop in Es. destruct Es as [_ Es].
    unfold DonchianFacts.indicators_of in Es.
    cbn [DonchianStrategy.donchian_low_entry] in Es.
    destruct (rolling_shift1_defined minimum
                (DonchianStrategy.entry_period self)
                (col_of ColLow df) t) as [H1 Hn].
    - autorewrite with len. exact Ht.
    - intros E. unfold rolling_min in Es. rewrite E, flt_nan_r in Es.
      discriminate.
    - apply (donchian_stops_defined self df t Ht H1 Hn Hok). }
  destruct (DonchianFacts.long_at self df t) eqn:El; cbn [orb].
  - split; [discriminate|]. intros _. split; [exact I|].
    intros Hok. unfold DonchianFacts.long_at in El.
    unfold DonchianFacts.indicators_of in El.
    cbn [DonchianStrategy.donchian_high_entry] in El.
    destruct (rolling_shift1_defined maximum
                (DonchianStrategy.entry_period self)
                (col_of ColHigh df) t) as [H1 Hn].
    + autorewrite with len. exact Ht.
    + intros E. unfold rolling_max in El. rewrite E, fgt_nan_r in El.
      discriminate.
    + apply (donchian_stops_defined self df t Ht H1 Hn Hok).
  - split; [auto | congruence].
Qed.

(** C8 (amended).  In the frame any variant's [generate_signals]
    returns, a flat row has undefined entry and stop prices, and a
    marked row has a defined entry price; its stop price is defined too
    for the crossover, swing and high-tight-flag variants, and for the
    Donchian variant when the stop fits in the entry lookback: with the
    exit-channel stop, [1 <= exit_period <= entry_period]; with the ATR
    stop, [1 <= atr_period <= entry_period + 1]. *)
Theorem signal_rows_consistent :
  (forall self df sf t,
     MA101Strategy.generate_signals self df = inr sf ->
     (t < length (rows df))%nat ->
     row_consistent True (zloc (MA101Strategy.signal sf) t)
       (iloc (MA101Strategy.entry_price sf) t)
       (iloc (MA101Strategy.stop_price sf) t))
  /\ (forall self df sf t,
     SwingTradingStrategy.generate_signals self df = inr sf ->
     (t < length (rows df))%nat ->
     row_consistent True (zloc (SwingTradingStrategy.signal sf) t)
       (iloc (SwingTradingStrategy.entry_price sf) t)
       (iloc (SwingTradingStrategy.stop_price sf) t))
  /\ (forall self df sf t,
     QullamaggieHTFStrategy.generate_signals self df = inr sf ->
     (t < length (rows df))%nat ->
     row_consistent True (zloc (QullamaggieHTFStrategy.signal sf) t)
       (iloc (QullamaggieHTFStrategy.entry_price sf) t)
       (iloc (QullamaggieHTFStrategy.stop_price sf) t))
  /\ (forall self df sf t,
     DonchianStrategy.generate_signals self df = inr sf ->
     (t < length (rows df))%nat ->
     row_consistent (donchian_stop_ok self)
       (zloc (DonchianStrategy.signal sf) t)
       (iloc (DonchianStrategy.entry_price sf) t)
       (iloc (DonchianStrategy.stop_price sf) t)).
Proof.
  split; [exact ma101_rows_consistent|].
  split; [exact swing_rows_consistent|].
  split; [exact htf_rows_consistent|].
  exact donchian_rows_consistent.
Qed.

(** *** A run: an ATR stop whose window is longer than the series. *)

Definition donchian_atr_stop : DonchianStrategy.t :=
  {| DonchianStrategy.name := "Donchian";
     DonchianStrategy.entry_period := 2;
     DonchianStrategy.exit_period := 1;
     DonchianStrategy.atr_period := 14;
     DonchianStrategy.atr_stop_multiple := 3;
     DonchianStrategy.use_atr_stop := true;
     DonchianStrategy.allow_shorts := false |}.

(** The third bar breaks out over the two before it and is marked long
    with entry 15, but the 14-bar ATR is undefined after three bars and
    so is the stop. *)
Lemma donchian_marked_row_without_stop :
  exists sf,
    DonchianStrategy.generate_signals donchian_atr_stop (of_bars new_high_bars)
      = inr sf
    /\ zloc (DonchianStrategy.signal sf) 2 = 1%Z
    /\ iloc (DonchianStrategy.entry_price sf) 2 = Fin 15
    /\ iloc (DonchianStrategy.stop_price sf) 2 = NaN
    /\ ~ defined (iloc (DonchianStrategy.stop_price sf) 2).
Proof.
  eexists. split; [vm_compute; reflexivity|].
  repeat split; try (vm_compute; reflexivity).
  vm_compute. auto.
Qed.

Lemma signal_rows_consistent_witness :
  defined (iloc (DonchianStrategy.entry_price
                   (DonchianFacts.signals_of donchian_2_1
                      (of_bars new_high_bars))) 2)
  /\ defined (iloc (DonchianStrategy.stop_price
                      (DonchianFacts.signals_of donchian_2_1
                         (of_bars new_high_bars))) 2)
  /\ iloc (MA101Strategy.entry_price
             (MA101Facts.signals_of ma101_slow_stop (of_bars rebound_bars))) 0
     = NaN
  /\ defined (iloc (SwingTradingStrategy.stop_price
                      (SwingFacts.signals_of swing_short_windows
                         (of_bars surge_bars))) 3)
  /\ defined (iloc (QullamaggieHTFStrategy.stop_price
                      (HTFFacts.signals_of htf_default
                         (of_bars breakout_bars))) 50).
Proof.
  destruct signal_rows_consistent as (HM & HS & HH & HD).
  assert (D : row_consistent (donchian_stop_ok donchian_2_1) _ _ _)
    by (apply (HD donchian_2_1 (of_bars new_high_bars)
                 (DonchianFacts.signals_of donchian_2_1 (of_bars new_high_bars))
                 2%nat); [vm_compute; reflexivity | vm_compute; lia]).
  assert (M : row_consistent True _ _ _)
    by (apply (HM ma101_slow_stop (of_bars rebound_bars)
                 (MA101Facts.signals_of ma101_slow_stop (of_bars rebound_bars))
                 0%nat); [vm_compute; reflexivity | vm_compute; lia]).
  assert (S : row_consistent True _ _ _)
    by (apply (HS swing_short_windows (of_bars surge_bars)
                 (SwingFacts.signals_of swing_short_windows (of_bars surge_bars))
                 3%nat); [vm_compute; reflexivity | vm_compute; lia]).
  assert (H : row_consistent True _ _ _)
    by (apply (HH htf_default (of_bars breakout_bars)
                 (HTFFacts.signals_of htf_default (of_bars breakout_bars))
                 50%nat); [vm_compute; reflexivity | vm_compute; lia]).
  destruct D as [_ D]. destruct M as [M _]. destruct S as [_ S].
  destruct H as [_ H].
  assert (Dn : zloc (DonchianStrategy.signal
             (DonchianFacts.signals_of donchian_2_1 (of_bars new_high_bars))) 2
           <> 0%Z) by (vm_compute; discriminate).
  assert (Sn : zloc (SwingTradingStrategy.signal
             (SwingFacts.signals_of swing_short_windows (of_bars surge_bars))) 3
           <> 0%Z) by (vm_compute; discriminate).
  assert (Hn : zloc (QullamaggieHTFStrategy.signal
             (HTFFacts.signals_of htf_default (of_bars breakout_bars))) 50
           <> 0%Z) by (vm_compute; discriminate).
  assert (Mz : zloc (MA101Strategy.signal
             (MA101Facts.signals_of ma101_slow_stop (of_bars rebound_bars))) 0
           = 0%Z) by (vm_compute; reflexivity).
  split; [exact (proj1 (D Dn))|].
  split.
  { apply (proj2 (D Dn)). left. vm_compute. repeat split; lia. }
  split; [exact (proj1 (M Mz))|].
  split; [exact (proj2 (S Sn) I)|].
  exact (proj2 (H Hn) I).
Defined.

(* ================================================================== *)
(** ** Malformed frames                                                *)
(* ================================================================== *)





(** The OHLCV columns a variant reads; none reads [open]. *)
Definition reads_hlc (c : column) : bool :=
  match c with
  | ColHigh | ColLow | ColClose => true
  | ColOpen | ColVolume => false
  end.

Definition reads_hlcv (c : column) : bool :=
  match c with
  | ColHigh | ColLow | ColClose | ColVolume => true
  | ColOpen => false
  end.

















(** *** A run: dates running backwards and no [open] column. *)




(* ================================================================== *)
(** ** Entry prices of the other variants                              *)
(* ================================================================== *)

(** Unlike the high tight flag, the crossover, Donchian and swing
    variants enter a marked row at its close. *)
Lemma other_variants_enter_at_close :
  (forall self df sf t,
     MA101Strategy.generate_signals self df = inr sf ->
     (t < length (rows df))%nat ->
     zloc (MA101Strategy.signal sf) t <> 0%Z ->
     iloc (MA101Strategy.entry_price sf) t = Fin (close (row df t)))
  /\ (forall self df sf t,
     DonchianStrategy.generate_signals self df = inr sf ->
     (t < length (rows df))%nat ->
     zloc (DonchianStrategy.signal sf) t <> 0%Z ->
     iloc (DonchianStrategy.entry_price sf) t = Fin (close (row df t)))
  /\ (forall self df sf t,
     SwingTradingStrategy.generate_signals self df = inr sf ->
     (t < length (rows df))%nat ->
     zloc (SwingTradingStrategy.signal sf) t <> 0%Z ->
     iloc (SwingTradingStrategy.entry_price sf) t = Fin (close (row df t))).
Proof.
  repeat split.
  - intros self df sf t Hsf Ht.
    apply MA101Facts.ma101_generate_signals_inv in Hsf. subst sf.
    rewrite MA101Facts.ma101_signal_at, MA101Facts.ma101_entry_at
      by assumption.
    destruct (mloc _ t); congruence.
  - intros self df sf t Hsf Ht.
    apply DonchianFacts.donchian_generate_signals_inv in Hsf. subst sf.
    rewrite DonchianFacts.donchian_signal_at,
      DonchianFacts.donchian_entry_at by assumption.
    destruct (DonchianFacts.short_at self df t); [reflexivity|].
    destruct (DonchianFacts.long_at self df t); [reflexivity|].
    congruence.
  - intros self df sf t Hsf Ht.
    apply SwingFacts.swing_generate_signals_inv in Hsf. subst sf.
    destruct (SwingRows.stage_signals_of self df t Ht)
      as (_ & _ & Hs & He & _).
    rewrite Hs, He.
    destruct (_ || _ || _); congruence.
Qed.

(* ================================================================== *)
(** * Further properties of the code                                   *)
(* ================================================================== *)

(** ** Position sizing: what makes it raise                            *)

Section PositionFailures.

Import PrimFloat FloatOps SpecFloat FloatAxioms PyFloat Binary64 StrategyBase.

(** X2.  On arguments that are not all finite and positive
    [calculate_position_size] has three ways to fail.  A NaN entry or stop (the stop of a Donchian record
    can be one) always ends in the ValueError of [int(nan)].  With a
    zero entry price and a per-share risk that is not zero no share
    count is ever returned.  The error is a ZeroDivisionError exactly
    when equity and entry are Python floats, the entry is zero, the risk
    is not, and the first quotient converted; when either is a
    [numpy.float64] the division by zero gives an infinity or NaN
    instead and it is [int] that raises. *)
Theorem position_size_failure risk_pct max_position_pct
    entry_price stop_price account_equity :
  let result := calculate_position_size risk_pct max_position_pct
                  entry_price stop_price account_equity in
  (is_nan (value entry_price) = true \/ is_nan (value stop_price) = true ->
     result = inl (ValueError "cannot convert float NaN to integer"))
  /\ (eq_zero entry_price = true ->
      eq_zero (risk_per_share entry_price stop_price) = false ->
      forall n, result <> inr n)
  /\ (result = inl ZeroDivisionError <->
      is_float64 account_equity = false /\ is_float64 entry_price = false
      /\ eq_zero entry_price = true
      /\ eq_zero (risk_per_share entry_price stop_price) = false
      /\ exists shares,
           trunc (Prim2SF (shares_quotient risk_pct entry_price stop_price
                             account_equity)) = inr shares).
Proof.
  cbv zeta. rewrite calculate_position_size_eq.
  split; [|split].
  - intros Hnan.
    assert (E : Prim2SF (value (risk_per_share entry_price stop_price))
                = S754_nan).
    { unfold risk_per_share, PyFloat.sub.
      rewrite value_abs, value_binop, abs_spec, sub_spec.
      destruct Hnan as [H|H]; apply is_nan_spec in H; rewrite H.
      - reflexivity.
      - destruct (Prim2SF (value entry_price)); reflexivity. }
    assert (Ez : eq_zero (risk_per_share entry_price stop_price) = false).
    { unfold eq_zero. rewrite eqb_spec, E. reflexivity. }
    rewrite Ez. unfold shares_quotient. rewrite div_spec, E.
    destruct (Prim2SF (value (PyFloat.mul _ _))); reflexivity.
  - intros Hz Hr n. rewrite Hr.
    destruct (trunc (Prim2SF (shares_quotient _ _ _ _))) as [e|s];
      [discriminate|]. cbn [bind]. rewrite Hz, andb_true_r.
    destruct (negb _); [discriminate|].
    apply eqb_zero in Hz. destruct Hz as [s0 Hz].
    pose proof (SFdiv_by_zero
                  (Prim2SF (value (PyFloat.mul account_equity
                                     (Float max_position_pct)))) s0) as Hd.
    unfold max_shares_quotient. rewrite div_spec, Hz.
    destruct (trunc (SF64div _ _)) as [e|c] eqn:E; [discriminate|].
    now apply trunc_nan_or_infinity in E.
  - destruct (eq_zero (risk_per_share entry_price stop_price)).
    { split; [discriminate|]. intros (_ & _ & _ & H & _). discriminate. }
    destruct (trunc (Prim2SF (shares_quotient _ _ _ _))) as [e|s] eqn:E1.
    { cbn [bind]. split.
      - intros [= ->]. now apply trunc_not_zde in E1.
      - intros (_ & _ & _ & _ & s & H). discriminate. }
    cbn [bind].
    destruct (is_float64 account_equity), (is_float64 entry_price),
      (eq_zero entry_price); cbn [orb negb andb];
      try (split; [|intros (H1 & H2 & H3 & _); discriminate];
           destruct (trunc (Prim2SF (max_shares_quotient _ _ _)))
             as [e|c] eqn:E2; cbn [bind];
           [intros [= ->]; now apply trunc_not_zde in E2 | discriminate]).
    split; [|reflexivity]. intros _. repeat split; eauto.
Qed.

End PositionFailures.

Section PositionFailureRuns.

Import PrimFloat.

(** A run of X2: a NaN stop handed over as a cell of a pandas row. *)
Lemma position_size_failure_witness :
  StrategyBase.calculate_position_size 0.01%float 0.02%float
    (PyFloat.Float64 100%float) (PyFloat.Float64 PrimFloat.nan)
    (PyFloat.Float 100000%float)
  = inl (ValueError "cannot convert float NaN to integer").
Proof.
  apply (proj1 (position_size_failure 0.01%float 0.02%float
                  (PyFloat.Float64 100%float) (PyFloat.Float64 PrimFloat.nan)
                  (PyFloat.Float 100000%float))).
  right. vm_compute. reflexivity.
Defined.

(** The same zero entry price on Python floats and on a numpy scalar. *)
Lemma position_size_zero_entry :
  StrategyBase.calculate_position_size 0.01%float 0.02%float
    (PyFloat.Float 0%float) (PyFloat.Float 99%float)
    (PyFloat.Float 100000%float) = inl ZeroDivisionError
  /\ StrategyBase.calculate_position_size 0.01%float 0.02%float
       (PyFloat.Float64 0%float) (PyFloat.Float 99%float)
       (PyFloat.Float 100000%float) = inl OverflowError.
Proof. split; vm_compute; reflexivity. Qed.

End PositionFailureRuns.

(** ** RSI stays between 0 and 100                                     *)

Section RSIBounds.

Import StrategyBase.

Variable closes : list Q.

Lemma rsi_of_finite g l :
  0 <= g -> 0 <= l ->
  let r := fsub (Fin 100)
             (fdiv (Fin 100) (fadd (Fin 1) (fdiv (Fin g) (Fin l)))) in
  r = NaN \/ exists x, r = Fin x /\ 0 <= x <= 100.
Proof.
  intros Hg Hl. cbv zeta. cbn [fdiv].
  destruct (Qeq_bool l 0) eqn:El.
  - unfold inf_of_sign. destruct (g ?= 0) eqn:Eg.
    + left; reflexivity.
    + apply Qlt_alt in Eg. exfalso. apply (Qlt_not_le _ _ Eg Hg).
    + right. exists (100 + - 0). split; [reflexivity|]. split; lra.
  - apply Qeq_bool_neq in El.
    assert (Hlpos : 0 < l).
    { destruct (Qle_lt_or_eq _ _ Hl) as [H|H]; [assumption|].
      symmetry in H. contradiction. }
    assert (Hrs : 0 <= g / l) by (apply Qdiv_nonneg; assumption).
    cbn [fadd fdiv].
    destruct (Qeq_bool (1 + g / l) 0) eqn:E1.
    { apply Qeq_bool_iff in E1. exfalso. lra. }
    right. cbn [fsub fneg fadd].
    exists (100 + - (100 / (1 + g / l))). split; [reflexivity|].
    assert (Hd : 0 < 1 + g / l) by lra.
    assert (Hq : 0 <= 100 / (1 + g / l))
      by (apply Qdiv_nonneg; [lra | assumption]).
    assert (Hq100 : 100 / (1 + g / l) <= 100).
    { apply Qle_shift_div_r; [assumption|]. 
      setoid_replace (100 * (1 + g / l)) with (100 + 100 * (g / l)) by ring.
      assert (0 <= 100 * (g / l)) by (apply Qmult_le_0_compat; lra).
      lra. }
    split; lra.
Qed.

(** X3.  Whatever the closes and the period, every cell of the RSI
    column is either undefined or a number between 0 and 100. *)
Theorem rsi_between_0_and_100 period t :
  (t < length closes)%nat ->
  iloc (_calculate_rsi (map Fin closes) period) t = NaN
  \/ exists x,
       iloc (_calculate_rsi (map Fin closes) period) t = Fin x
       /\ 0 <= x <= 100.
Proof.
  intros Ht. rewrite iloc_rsi by assumption.
  rewrite rsi_gain_eq, rsi_loss_eq.
  destruct (Nat.eq_dec period 0) as [->|Hp].
  { left. unfold rolling_mean.
    rewrite !iloc_rolling
      by (rewrite ?length_gains, ?length_losses; assumption).
    reflexivity. }
  destruct (Nat.lt_ge_cases (t + 1) period) as [Hlt|Hge].
  { left. unfold rolling_mean.
    rewrite (rolling_short mean period (gains closes))
      by (rewrite ?length_gains; assumption).
    reflexivity. }
  destruct (rolling_mean_full _ (gains closes) period t
              (gains_nonneg closes)) as (gs & _ & Hgs & Hgl & ->);
    try lia; [rewrite length_gains; lia|].
  destruct (rolling_mean_full _ (losses closes) period t
              (losses_nonneg closes)) as (ls & _ & Hls & Hll & ->);
    try lia; [rewrite length_losses; lia|].
  apply rsi_of_finite.
  - apply Qdiv_nonneg; [now apply Qsum_nonneg | apply Qnat_pos; lia].
  - apply Qdiv_nonneg; [now apply Qsum_nonneg | apply Qnat_pos; lia].
Qed.

End RSIBounds.

Lemma rsi_between_0_and_100_witness :
  iloc (StrategyBase._calculate_rsi (map Fin [5; 6; 4; 7]) 2) 3 = NaN
  \/ exists x,
       iloc (StrategyBase._calculate_rsi (map Fin [5; 6; 4; 7]) 2) 3 = Fin x
       /\ 0 <= x <= 100.
Proof.
  apply (rsi_between_0_and_100 [5; 6; 4; 7] 2 3). vm_compute; lia.
Defined.

(** ** Exponential averages                                            *)

Section EMA.

Lemma ewm_alpha_range span :
  (1 <= span)%nat -> 0 < ewm_alpha span /\ ewm_alpha span <= 1.
Proof.
  intros H. unfold ewm_alpha.
  assert (Hs : 1 <= Qnat span).
  { unfold Qnat. change 1 with (inject_Z 1). rewrite <- Zle_Qle. lia. }
  assert (Hd : 0 < Qnat span + 1) by lra.
  split.
  - apply Qlt_shift_div_l; [assumption | lra].
  - apply Qle_shift_div_r; [assumption | lra].
Qed.

Lemma ewm_alpha_1 : ewm_alpha 1 == 1.
Proof. reflexivity. Qed.

Lemma convex_between a lo hi p x :
  0 <= a -> a <= 1 -> lo <= p <= hi -> lo <= x <= hi ->
  lo <= (1 - a) * p + a * x <= hi.
Proof.
  intros Ha0 Ha1 [Hp1 Hp2] [Hx1 Hx2].
  assert (H1 : 0 <= (1 - a) * (p - lo)) by (apply Qmult_le_0_compat; lra).
  assert (H2 : 0 <= a * (x - lo)) by (apply Qmult_le_0_compat; lra).
  assert (H3 : 0 <= (1 - a) * (hi - p)) by (apply Qmult_le_0_compat; lra).
  assert (H4 : 0 <= a * (hi - x)) by (apply Qmult_le_0_compat; lra).
  split.
  - setoid_replace ((1 - a) * p + a * x)
      with (lo + ((1 - a) * (p - lo) + a * (x - lo))) by ring.
    lra.
  - setoid_replace ((1 - a) * p + a * x)
      with (hi - ((1 - a) * (hi - p) + a * (hi - x))) by ring.
    lra.
Qed.

Lemma ewm_from_between a lo hi prev xs :
  0 <= a -> a <= 1 -> lo <= prev <= hi ->
  Forall (fun x => lo <= x <= hi) xs ->
  Forall (fun y => lo <= y <= hi) (ewm_from a prev xs).
Proof.
  intros Ha0 Ha1 Hp Hxs. revert prev Hp.
  induction Hxs as [|x xs Hx _ IH]; intros prev Hp; simpl; constructor.
  - now apply convex_between.
  - apply IH. now apply convex_between.
Qed.

(** X4.  For a span of at least 1 the exponential average is a running
    convex combination: every cell lies between the smallest and the
    largest input, and its first cell is the first input. *)
Theorem ewm_between span lo hi xs :
  (1 <= span)%nat ->
  Forall (fun x => lo <= x <= hi) xs ->
  Forall (fun y => lo <= y <= hi) (ewm_Q span xs)
  /\ nth 0 (ewm_Q span xs) 0 = nth 0 xs 0
  /\ length (ewm_Q span xs) = length xs.
Proof.
  intros Hs Hxs. destruct (ewm_alpha_range span Hs) as [Ha0 Ha1].
  split; [|split; [destruct xs; reflexivity | apply length_ewm_Q]].
  destruct Hxs as [|x xs Hx Hxs]; simpl; constructor; [assumption|].
  apply ewm_from_between; auto. now apply Qlt_le_weak.
Qed.

Lemma ewm_from_span_1 a prev xs :
  a == 1 -> Forall2 Qeq (ewm_from a prev xs) xs.
Proof.
  intros Ha. revert prev.
  induction xs as [|x xs IH]; intros prev; simpl; constructor.
  - rewrite Ha. ring.
  - apply IH.
Qed.

(** X5.  With [span = 1] the smoothing factor is 1 and the exponential
    average returns its input, cell for cell. *)
Theorem ewm_span_1_is_identity xs : Forall2 Qeq (ewm_Q 1 xs) xs.
Proof.
  destruct xs as [|x xs]; simpl; constructor.
  - reflexivity.
  - apply ewm_from_span_1, ewm_alpha_1.
Qed.

(** The recurrence, cell by cell. *)
Lemma nth_ewm_from a prev xs t :
  (t < length xs)%nat ->
  nth t (ewm_from a prev xs) 0 =
    (1 - a) * (match t with
               | O => prev
               | S t' => nth t' (ewm_from a prev xs) 0
               end) + a * nth t xs 0.
Proof.
  revert prev t. induction xs as [|x xs IH]; intros prev t Ht;
    [simpl in Ht; lia|].
  destruct t as [|t]; [reflexivity|].
  simpl in Ht. cbn [ewm_from nth].
  rewrite IH by lia. destruct t; reflexivity.
Qed.

Lemma nth_ewm_Q_succ span xs t :
  (S t < length xs)%nat ->
  nth (S t) (ewm_Q span xs) 0 =
    (1 - ewm_alpha span) * nth t (ewm_Q span xs) 0
    + ewm_alpha span * nth (S t) xs 0.
Proof.
  destruct xs as [|x xs]; [simpl; lia|]. intros Ht. simpl in Ht.
  cbn [ewm_Q nth]. rewrite nth_ewm_from by lia.
  destruct t; reflexivity.
Qed.

End EMA.

Lemma ewm_between_witness :
  Forall (fun y => 1 <= y <= 60) (ewm_Q 3 [10; 1; 60])
  /\ nth 0 (ewm_Q 3 [10; 1; 60]) 0 = nth 0 [10; 1; 60] 0
  /\ length (ewm_Q 3 [10; 1; 60]) = length [10; 1; 60].
Proof.
  apply (ewm_between 3 1 60 [10; 1; 60]).
  - lia.
  - repeat constructor; unfold Qle; simpl; lia.
Defined.

(** ** Swing records always have their stop below their entry          *)

Lemma rolling_mean_value P s w t :
  Forall (fin_sat P) s -> (t < length s)%nat ->
  iloc (rolling_mean w s) t = NaN
  \/ exists qs,
       Forall P qs /\ length qs = w /\ (1 <= w)%nat
       /\ iloc (rolling_mean w s) t = Fin (Qsum qs / Qnat w).
Proof.
  intros Hs Ht.
  destruct (Nat.eq_dec w 0) as [->|Hw0].
  { left. unfold rolling_mean. now rewrite iloc_rolling. }
  destruct (Nat.lt_ge_cases (t + 1) w) as [Hlt|Hge].
  { left. now apply rolling_short. }
  right.
  destruct (rolling_mean_full P s w t Hs) as (qs & _ & HP & Hl & E);
    try assumption; try lia.
  exists qs. repeat split; try assumption. lia.
Qed.

Lemma Forall_nonneg_closes df :
  Forall (fun b => 0 <= close b) (rows df) ->
  Forall (fin_sat (fun q => 0 <= q)) (col_of ColClose df).
Proof.
  intros H. unfold col_of. apply Forall_map.
  eapply Forall_impl; [|exact H]. intros b Hb. exact Hb.
Qed.

(** A dip mask that holds on non-negative closes reads an average [m]
    with [0 <= m < close]. *)
Lemma swing_dip_row w df t :
  Forall (fun b => 0 <= close b) (rows df) ->
  (t < length (rows df))%nat ->
  mloc (SwingTradingStrategy.dip (col_of ColLow df) (col_of ColClose df)
          (rolling_mean w (col_of ColClose df))) t = true ->
  exists m,
    iloc (rolling_mean w (col_of ColClose df)) t = Fin m
    /\ 0 <= m /\ m < close (row df t).
Proof.
  intros Hpos Ht.
  rewrite SwingFacts.mloc_dip by (autorewrite with len; lia).
  intros H. apply andb_prop in H. destruct H as [H _].
  apply andb_prop in H. destruct H as [_ H].
  rewrite iloc_col_of in H by assumption.
  destruct (rolling_mean_value _ (col_of ColClose df) w t
              (Forall_nonneg_closes df Hpos))
    as [E | (qs & Hqs & Hl & Hw & E)];
    [autorewrite with len; lia | |].
  - rewrite E, fgt_nan_r in H. discriminate.
  - rewrite E in *. exists (Qsum qs / Qnat w).
    split; [reflexivity|]. split.
    + apply Qdiv_nonneg; [now apply Qsum_nonneg | now apply Qnat_pos].
    + unfold fgt in H. cbn [flt] in H. now apply Qlt_bool_iff in H.
Qed.

Lemma swing_check_current_signal_record self df r :
  SwingTradingStrategy.check_current_signal self df = inr (Some r) ->
  let t := last_index df in
  let sf := SwingFacts.signals_of self df in
  (t < length (rows df))%nat /\
  zloc (SwingTradingStrategy.signal sf) t = 1%Z /\
  SwingTradingStrategy.r_entry_price r
    = iloc (SwingTradingStrategy.entry_price sf) t /\
  SwingTradingStrategy.r_stop_price r
    = iloc (SwingTradingStrategy.stop_price sf) t /\
  SwingTradingStrategy.risk_per_share r
    = fsub (iloc (SwingTradingStrategy.entry_price sf) t)
           (iloc (SwingTradingStrategy.stop_price sf) t) /\
  SwingTradingStrategy.r_entry_type r
    = sloc (SwingTradingStrategy.entry_type sf) t.
Proof.
  unfold SwingTradingStrategy.check_current_signal. intros H.
  apply bind_inv in H. destruct H as (sf & Hsf & H).
  apply SwingFacts.swing_generate_signals_inv in Hsf. subst sf.
  destruct (empty df) eqn:Hemp; [discriminate|].
  destruct (zloc (SwingTradingStrategy.signal (SwingFacts.signals_of self df))
              (last_index df) =? 1)%Z eqn:Hs; [|discriminate].
  injection H as <-.
  cbn [SwingTradingStrategy.r_entry_price SwingTradingStrategy.r_stop_price
       SwingTradingStrategy.risk_per_share SwingTradingStrategy.r_entry_type].
  apply Z.eqb_eq in Hs.
  repeat split; auto using last_index_lt.
Qed.

(** X7.  In the swing variant, on closes that are not negative, every
    record of a dip-buy ([entry_type] 'dip_50' or 'dip_200') has its
    stop strictly below its entry: the pattern requires the close above
    the moving average, and the stop is 98%% (or 97%%) of that average.
    The signed [risk_per_share] it reports is then positive. *)
Theorem swing_stop_below_entry self df r :
  Forall (fun b => 0 <= close b) (rows df) ->
  SwingTradingStrategy.check_current_signal self df = inr (Some r) ->
  SwingTradingStrategy.r_entry_type r = "dip_50"%string
  \/ SwingTradingStrategy.r_entry_type r = "dip_200"%string ->
  exists e s,
    SwingTradingStrategy.r_entry_price r = Fin e
    /\ SwingTradingStrategy.r_stop_price r = Fin s
    /\ s < e
    /\ SwingTradingStrategy.risk_per_share r = Fin (e - s).
Proof.
  intros Hpos Hr Hdip.
  destruct (swing_check_current_signal_record _ _ _ Hr)
    as (Ht & Hsig & He & Hs & Hrisk & Hty).
  destruct (SwingRows.stage_signals_of self df _ Ht)
    as (_ & _ & Hs' & He' & Hst' & Hty').
  rewrite Hs' in Hsig. rewrite He' in He, Hrisk. rewrite Hst' in Hs, Hrisk.
  rewrite Hty' in Hty.
  set (t := last_index df) in *.
  exists (close (row df t)).
  destruct (SwingRows.fired3 self df t) eqn:E3.
  { unfold SwingRows.fired3 in E3.
    apply andb_prop in E3. destruct E3 as [E3 _].
    apply andb_prop in E3. destruct E3 as [E3 _].
    apply andb_prop in E3. destruct E3 as [_ E3].
    unfold SwingRows.dip_200_at, SwingFacts.indicators_of in E3.
    cbn [SwingTradingStrategy.sma_200] in E3.
    destruct (swing_dip_row _ df t Hpos Ht E3) as (m & Em & Hm0 & Hmc).
    unfold SwingFacts.indicators_of in Hs, Hrisk.
    cbn [SwingTradingStrategy.sma_200] in Hs, Hrisk.
    rewrite Em in Hs, Hrisk. rewrite !orb_true_r in He, Hrisk.
    exists (m * (97 # 100)). repeat split; try assumption. lra. }
  destruct (SwingRows.fired2 self df t) eqn:E2.
  { unfold SwingRows.fired2 in E2.
    apply andb_prop in E2. destruct E2 as [E2 _].
    apply andb_prop in E2. destruct E2 as [_ E2].
    unfold SwingRows.dip_50_at, SwingFacts.indicators_of in E2.
    cbn [SwingTradingStrategy.sma_50] in E2.
    destruct (swing_dip_row _ df t Hpos Ht E2) as (m & Em & Hm0 & Hmc).
    unfold SwingFacts.indicators_of in Hs, Hrisk.
    cbn [SwingTradingStrategy.sma_50] in Hs, Hrisk.
    rewrite Em in Hs, Hrisk. rewrite !orb_true_r in He, Hrisk.
    cbn [orb] in He, Hrisk.
    exists (m * (98 # 100)). repeat split; try assumption. lra. }
  exfalso. rewrite Hty in Hdip.
  destruct (SwingRows.fired1 self df t); destruct Hdip; discriminate.
Qed.

(** A run: the third bar dips to the 2-bar average (25) and closes above
    it; the averages crossed one bar earlier. *)
Definition bounce_bars : list Bar :=
  [ still_bar 1 10; still_bar 2 20;
    {| date := 3; open := 25; high := 30; low := 24; close := 30;
       volume := 1000 |} ].

Lemma swing_stop_below_entry_witness :
  exists r e s,
    SwingTradingStrategy.check_current_signal swing_short_windows
      (of_bars bounce_bars) = inr (Some r)
    /\ SwingTradingStrategy.r_entry_type r = "dip_50"%string
    /\ SwingTradingStrategy.r_entry_price r = Fin e
    /\ SwingTradingStrategy.r_stop_price r = Fin s
    /\ s < e.
Proof.
  eexists.
  match goal with
  | |- exists e s, ?c = inr (Some ?r) /\ _ =>
      assert (Hr : c = inr (Some r)) by (vm_compute; reflexivity)
  end.
  destruct (swing_stop_below_entry swing_short_windows (of_bars bounce_bars) _
              ltac:(repeat constructor; vm_compute; discriminate) Hr
              ltac:(left; reflexivity))
    as (e & s & He & Hs & Hlt & _).
  exists e, s. repeat split; assumption.
Defined.


(** ** Donchian records: the stop is on the losing side                *)

Lemma prior_rows_incl m n df t b :
  (m <= n)%nat -> (n <= t)%nat -> (t < length (rows df))%nat ->
  In b (prior_rows m df t) -> In b (prior_rows n df t).
Proof.
  intros Hmn Hnt Ht Hin.
  destruct (In_nth _ _ bar0 Hin) as (i & Hi & <-).
  rewrite length_prior_rows in Hi by lia.
  rewrite nth_prior_rows by assumption.
  replace (t - m + i)%nat with (t - n + (n - m + i))%nat by lia.
  rewrite <- (nth_prior_rows n) by lia.
  apply nth_In. rewrite length_prior_rows by lia. lia.
Qed.

Lemma donchian_check_current_signal_record self df r :
  DonchianStrategy.check_current_signal self df = inr (Some r) ->
  let t := last_index df in
  let sf := DonchianFacts.signals_of self df in
  (t < length (rows df))%nat /\
  zloc (DonchianStrategy.signal sf) t <> 0%Z /\
  DonchianStrategy.r_signal r
    = (if (zloc (DonchianStrategy.signal sf) t =? 1)%Z
       then "LONG" else "SHORT")%string /\
  DonchianStrategy.r_entry_price r
    = iloc (DonchianStrategy.entry_price sf) t /\
  DonchianStrategy.r_stop_price r
    = iloc (DonchianStrategy.stop_price sf) t /\
  DonchianStrategy.risk_per_share r
    = fabs (fsub (iloc (DonchianStrategy.entry_price sf) t)
                 (iloc (DonchianStrategy.stop_price sf) t)).
Proof.
  unfold DonchianStrategy.check_current_signal. intros H.
  apply bind_inv in H. destruct H as (sf & Hsf & H).
  apply DonchianFacts.donchian_generate_signals_inv in Hsf. subst sf.
  destruct (empty df) eqn:Hemp; [discriminate|].
  destruct (zloc (DonchianStrategy.signal (DonchianFacts.signals_of self df))
              (last_index df) =? 0)%Z eqn:Hs; [discriminate|].
  cbn [negb] in H. injection H as <-.
  cbn [DonchianStrategy.r_entry_price DonchianStrategy.r_stop_price
       DonchianStrategy.risk_per_share DonchianStrategy.r_signal].
  apply Z.eqb_neq in Hs.
  repeat split; auto using last_index_lt.
Qed.

(** X8.  With the exit-channel stop, [1 <= exit_period <= entry_period]
    and bars that have [low <= high], every Donchian record has its stop
    on the losing side of its entry: below the entry for a LONG, above
    it for a SHORT.  Its [risk_per_share] is the positive distance
    between the two. *)
Theorem donchian_stop_on_losing_side self df r :
  DonchianStrategy.use_atr_stop self = false ->
  (1 <= DonchianStrategy.exit_period self)%nat ->
  (DonchianStrategy.exit_period self
   <= DonchianStrategy.entry_period self)%nat ->
  Forall (fun b => low b <= high b) (rows df) ->
  DonchianStrategy.check_current_signal self df = inr (Some r) ->
  exists e s,
    DonchianStrategy.r_entry_price r = Fin e
    /\ DonchianStrategy.r_stop_price r = Fin s
    /\ (DonchianStrategy.r_signal r = "LONG"%string -> s < e)
    /\ (DonchianStrategy.r_signal r = "SHORT"%string -> e < s)
    /\ (DonchianStrategy.r_signal r = "LONG"%string
        \/ DonchianStrategy.r_signal r = "SHORT"%string)
    /\ DonchianStrategy.risk_per_share r = Fin (Qabs (e - s))
    /\ 0 < Qabs (e - s).
Proof.
  intros Hatr Hx1 Hxn Hwf Hr.
  destruct (donchian_check_current_signal_record _ _ _ Hr)
    as (Ht & Hsig & Hdir & He & Hs & Hrisk).
  set (t := last_index df) in *.
  rewrite DonchianFacts.donchian_signal_at in Hsig, Hdir by assumption.
  rewrite DonchianFacts.donchian_entry_at in He, Hrisk by assumption.
  rewrite DonchianFacts.donchian_stop_at in Hs, Hrisk by assumption.
  unfold DonchianFacts.short_stop_at, DonchianFacts.long_stop_at in Hs, Hrisk.
  rewrite Hatr in Hs, Hrisk.
  assert (Hsub : forall b, In b (rows df) -> low b <= high b)
    by now apply Forall_forall.
  assert (Hprior : forall n b, In b (prior_rows n df t) -> low b <= high b).
  { intros n b Hb. apply Hsub. unfold prior_rows in Hb.
    rewrite <- (firstn_skipn (t - n) (rows df)). apply in_or_app. right.
    rewrite <- (firstn_skipn n (skipn (t - n) (rows df))).
    apply in_or_app. now left. }
  exists (close (row df t)).
  destruct (DonchianFacts.short_at self df t) eqn:Es.
  - (* short *)
    cbn [orb] in He, Hrisk.
    unfold DonchianFacts.short_at in Es.
    apply andb_prop in Es. destruct Es as [_ Es].
    unfold DonchianFacts.indicators_of in Es, Hs, Hrisk.
    cbn [DonchianStrategy.donchian_low_entry
         DonchianStrategy.donchian_high_exit] in Es, Hs, Hrisk.
    destruct (rolling_shift1_defined minimum
                (DonchianStrategy.entry_period self)
                (col_of ColLow df) t) as [H1 Hn].
    { autorewrite with len. exact Ht. }
    { intros E. unfold rolling_min in Es. rewrite E, flt_nan_r in Es.
      discriminate. }
    destruct (rolling_min_shift1_col ColLow _ df t H1 Hn Ht)
      as (lo & Elo & _ & Hlo).
    destruct (rolling_max_shift1_col ColHigh
                (DonchianStrategy.exit_period self) df t)
      as (hi & Ehi & Hhin & _); try lia.
    rewrite Elo in Es. cbn [flt] in Es. apply Qlt_bool_iff in Es.
    rewrite Ehi in Hs, Hrisk.
    apply in_map_iff in Hhin. destruct Hhin as (b & Hb & Hbin).
    assert (Hlt : close (row df t) < hi).
    { eapply Qlt_le_trans; [exact Es|]. rewrite <- Hb.
      rewrite Forall_forall in Hlo.
      eapply Qle_trans; [apply Hlo|apply (Hprior _ _ Hbin)].
      eapply prior_rows_incl; [exact Hxn | exact Hn | exact Ht | exact Hbin]. }
    cbn in Hdir.
    exists hi. repeat split; try assumption.
    + intros E. rewrite Hdir in E. discriminate.
    + intros _. exact Hlt.
    + now right.
    + assert (Hneg : close (row df t) - hi <= 0) by lra.
      rewrite (Qabs_neg _ Hneg). lra.
  - destruct (DonchianFacts.long_at self df t) eqn:El; [|congruence].
    cbn [orb] in He, Hrisk.
    unfold DonchianFacts.long_at in El.
    unfold DonchianFacts.indicators_of in El, Hs, Hrisk.
    cbn [DonchianStrategy.donchian_high_entry
         DonchianStrategy.donchian_low_exit] in El, Hs, Hrisk.
    destruct (rolling_shift1_defined maximum
                (DonchianStrategy.entry_period self)
                (col_of ColHigh df) t) as [H1 Hn].
    { autorewrite with len. exact Ht. }
    { intros E. unfold rolling_max in El. rewrite E, fgt_nan_r in El.
      discriminate. }
    destruct (rolling_max_shift1_col ColHigh _ df t H1 Hn Ht)
      as (hi & Ehi & _ & Hhi).
    destruct (rolling_min_shift1_col ColLow
                (DonchianStrategy.exit_period self) df t)
      as (lo & Elo & Hlin & _); try lia.
    rewrite Ehi in El. unfold fgt in El. cbn [flt] in El.
    apply Qlt_bool_iff in El.
    rewrite Elo in Hs, Hrisk.
    apply in_map_iff in Hlin. destruct Hlin as (b & Hb & Hbin).
    assert (Hlt : lo < close (row df t)).
    { eapply Qle_lt_trans; [|exact El]. rewrite <- Hb.
      rewrite Forall_forall in Hhi.
      eapply Qle_trans; [apply (Hprior _ _ Hbin)|apply Hhi].
      eapply prior_rows_incl; [exact Hxn | exact Hn | exact Ht | exact Hbin]. }
    cbn in Hdir.
    exists lo. repeat split; try assumption.
    + intros _. exact Hlt.
    + intros E. rewrite Hdir in E. discriminate.
    + now left.
    + assert (Hpos : 0 <= close (row df t) - lo) by lra.
      rewrite (Qabs_pos _ Hpos). lra.
Qed.

Lemma donchian_stop_on_losing_side_witness :
  exists r e s,
    DonchianStrategy.check_current_signal donchian_2_1 (of_bars new_high_bars)
      = inr (Some r)
    /\ DonchianStrategy.r_entry_price r = Fin e
    /\ DonchianStrategy.r_stop_price r = Fin s
    /\ 0 < Qabs (e - s).
Proof.
  eexists.
  match goal with
  | |- exists e s, ?c = inr (Some ?r) /\ _ =>
      assert (Hr : c = inr (Some r)) by (vm_compute; reflexivity)
  end.
  destruct (donchian_stop_on_losing_side donchian_2_1 (of_bars new_high_bars)
              _ eq_refl ltac:(vm_compute; lia) ltac:(vm_compute; lia)
              ltac:(repeat constructor; vm_compute; discriminate) Hr)
    as (e & s & He & Hs & _ & _ & _ & _ & Hpos).
  exists e, s. repeat split; assumption.
Defined.

(* ================================================================== *)
(** ** No lookahead                                                    *)
(* ================================================================== *)

(** The first [k] rows of a frame. *)
Definition take (k : nat) (df : DataFrame) : DataFrame :=
  {| rows := firstn k (rows df); columns := columns df; symbol := symbol df |}.

Lemma tabulate_firstn {A} k n (f g : nat -> A) :
  (forall i, (i < k)%nat -> (i < n)%nat -> g i = f i) ->
  tabulate (Nat.min k n) g = firstn k (tabulate n f).
Proof.
  intros H. apply (nth_ext _ _ (f 0%nat) (f 0%nat)).
  - now rewrite length_firstn, !length_tabulate.
  - intros i Hi. rewrite length_tabulate in Hi.
    rewrite nth_firstn. destruct (Nat.ltb_spec i k); [|lia].
    rewrite !nth_tabulate by lia. apply H; lia.
Qed.

Lemma iloc_firstn k s i : (i < k)%nat -> iloc (firstn k s) i = iloc s i.
Proof.
  intros H. unfold iloc. rewrite nth_firstn.
  now destruct (Nat.ltb_spec i k); [|lia].
Qed.

Lemma mloc_firstn k m i : (i < k)%nat -> mloc (firstn k m) i = mloc m i.
Proof.
  intros H. unfold mloc. rewrite nth_firstn.
  now destruct (Nat.ltb_spec i k); [|lia].
Qed.

Lemma zip_with_firstn f k a b :
  zip_with f (firstn k a) (firstn k b) = firstn k (zip_with f a b).
Proof.
  unfold zip_with. rewrite length_firstn. apply tabulate_firstn.
  intros i Hk _. now rewrite !iloc_firstn.
Qed.

Lemma shift_firstn j k s : shift j (firstn k s) = firstn k (shift j s).
Proof.
  unfold shift. rewrite length_firstn. apply tabulate_firstn.
  intros i Hk _. destruct (i <? j)%nat; [reflexivity|].
  apply iloc_firstn. lia.
Qed.

Lemma window_firstn w k s t :
  (w <= t + 1)%nat -> (t < k)%nat ->
  window w (firstn k s) t = window w s t.
Proof.
  intros Hw Ht. unfold window.
  rewrite skipn_firstn_comm, firstn_firstn.
  f_equal. lia.
Qed.

Lemma rolling_firstn agg w k s :
  rolling agg w (firstn k s) = firstn k (rolling agg w s).
Proof.
  unfold rolling. rewrite length_firstn. apply tabulate_firstn.
  intros i Hk _.
  destruct (Nat.eqb_spec w 0); [reflexivity|].
  destruct (Nat.ltb_spec (i + 1) w); [reflexivity|]. cbn [orb].
  now rewrite window_firstn by lia.
Qed.

Lemma row_max3_firstn k a b c :
  row_max3 (firstn k a) (firstn k b) (firstn k c)
  = firstn k (row_max3 a b c).
Proof.
  unfold row_max3. rewrite length_firstn. apply tabulate_firstn.
  intros i Hk _. now rewrite !iloc_firstn.
Qed.

Lemma ewm_from_firstn a prev k xs :
  ewm_from a prev (firstn k xs) = firstn k (ewm_from a prev xs).
Proof.
  revert prev k. induction xs as [|x xs IH]; intros prev [|k];
    try reflexivity.
  simpl. now rewrite IH.
Qed.

Lemma ewm_Q_firstn span k xs :
  ewm_Q span (firstn k xs) = firstn k (ewm_Q span xs).
Proof.
  destruct xs as [|x xs], k as [|k]; try reflexivity.
  simpl. now rewrite ewm_from_firstn.
Qed.

Lemma col_of_take c k df : col_of c (take k df) = firstn k (col_of c df).
Proof. unfold col_of, take; cbn [rows]. now rewrite firstn_map. Qed.

Lemma cells_take c k df :
  map (cell c) (rows (take k df)) = firstn k (map (cell c) (rows df)).
Proof. unfold take; cbn [rows]. now rewrite firstn_map. Qed.

Lemma row_take k df t : (t < k)%nat -> row (take k df) t = row df t.
Proof.
  intros H. unfold row, take; cbn [rows]. rewrite nth_firstn.
  now destruct (Nat.ltb_spec t k); [|lia].
Qed.

Lemma length_rows_take k df :
  length (rows (take k df)) = Nat.min k (length (rows df)).
Proof. unfold take; cbn [rows]. apply length_firstn. Qed.

Lemma true_range_take k df : true_range (take k df) = firstn k (true_range df).
Proof.
  unfold true_range. rewrite !col_of_take, !shift_firstn, !zip_with_firstn.
  rewrite <- !firstn_map. apply row_max3_firstn.
Qed.

(** Moves [take] and [firstn] outwards through the column operations. *)
Ltac push_take :=
  unfold rolling_mean, rolling_max, rolling_min;
  repeat (rewrite col_of_take || rewrite cells_take
          || rewrite true_range_take || rewrite shift_firstn
          || rewrite zip_with_firstn || rewrite rolling_firstn
          || rewrite ewm_Q_firstn || rewrite <- firstn_map).

Lemma htf_row_take self df k t :
  (t < k)%nat -> (t < length (rows df))%nat ->
  let sf' := HTFFacts.signals_of self (take k df) in
  let sf := HTFFacts.signals_of self df in
  zloc (QullamaggieHTFStrategy.signal sf') t
    = zloc (QullamaggieHTFStrategy.signal sf) t
  /\ iloc (QullamaggieHTFStrategy.entry_price sf') t
     = iloc (QullamaggieHTFStrategy.entry_price sf) t
  /\ iloc (QullamaggieHTFStrategy.stop_price sf') t
     = iloc (QullamaggieHTFStrategy.stop_price sf) t.
Proof.
  intros Hk Ht. cbv zeta.
  assert (Ht' : (t < length (rows (take k df)))%nat)
    by (rewrite length_rows_take; lia).
  rewrite !HTFFacts.htf_signal_at, !HTFFacts.htf_entry_at,
    !HTFFacts.htf_stop_at by assumption.
  rewrite (HTFFacts.mloc_htf_signal self (take k df) t Ht').
  rewrite (HTFFacts.mloc_htf_signal self df t Ht).
  rewrite !row_take by assumption.
  unfold HTFFacts.indicators_of.
  cbn [QullamaggieHTFStrategy.avg_dollar_volume
       QullamaggieHTFStrategy.sma_50 QullamaggieHTFStrategy.pole_move
       QullamaggieHTFStrategy.high_20 QullamaggieHTFStrategy.ema_10
       QullamaggieHTFStrategy.sma_20 QullamaggieHTFStrategy.volume_ratio].
  push_take.
  rewrite !iloc_firstn by assumption.
  repeat split; reflexivity.
Qed.

Lemma ma101_row_take self df k t :
  (t < k)%nat -> (t < length (rows df))%nat ->
  let sf' := MA101Facts.signals_of self (take k df) in
  let sf := MA101Facts.signals_of self df in
  zloc (MA101Strategy.signal sf') t = zloc (MA101Strategy.signal sf) t
  /\ iloc (MA101Strategy.entry_price sf') t
     = iloc (MA101Strategy.entry_price sf) t
  /\ iloc (MA101Strategy.stop_price sf') t
     = iloc (MA101Strategy.stop_price sf) t.
Proof.
  intros Hk Ht. cbv zeta.
  assert (Ht' : (t < length (rows (take k df)))%nat)
    by (rewrite length_rows_take; lia).
  rewrite !MA101Facts.ma101_signal_at, !MA101Facts.ma101_entry_at,
    !MA101Facts.ma101_stop_at by assumption.
  rewrite !MA101Facts.mloc_entry_signal by assumption.
  rewrite !MA101Facts.ma101_mloc_cross_above
    by (unfold MA101Facts.indicators_of, MA101Facts.closes;
        cbn [MA101Strategy.ema_fast MA101Strategy.ema_slow];
        autorewrite with len; rewrite ?length_map; assumption).
  rewrite !row_take by assumption.
  unfold MA101Facts.indicators_of, MA101Facts.closes.
  cbn [MA101Strategy.ema_fast MA101Strategy.ema_slow
       MA101Strategy.sma_regime].
  push_take.
  rewrite !iloc_firstn by assumption.
  assert (E : nth t (firstn k (ewm_Q (MA101Strategy.stop_ma self)
                                 (map (cell ColClose) (rows df)))) 0
              = nth t (ewm_Q (MA101Strategy.stop_ma self)
                         (map (cell ColClose) (rows df))) 0).
  { rewrite nth_firstn. now destruct (Nat.ltb_spec t k); [|lia]. }
  rewrite E. repeat split; reflexivity.
Qed.

Lemma donchian_row_take self df k t :
  (t < k)%nat -> (t < length (rows df))%nat ->
  let sf' := DonchianFacts.signals_of self (take k df) in
  let sf := DonchianFacts.signals_of self df in
  zloc (DonchianStrategy.signal sf') t = zloc (DonchianStrategy.signal sf) t
  /\ iloc (DonchianStrategy.entry_price sf') t
     = iloc (DonchianStrategy.entry_price sf) t
  /\ iloc (DonchianStrategy.stop_price sf') t
     = iloc (DonchianStrategy.stop_price sf) t.
Proof.
  intros Hk Ht. cbv zeta.
  assert (Ht' : (t < length (rows (take k df)))%nat)
    by (rewrite length_rows_take; lia).
  rewrite !DonchianFacts.donchian_signal_at,
    !DonchianFacts.donchian_entry_at, !DonchianFacts.donchian_stop_at
    by assumption.
  unfold DonchianFacts.short_at, DonchianFacts.long_at,
    DonchianFacts.short_stop_at, DonchianFacts.long_stop_at,
    DonchianFacts.indicators_of.
  cbn [DonchianStrategy.donchian_high_entry DonchianStrategy.donchian_low_entry
       DonchianStrategy.donchian_high_exit DonchianStrategy.donchian_low_exit
       DonchianStrategy.atr].
  rewrite !row_take by assumption.
  push_take.
  rewrite !iloc_firstn by assumption.
  repeat split; reflexivity.
Qed.

Lemma swing_masks_take self df k t :
  (t < k)%nat -> (t < length (rows df))%nat ->
  SwingRows.cross_at self (take k df) t = SwingRows.cross_at self df t
  /\ SwingRows.dip_50_at self (take k df) t = SwingRows.dip_50_at self df t
  /\ SwingRows.dip_200_at self (take k df) t = SwingRows.dip_200_at self df t
  /\ iloc (SwingTradingStrategy.sma_50
             (SwingFacts.indicators_of self (take k df))) t
     = iloc (SwingTradingStrategy.sma_50 (SwingFacts.indicators_of self df)) t
  /\ iloc (SwingTradingStrategy.sma_200
             (SwingFacts.indicators_of self (take k df))) t
     = iloc (SwingTradingStrategy.sma_200 (SwingFacts.indicators_of self df)) t
  /\ iloc (SwingTradingStrategy.ema_slow
             (SwingFacts.indicators_of self (take k df))) t
     = iloc (SwingTradingStrategy.ema_slow (SwingFacts.indicators_of self df)) t.
Proof.
  intros Hk Ht.
  assert (Ht' : (t < length (rows (take k df)))%nat)
    by (rewrite length_rows_take; lia).
  unfold SwingRows.cross_at, SwingRows.dip_50_at, SwingRows.dip_200_at.
  unfold SwingFacts.indicators_of, SwingFacts.closes.
  cbn [SwingTradingStrategy.ema_fast SwingTradingStrategy.ema_slow
       SwingTradingStrategy.sma_50 SwingTradingStrategy.sma_200].
  rewrite !SwingFacts.swing_mloc_cross_above
    by (autorewrite with len; rewrite ?length_map; assumption).
  rewrite !SwingFacts.mloc_dip
    by (autorewrite with len; rewrite ?length_map; assumption).
  push_take.
  rewrite !iloc_firstn by assumption.
  repeat split; reflexivity.
Qed.

Lemma swing_row_take self df k t :
  (t < k)%nat -> (t < length (rows df))%nat ->
  let sf' := SwingFacts.signals_of self (take k df) in
  let sf := SwingFacts.signals_of self df in
  zloc (SwingTradingStrategy.signal sf') t
    = zloc (SwingTradingStrategy.signal sf) t
  /\ iloc (SwingTradingStrategy.entry_price sf') t
     = iloc (SwingTradingStrategy.entry_price sf) t
  /\ iloc (SwingTradingStrategy.stop_price sf') t
     = iloc (SwingTradingStrategy.stop_price sf) t.
Proof.
  intros Hk Ht. cbv zeta.
  assert (Ht' : (t < length (rows (take k df)))%nat)
    by (rewrite length_rows_take; lia).
  destruct (SwingRows.stage_signals_of self (take k df) t Ht')
    as (_ & _ & Hs' & He' & Hst' & _).
  destruct (SwingRows.stage_signals_of self df t Ht)
    as (_ & _ & Hs & He & Hst & _).
  destruct (swing_masks_take self df k t Hk Ht)
    as (Ec & E50 & E200 & Em50 & Em200 & Eslow).
  assert (F1 : SwingRows.fired1 self (take k df) t = SwingRows.fired1 self df t)
    by (unfold SwingRows.fired1; now rewrite Ec).
  assert (F2 : SwingRows.fired2 self (take k df) t = SwingRows.fired2 self df t)
    by (unfold SwingRows.fired2; now rewrite E50, F1).
  assert (F3 : SwingRows.fired3 self (take k df) t = SwingRows.fired3 self df t)
    by (unfold SwingRows.fired3; now rewrite E200, F1, F2).
  rewrite Hs', He', Hst', Hs, He, Hst, F1, F2, F3, Em50, Em200, Eslow.
  rewrite row_take by assumption.
  repeat split; reflexivity.
Qed.

(** X9.  No variant looks ahead: the signal, entry price and stop price
    [generate_signals] writes on row [t] are the same on the whole frame
    as on its first [k] rows, for every [k > t]; rows that come after
    [t] never change what row [t] says. *)
Theorem no_lookahead :
  (forall self df k t sf sf',
     MA101Strategy.generate_signals self df = inr sf ->
     MA101Strategy.generate_signals self (take k df) = inr sf' ->
     (t < k)%nat -> (t < length (rows df))%nat ->
     zloc (MA101Strategy.signal sf') t = zloc (MA101Strategy.signal sf) t
     /\ iloc (MA101Strategy.entry_price sf') t
        = iloc (MA101Strategy.entry_price sf) t
     /\ iloc (MA101Strategy.stop_price sf') t
        = iloc (MA101Strategy.stop_price sf) t)
  /\ (forall self df k t sf sf',
     DonchianStrategy.generate_signals self df = inr sf ->
     DonchianStrategy.generate_signals self (take k df) = inr sf' ->
     (t < k)%nat -> (t < length (rows df))%nat ->
     zloc (DonchianStrategy.signal sf') t = zloc (DonchianStrategy.signal sf) t
     /\ iloc (DonchianStrategy.entry_price sf') t
        = iloc (DonchianStrategy.entry_price sf) t
     /\ iloc (DonchianStrategy.stop_price sf') t
        = iloc (DonchianStrategy.stop_price sf) t)
  /\ (forall self df k t sf sf',
     SwingTradingStrategy.generate_signals self df = inr sf ->
     SwingTradingStrategy.generate_signals self (take k df) = inr sf' ->
     (t < k)%nat -> (t < length (rows df))%nat ->
     zloc (SwingTradingStrategy.signal sf') t
       = zloc (SwingTradingStrategy.signal sf) t
     /\ iloc (SwingTradingStrategy.entry_price sf') t
        = iloc (SwingTradingStrategy.entry_price sf) t
     /\ iloc (SwingTradingStrategy.stop_price sf') t
        = iloc (SwingTradingStrategy.stop_price sf) t)
  /\ (forall self df k t sf sf',
     QullamaggieHTFStrategy.generate_signals self df = inr sf ->
     QullamaggieHTFStrategy.generate_signals self (take k df) = inr sf' ->
     (t < k)%nat -> (t < length (rows df))%nat ->
     zloc (QullamaggieHTFStrategy.signal sf') t
       = zloc (QullamaggieHTFStrategy.signal sf) t
     /\ iloc (QullamaggieHTFStrategy.entry_price sf') t
        = iloc (QullamaggieHTFStrategy.entry_price sf) t
     /\ iloc (QullamaggieHTFStrategy.stop_price sf') t
        = iloc (QullamaggieHTFStrategy.stop_price sf) t).
Proof.
  split; [|split; [|split]]; intros self df k t sf sf' Hsf Hsf' Hk Ht.
  - apply MA101Facts.ma101_generate_signals_inv in Hsf, Hsf'.
    subst sf sf'. now apply ma101_row_take.
  - apply DonchianFacts.donchian_generate_signals_inv in Hsf, Hsf'.
    subst sf sf'. now apply donchian_row_take.
  - apply SwingFacts.swing_generate_signals_inv in Hsf, Hsf'.
    subst sf sf'. now apply swing_row_take.
  - apply HTFFacts.htf_generate_signals_inv in Hsf, Hsf'.
    destruct Hsf as [-> _], Hsf' as [-> _]. now apply htf_row_take.
Qed.

Lemma no_lookahead_witness :
  zloc (DonchianStrategy.signal
          (DonchianFacts.signals_of donchian_2_1
             (take 3 (of_bars (new_high_bars ++ [still_bar 4 1]))))) 2
  = zloc (DonchianStrategy.signal
            (DonchianFacts.signals_of donchian_2_1
               (of_bars (new_high_bars ++ [still_bar 4 1])))) 2.
Proof.
  destruct no_lookahead as (_ & HD & _).
  refine (proj1 (HD donchian_2_1 (of_bars (new_high_bars ++ [still_bar 4 1]))
                   3%nat 2%nat _ _ _ _ _ _)).
  - vm_compute; reflexivity.
  - vm_compute; reflexivity.
  - lia.
  - vm_compute; lia.
Defined.

(** *** Replaying history *)

Lemma last_index_take t df :
  (t < length (rows df))%nat ->
  last_index (take (S t) df) = t /\ empty (take (S t) df) = false.
Proof.
  intros Ht. unfold last_index, empty. rewrite length_rows_take.
  split; [lia|].
  unfold take; cbn [rows]. destruct (rows df); [simpl in Ht; lia|].
  reflexivity.
Qed.

Lemma ma101_replay self df sf t :
  MA101Strategy.generate_signals self df = inr sf ->
  (t < length (rows df))%nat ->
  (forall r,
     MA101Strategy.check_current_signal self (take (S t) df) = inr (Some r) ->
     zloc (MA101Strategy.signal sf) t = 1%Z
     /\ MA101Strategy.r_entry_price r = iloc (MA101Strategy.entry_price sf) t
     /\ MA101Strategy.r_stop_price r = iloc (MA101Strategy.stop_price sf) t)
  /\ (zloc (MA101Strategy.signal sf) t = 1%Z ->
      exists r,
        MA101Strategy.check_current_signal self (take (S t) df)
          = inr (Some r))
  /\ (zloc (MA101Strategy.signal sf) t <> 1%Z ->
      MA101Strategy.check_current_signal self (take (S t) df) = inr None).
Proof.
  intros Hsf Ht.
  destruct (last_index_take t df Ht) as [Hl He].
  assert (Hgen : MA101Strategy.generate_signals self (take (S t) df)
                 = inr (MA101Facts.signals_of self (take (S t) df))).
  { rewrite MA101Facts.ma101_generate_signals_eq in *.
    cbn [columns take].
    destruct (columns df ColClose); [|discriminate].
    destruct (MA101Strategy.fast_ema self <? 1)%nat; [discriminate|].
    destruct (MA101Strategy.slow_ema self <? 1)%nat; [discriminate|].
    destruct (MA101Strategy.stop_ma self <? 1)%nat; [discriminate|].
    destruct (columns df ColHigh); [|discriminate].
    destruct (columns df ColLow); [|discriminate]. reflexivity. }
  apply MA101Facts.ma101_generate_signals_inv in Hsf. subst sf.
  destruct (ma101_row_take self df (S t) t (Nat.lt_succ_diag_r t) Ht)
    as (Es & Ee & Est).
  unfold MA101Strategy.check_current_signal.
  rewrite Hgen. cbn [bind]. rewrite He, Hl, Es, Ee, Est.
  destruct (zloc (MA101Strategy.signal (MA101Facts.signals_of self df)) t
            =? 1)%Z eqn:E.
  - apply Z.eqb_eq in E. repeat split.
    + assumption.
    + now injection H as <-.
    + now injection H as <-.
    + intros _. eauto.
    + intros Hn. contradiction.
  - apply Z.eqb_neq in E. repeat split; try discriminate.
    + intros E1. contradiction.
Qed.

Lemma swing_replay self df sf t :
  SwingTradingStrategy.generate_signals self df = inr sf ->
  (t < length (rows df))%nat ->
  (forall r,
     SwingTradingStrategy.check_current_signal self (take (S t) df)
       = inr (Some r) ->
     zloc (SwingTradingStrategy.signal sf) t = 1%Z
     /\ SwingTradingStrategy.r_entry_price r
        = iloc (SwingTradingStrategy.entry_price sf) t
     /\ SwingTradingStrategy.r_stop_price r
        = iloc (SwingTradingStrategy.stop_price sf) t)
  /\ (zloc (SwingTradingStrategy.signal sf) t = 1%Z ->
      exists r,
        SwingTradingStrategy.check_current_signal self (take (S t) df)
          = inr (Some r))
  /\ (zloc (SwingTradingStrategy.signal sf) t <> 1%Z ->
      SwingTradingStrategy.check_current_signal self (take (S t) df)
        = inr None).
Proof.
  intros Hsf Ht.
  destruct (last_index_take t df Ht) as [Hl He].
  assert (Hgen : SwingTradingStrategy.generate_signals self (take (S t) df)
                 = inr (SwingFacts.signals_of self (take (S t) df))).
  { rewrite SwingFacts.swing_generate_signals_eq in *.
    cbn [columns take].
    destruct (columns df ColClose); [|discriminate].
    destruct (SwingTradingStrategy.fast_ema self <? 1)%nat; [discriminate|].
    destruct (SwingTradingStrategy.slow_ema self <? 1)%nat; [discriminate|].
    destruct (columns df ColHigh); [|discriminate].
    destruct (columns df ColLow); [|discriminate]. reflexivity. }
  apply SwingFacts.swing_generate_signals_inv in Hsf. subst sf.
  destruct (swing_row_take self df (S t) t (Nat.lt_succ_diag_r t) Ht)
    as (Es & Ee & Est).
  unfold SwingTradingStrategy.check_current_signal.
  rewrite Hgen. cbn [bind]. rewrite He, Hl, Es, Ee, Est.
  destruct (zloc (SwingTradingStrategy.signal (SwingFacts.signals_of self df))
              t =? 1)%Z eqn:E.
  - apply Z.eqb_eq in E. repeat split.
    + assumption.
    + now injection H as <-.
    + now injection H as <-.
    + intros _. eauto.
    + intros Hn. contradiction.
  - apply Z.eqb_neq in E. repeat split; try discriminate.
    + intros E1. contradiction.
Qed.

Lemma htf_replay self df sf t :
  QullamaggieHTFStrategy.generate_signals self df = inr sf ->
  (t < length (rows df))%nat ->
  (forall r,
     QullamaggieHTFStrategy.check_current_signal self (take (S t) df)
       = inr (Some r) ->
     zloc (QullamaggieHTFStrategy.signal sf) t = 1%Z
     /\ QullamaggieHTFStrategy.r_entry_price r
        = iloc (QullamaggieHTFStrategy.entry_price sf) t
     /\ QullamaggieHTFStrategy.r_stop_price r
        = iloc (QullamaggieHTFStrategy.stop_price sf) t)
  /\ (zloc (QullamaggieHTFStrategy.signal sf) t = 1%Z ->
      exists r,
        QullamaggieHTFStrategy.check_current_signal self (take (S t) df)
          = inr (Some r))
  /\ (zloc (QullamaggieHTFStrategy.signal sf) t <> 1%Z ->
      QullamaggieHTFStrategy.check_current_signal self (take (S t) df)
        = inr None).
Proof.
  intros Hsf Ht.
  destruct (last_index_take t df Ht) as [Hl He].
  assert (Hgen : QullamaggieHTFStrategy.generate_signals self (take (S t) df)
                 = inr (HTFFacts.signals_of self (take (S t) df))).
  { rewrite HTFFacts.htf_generate_signals_eq in *.
    cbn [columns take].
    destruct (columns df ColClose); [|discriminate].
    destruct (columns df ColVolume); [|discriminate].
    destruct (columns df ColHigh); [|discriminate].
    destruct (columns df ColLow); [|discriminate]. reflexivity. }
  apply HTFFacts.htf_generate_signals_inv in Hsf. destruct Hsf as [-> _].
  destruct (htf_row_take self df (S t) t (Nat.lt_succ_diag_r t) Ht)
    as (Es & Ee & Est).
  unfold QullamaggieHTFStrategy.check_current_signal.
  rewrite Hgen. cbn [bind]. rewrite He, Hl, Es, Ee, Est.
  destruct (zloc (QullamaggieHTFStrategy.signal (HTFFacts.signals_of self df))
              t =? 1)%Z eqn:E.
  - apply Z.eqb_eq in E. repeat split.
    + assumption.
    + now injection H as <-.
    + now injection H as <-.
    + intros _. eauto.
    + intros Hn. contradiction.
  - apply Z.eqb_neq in E. repeat split; try discriminate.
    + intros E1. contradiction.
Qed.

Lemma donchian_replay self df sf t :
  DonchianStrategy.generate_signals self df = inr sf ->
  (t < length (rows df))%nat ->
  (forall r,
     DonchianStrategy.check_current_signal self (take (S t) df)
       = inr (Some r) ->
     zloc (DonchianStrategy.signal sf) t <> 0%Z
     /\ DonchianStrategy.r_entry_price r
        = iloc (DonchianStrategy.entry_price sf) t
     /\ DonchianStrategy.r_stop_price r
        = iloc (DonchianStrategy.stop_price sf) t)
  /\ (zloc (DonchianStrategy.signal sf) t <> 0%Z ->
      exists r,
        DonchianStrategy.check_current_signal self (take (S t) df)
          = inr (Some r))
  /\ (zloc (DonchianStrategy.signal sf) t = 0%Z ->
      DonchianStrategy.check_current_signal self (take (S t) df) = inr None).
Proof.
  intros Hsf Ht.
  destruct (last_index_take t df Ht) as [Hl He].
  assert (Hgen : DonchianStrategy.generate_signals self (take (S t) df)
                 = inr (DonchianFacts.signals_of self (take (S t) df))).
  { rewrite DonchianFacts.donchian_generate_signals_eq in *.
    cbn [columns take].
    destruct (columns df ColHigh); [|discriminate].
    destruct (columns df ColLow); [|discriminate].
    destruct (columns df ColClose); [|discriminate]. reflexivity. }
  apply DonchianFacts.donchian_generate_signals_inv in Hsf. subst sf.
  destruct (donchian_row_take self df (S t) t (Nat.lt_succ_diag_r t) Ht)
    as (Es & Ee & Est).
  unfold DonchianStrategy.check_current_signal.
  rewrite Hgen. cbn [bind]. rewrite He, Hl, Es, Ee, Est.
  destruct (zloc (DonchianStrategy.signal (DonchianFacts.signals_of self df))
              t =? 0)%Z eqn:E; cbn [negb].
  - apply Z.eqb_eq in E. repeat split; try discriminate.
    + intros Hn. contradiction.
  - apply Z.eqb_neq in E. repeat split.
    + assumption.
    + now injection H as <-.
    + now injection H as <-.
    + intros _. eauto.
    + intros Hn. contradiction.
Qed.

(** X10.  Replaying history gives the history: for every variant,
    [check_current_signal] run on the first [t + 1] rows of a frame
    returns a record exactly when [generate_signals] on the whole frame
    marks row [t] (and [None] otherwise), and the record carries the
    entry and stop prices of that row. *)
Theorem replay_matches_history :
  (forall self df sf t,
     MA101Strategy.generate_signals self df = inr sf ->
     (t < length (rows df))%nat ->
     (forall r,
        MA101Strategy.check_current_signal self (take (S t) df)
          = inr (Some r) ->
        zloc (MA101Strategy.signal sf) t = 1%Z
        /\ MA101Strategy.r_entry_price r
           = iloc (MA101Strategy.entry_price sf) t
        /\ MA101Strategy.r_stop_price r
           = iloc (MA101Strategy.stop_price sf) t)
     /\ (zloc (MA101Strategy.signal sf) t = 1%Z ->
         exists r,
           MA101Strategy.check_current_signal self (take (S t) df)
             = inr (Some r))
     /\ (zloc (MA101Strategy.signal sf) t <> 1%Z ->
         MA101Strategy.check_current_signal self (take (S t) df) = inr None))
  /\ (forall self df sf t,
     DonchianStrategy.generate_signals self df = inr sf ->
     (t < length (rows df))%nat ->
     (forall r,
        DonchianStrategy.check_current_signal self (take (S t) df)
          = inr (Some r) ->
        zloc (DonchianStrategy.signal sf) t <> 0%Z
        /\ DonchianStrategy.r_entry_price r
           = iloc (DonchianStrategy.entry_price sf) t
        /\ DonchianStrategy.r_stop_price r
           = iloc (DonchianStrategy.stop_price sf) t)
     /\ (zloc (DonchianStrategy.signal sf) t <> 0%Z ->
         exists r,
           DonchianStrategy.check_current_signal self (take (S t) df)
             = inr (Some r))
     /\ (zloc (DonchianStrategy.signal sf) t = 0%Z ->
         DonchianStrategy.check_current_signal self (take (S t) df)
           = inr None))
  /\ (forall self df sf t,
     SwingTradingStrategy.generate_signals self df = inr sf ->
     (t < length (rows df))%nat ->
     (forall r,
        SwingTradingStrategy.check_current_signal self (take (S t) df)
          = inr (Some r) ->
        zloc (SwingTradingStrategy.signal sf) t = 1%Z
        /\ SwingTradingStrategy.r_entry_price r
           = iloc (SwingTradingStrategy.entry_price sf) t
        /\ SwingTradingStrategy.r_stop_price r
           = iloc (SwingTradingStrategy.stop_price sf) t)
     /\ (zloc (SwingTradingStrategy.signal sf) t = 1%Z ->
         exists r,
           SwingTradingStrategy.check_current_signal self (take (S t) df)
             = inr (Some r))
     /\ (zloc (SwingTradingStrategy.signal sf) t <> 1%Z ->
         SwingTradingStrategy.check_current_signal self (take (S t) df)
           = inr None))
  /\ (forall self df sf t,
     QullamaggieHTFStrategy.generate_signals self df = inr sf ->
     (t < length (rows df))%nat ->
     (forall r,
        QullamaggieHTFStrategy.check_current_signal self (take (S t) df)
          = inr (Some r) ->
        zloc (QullamaggieHTFStrategy.signal sf) t = 1%Z
        /\ QullamaggieHTFStrategy.r_entry_price r
           = iloc (QullamaggieHTFStrategy.entry_price sf) t
        /\ QullamaggieHTFStrategy.r_stop_price r
           = iloc (QullamaggieHTFStrategy.stop_price sf) t)
     /\ (zloc (QullamaggieHTFStrategy.signal sf) t = 1%Z ->
         exists r,
           QullamaggieHTFStrategy.check_current_signal self (take (S t) df)
             = inr (Some r))
     /\ (zloc (QullamaggieHTFStrategy.signal sf) t <> 1%Z ->
         QullamaggieHTFStrategy.check_current_signal self (take (S t) df)
           = inr None)).
Proof.
  split; [exact ma101_replay|].
  split; [exact donchian_replay|].
  split; [exact swing_replay|].
  exact htf_replay.
Qed.

Lemma replay_matches_history_witness :
  exists r,
    DonchianStrategy.check_current_signal donchian_2_1
      (take 3 (of_bars (new_high_bars ++ [still_bar 4 1]))) = inr (Some r).
Proof.
  destruct replay_matches_history as (_ & HD & _).
  refine (proj1 (proj2 (HD donchian_2_1
            (of_bars (new_high_bars ++ [still_bar 4 1]))
            (DonchianFacts.signals_of donchian_2_1
               (of_bars (new_high_bars ++ [still_bar 4 1])))
            2%nat _ _)) _).
  - vm_compute; reflexivity.
  - vm_compute; lia.
  - vm_compute; discriminate.
Defined.

(* ================================================================== *)
(** ** The average true range                                          *)
(* ================================================================== *)

(** The cells of a full window are the cells of the rows it spans. *)
Lemma window_In w s t x :
  (w <= t + 1)%nat -> (t < length s)%nat -> In x (window w s t) ->
  exists i, (t + 1 - w <= i)%nat /\ (i <= t)%nat /\ x = iloc s i.
Proof.
  intros Hw Ht Hin. unfold window in Hin.
  destruct (In_nth _ _ NaN Hin) as (n & Hn & E).
  rewrite length_firstn, length_skipn in Hn.
  rewrite nth_firstn in E.
  destruct (Nat.ltb_spec n w); [|lia].
  rewrite nth_skipn in E.
  exists (t + 1 - w + n)%nat. repeat split; try lia.
  now rewrite <- E.
Qed.

Lemma nanmax_Fin_nonneg a y :
  fin_sat (fun q => 0 <= q) y ->
  fin_sat (fun q => 0 <= q) (nanmax (Fin a) y).
Proof.
  destruct y as [b| | |]; simpl; try contradiction. intros Hb.
  unfold fmax. cbn [fle].
  destruct (Qle_bool a b) eqn:E; simpl; [assumption|].
  assert (~ a <= b) by (rewrite <- Qle_bool_iff; congruence). lra.
Qed.

(** The true range of a row is never negative, except on the first row
    of a frame whose first bar has its high below its low. *)
Lemma iloc_true_range_nonneg df t :
  (t < length (rows df))%nat ->
  (1 <= t)%nat \/ low (row df 0) <= high (row df 0) ->
  fin_sat (fun q => 0 <= q) (iloc (true_range df) t).
Proof.
  intros Ht Hok. unfold true_range, row_max3.
  unfold iloc at 1. rewrite nth_tabulate by (autorewrite with len; lia).
  rewrite !iloc_map by (autorewrite with len; lia).
  rewrite !iloc_zip_with by (autorewrite with len; lia).
  rewrite iloc_shift by (autorewrite with len; lia).
  rewrite !iloc_col_of by lia.
  destruct (Nat.ltb_spec t 1) as [H0|H1].
  - assert (t = 0)%nat as -> by lia.
    destruct Hok as [Hok|Hok]; [lia|].
    cbn [fsub fneg fadd fabs nanmax cell fin_sat]. lra.
  - cbn [fsub fneg fadd fabs cell].
    match goal with
    | |- fin_sat _ (nanmax ?x _) =>
        assert (Hx : fin_sat (fun q => 0 <= q) x)
          by (apply nanmax_Fin_nonneg; cbn [fin_sat]; apply Qabs_nonneg);
        destruct x as [a| | |]; cbn [fin_sat] in Hx; try contradiction
    end.
    apply nanmax_Fin_nonneg. cbn [fin_sat]. apply Qabs_nonneg.
Qed.

(** X11.  [_calculate_atr] has one cell per row.  For [1 <= period] the
    cell of row [t] is a real number from row [period - 1] on and NaN
    before (and on every row for [period = 0]); the number is not
    negative as soon as the window has left the first row, and on every
    row when the first bar has [low <= high]. *)
Theorem atr_defined_and_not_negative df period atr t :
  StrategyBase._calculate_atr df period = inr atr ->
  (t < length (rows df))%nat ->
  length atr = length (rows df)
  /\ ((period = 0 \/ t + 1 < period)%nat -> iloc atr t = NaN)
  /\ ((1 <= period)%nat -> (period <= t + 1)%nat -> defined (iloc atr t))
  /\ ((1 <= period)%nat -> (period <= t + 1)%nat ->
      (period <= t)%nat \/ low (row df 0) <= high (row df 0) ->
      fin_sat (fun q => 0 <= q) (iloc atr t)).
Proof.
  intros H Ht. rewrite calculate_atr_eq in H.
  destruct (columns df ColHigh); [|discriminate].
  destruct (columns df ColLow); [|discriminate].
  destruct (columns df ColClose); [|discriminate].
  injection H as <-.
  assert (Hl : (t < length (true_range df))%nat) by now autorewrite with len.
  split; [now autorewrite with len|].
  split; [|split].
  - intros [->|Hs].
    + unfold rolling_mean. now rewrite iloc_rolling.
    + now apply rolling_short.
  - intros H1 Hp.
    destruct (rolling_mean_full _ _ period t (Forall_defined_true_range df)
                H1 Hp Hl) as (qs & _ & _ & _ & ->).
    exact I.
  - intros H1 Hp Hok.
    destruct (rolling_mean_full _ _ period t (Forall_defined_true_range df)
                H1 Hp Hl) as (qs & Hw & _ & Hlen & ->).
    cbn [fin_sat].
    assert (Hqs : Forall (fun q => 0 <= q) qs).
    { apply Forall_forall. intros q Hq.
      assert (Hin : In (Fin q) (window period (true_range df) t))
        by (rewrite Hw; now apply in_map).
      destruct (window_In _ _ _ _ Hp Hl Hin) as (i & Hi1 & Hi2 & E).
      assert (Hnn : fin_sat (fun q => 0 <= q) (iloc (true_range df) i)).
      { apply iloc_true_range_nonneg; [lia|].
        destruct Hok as [Hok|Hok]; [left; lia | now right]. }
      rewrite <- E in Hnn. exact Hnn. }
    apply Qle_shift_div_l; [now apply Qnat_pos|].
    rewrite Qmult_0_l. now apply Qsum_nonneg.
Qed.

Lemma atr_defined_and_not_negative_witness :
  fin_sat (fun q => 0 <= q)
    (iloc (rolling_mean 2 (true_range (of_bars new_high_bars))) 2).
Proof.
  refine (proj2 (proj2 (proj2
    (atr_defined_and_not_negative (of_bars new_high_bars) 2
       (rolling_mean 2 (true_range (of_bars new_high_bars))) 2 _ _))) _ _ _).
  - vm_compute; reflexivity.
  - vm_compute; lia.
  - lia.
  - lia.
  - left. lia.
Defined.

(* ================================================================== *)
(** ** Screening a universe (qullamaggie_htf_strategy.py)               *)
(* ================================================================== *)

(** [df['symbol'] = symbol] on the copy [screen_universe] works on. *)
Definition set_symbol (s : string) (df : DataFrame) : DataFrame :=
  {| rows := rows df; columns := columns df; symbol := Some s |}.

(** [data_dict]: the frames by symbol; [dict_get] is the lookup behind
    [symbol not in data_dict] and [data_dict[symbol]]. *)
Definition dict_get (data_dict : list (string * DataFrame)) (s : string) :
    option DataFrame :=
  match find (fun kv => String.eqb (fst kv) s) data_dict with
  | Some kv => Some (snd kv)
  | None => None
  end.

(** [QullamaggieHTFStrategy.screen_universe(symbol_list, data_dict)] *)
Fixpoint screen_universe (self : QullamaggieHTFStrategy.t)
    (symbol_list : list string) (data_dict : list (string * DataFrame)) :
    Err (list QullamaggieHTFStrategy.Record_) :=
  match symbol_list with
  | [] => ret []
  | symbol :: rest =>
      match dict_get data_dict symbol with
      | None => screen_universe self rest data_dict
      | Some df0 =>
          let df := set_symbol symbol df0 in
          signal <- QullamaggieHTFStrategy.check_current_signal self df ;;
          signals <- screen_universe self rest data_dict ;;
          ret (match signal with
               | Some r => r :: signals
               | None => signals
               end)
      end
  end.

(** Whether the screen reports [symbol]. *)
Definition htf_fires (self : QullamaggieHTFStrategy.t)
    (data_dict : list (string * DataFrame)) (symbol : string) : bool :=
  match dict_get data_dict symbol with
  | Some df =>
      match QullamaggieHTFStrategy.check_current_signal self
              (set_symbol symbol df) with
      | inr (Some _) => true
      | _ => false
      end
  | None => false
  end.

(** A frame the screen cannot evaluate: one of the four columns the HTF
    variant reads is missing. *)
Definition lacks_column (df : DataFrame) : Prop :=
  exists c, reads_hlcv c = true /\ columns df c = false.

Lemma htf_record_symbol self df r :
  QullamaggieHTFStrategy.check_current_signal self df = inr (Some r) ->
  QullamaggieHTFStrategy.r_symbol r = symbol_or_unknown df.
Proof.
  unfold QullamaggieHTFStrategy.check_current_signal. intros H.
  apply bind_inv in H. destruct H as (sf & _ & H).
  destruct (empty df); [discriminate|].
  destruct (zloc (QullamaggieHTFStrategy.signal sf) (last_index df) =? 1)%Z;
    [|discriminate].
  now injection H as <-.
Qed.

Lemma htf_check_outcome self df :
  (~ lacks_column df /\
   exists o, QullamaggieHTFStrategy.check_current_signal self df = inr o)
  \/ (lacks_column df /\
      exists c, reads_hlcv c = true /\
        QullamaggieHTFStrategy.check_current_signal self df
          = inl (KeyError (column_name c))).
Proof.
  unfold QullamaggieHTFStrategy.check_current_signal, lacks_column.
  rewrite HTFFacts.htf_generate_signals_eq.
  destruct (columns df ColClose) eqn:Hc;
    [|right; split; exists ColClose; auto].
  destruct (columns df ColVolume) eqn:Hv;
    [|right; split; exists ColVolume; auto].
  destruct (columns df ColHigh) eqn:Hh;
    [|right; split; exists ColHigh; auto].
  destruct (columns df ColLow) eqn:Hl;
    [|right; split; exists ColLow; auto].
  left. split.
  - intros (c & Hr & Hm). destruct c; simpl in Hr; congruence.
  - cbn [bind]. destruct (empty df); [eexists; reflexivity|].
    destruct (_ =? 1)%Z; eexists; reflexivity.
Qed.

(** X12.  When [screen_universe] returns, the symbols of its records are
    the listed symbols that are in [data_dict] and whose frame gives a
    record, in the order of [symbol_list] and once per occurrence in it:
    a symbol missing from [data_dict] is skipped, and each record is the
    one [check_current_signal] gives for the frame stored under its own
    symbol, never carrying the symbol 'Unknown' of an unlabelled frame. *)
Theorem screen_universe_reports_listed_symbols self symbol_list data_dict signals :
  screen_universe self symbol_list data_dict = inr signals ->
  map QullamaggieHTFStrategy.r_symbol signals
    = filter (htf_fires self data_dict) symbol_list
  /\ Forall (fun r =>
       In (QullamaggieHTFStrategy.r_symbol r) symbol_list
       /\ exists df,
            dict_get data_dict (QullamaggieHTFStrategy.r_symbol r) = Some df
            /\ QullamaggieHTFStrategy.check_current_signal self
                 (set_symbol (QullamaggieHTFStrategy.r_symbol r) df)
               = inr (Some r)) signals.
Proof.
  revert signals.
  induction symbol_list as [|s l IH]; intros signals H.
  - injection H as <-. split; [reflexivity | constructor].
  - cbn [screen_universe] in H. cbn [filter]. unfold htf_fires at 1.
    destruct (dict_get data_dict s) as [df|] eqn:Hd.
    + cbv zeta in H. apply bind_inv in H. destruct H as (o & Ho & H).
      apply bind_inv in H. destruct H as (rest & Hrest & H).
      destruct (IH _ Hrest) as [IH1 IH2].
      assert (IH2' : Forall (fun r =>
         In (QullamaggieHTFStrategy.r_symbol r) (s :: l)
         /\ exists df,
              dict_get data_dict (QullamaggieHTFStrategy.r_symbol r) = Some df
              /\ QullamaggieHTFStrategy.check_current_signal self
                   (set_symbol (QullamaggieHTFStrategy.r_symbol r) df)
                 = inr (Some r)) rest).
      { eapply Forall_impl; [|exact IH2].
        intros r [Hin Hr]. split; [now right | exact Hr]. }
      rewrite Ho. destruct o as [r|]; injection H as <-.
      * pose proof (htf_record_symbol _ _ _ Ho) as Hs.
        cbn [symbol_or_unknown set_symbol symbol] in Hs.
        split.
        -- cbn [map]. now rewrite Hs, IH1.
        -- constructor; [|exact IH2'].
           rewrite Hs. split; [now left|]. exists df. auto.
      * split; assumption.
    + destruct (IH _ H) as [IH1 IH2]. split; [assumption|].
      eapply Forall_impl; [|exact IH2].
      intros r [Hin Hr]. split; [now right | exact Hr].
Qed.

(** X13.  [screen_universe] has no error handling of its own: it raises
    exactly when some listed symbol has a frame in [data_dict] that lacks
    one of the columns high, low, close, volume; the error is the
    KeyError of such a column, and no record is returned at all, also
    not those of the good frames scanned before the bad one. *)
Theorem screen_universe_stops_at_bad_frame self symbol_list data_dict :
  ((exists e, screen_universe self symbol_list data_dict = inl e) <->
   Exists (fun s => exists df,
             dict_get data_dict s = Some df /\ lacks_column df) symbol_list)
  /\ (forall e, screen_universe self symbol_list data_dict = inl e ->
      exists c, reads_hlcv c = true /\ e = KeyError (column_name c)).
Proof.
  induction symbol_list as [|s l [[IHa IHb] IHc]].
  - split; [split|].
    + intros [e H]. discriminate.
    + intros H. inversion H.
    + intros e H. discriminate.
  - cbn [screen_universe].
    destruct (dict_get data_dict s) as [df|] eqn:Hd.
    + cbv zeta.
      destruct (htf_check_outcome self (set_symbol s df))
        as [[Hok [o Ho]]|[Hbad (c & Hc & Hf)]].
      * rewrite Ho. cbn [bind].
        destruct (screen_universe self l data_dict) as [e|rest] eqn:Hrest.
        -- cbn [bind]. split; [split|].
           ++ intros _. apply Exists_cons_tl. apply IHa. eauto.
           ++ intros _. eauto.
           ++ intros e' [= <-]. now apply IHc.
        -- cbn [bind ret]. split; [split|].
           ++ intros [e H]. discriminate.
           ++ intros H. inversion H as [? ? (df' & Hd' & Hl)|? ? Hl]; subst.
              ** rewrite Hd in Hd'. injection Hd' as <-. contradiction.
              ** destruct (IHb Hl) as [e He]. discriminate.
           ++ intros e H. discriminate.
      * rewrite Hf. cbn [bind]. split; [split|].
        -- intros _. apply Exists_cons_hd. exists df. split; [assumption|].
           exact Hbad.
        -- intros _. eauto.
        -- intros e [= <-]. eauto.
    + split; [split|].
      * intros H. apply Exists_cons_tl. now apply IHa.
      * intros H. inversion H as [? ? (df' & Hd' & Hl)|? ? Hl]; subst.
        -- congruence.
        -- now apply IHb.
      * exact IHc.
Qed.

Lemma screen_universe_reports_listed_symbols_witness :
  exists signals,
    screen_universe htf_default ["AAA"; "ZZZ"; "BBB"]%string
      [("AAA"%string, of_bars breakout_bars);
       ("BBB"%string, of_bars thirty_bars)] = inr signals
    /\ map QullamaggieHTFStrategy.r_symbol signals = ["AAA"%string].
Proof.
  destruct (screen_universe htf_default ["AAA"; "ZZZ"; "BBB"]%string
              [("AAA"%string, of_bars breakout_bars);
               ("BBB"%string, of_bars thirty_bars)]) as [e|signals] eqn:E.
  - vm_compute in E. discriminate.
  - exists signals. split; [reflexivity|].
    rewrite (proj1 (screen_universe_reports_listed_symbols _ _ _ _ E)).
    vm_compute. reflexivity.
Defined.

Lemma screen_universe_stops_at_bad_frame_witness :
  exists e,
    screen_universe htf_default ["AAA"; "BBB"]%string
      [("AAA"%string, of_bars breakout_bars);
       ("BBB"%string,
        {| rows := thirty_bars; columns := reads_hlc; symbol := None |})]
    = inl e.
Proof.
  apply (proj2 (proj1 (screen_universe_stops_at_bad_frame htf_default
           ["AAA"; "BBB"]%string
           [("AAA"%string, of_bars breakout_bars);
            ("BBB"%string,
             {| rows := thirty_bars; columns := reads_hlc;
                symbol := None |})]))).
  apply Exists_cons_tl, Exists_cons_hd.
  eexists. split; [reflexivity|].
  exists ColVolume. split; reflexivity.
Defined.

(* ================================================================== *)
(** ** The daily watchlist (dashboard/pages/1_Daily_Watchlist.py)       *)
(* ================================================================== *)

(** The scan of the watchlist page calls [check_current_signal] of the
    four variants, each built without a config, on the frame
    [load_data(symbol)] of every symbol of the universe.  [load_data]
    (module [scripts.data_management.fetch_data]) and the names the
    strategy definitions give the variants are not among these sources;
    they are parameters of the model.  [load_data symbol = None] stands
    for a call that raises. *)

Inductive StrategyClass : Type := ClsMA101 | ClsDonchian | ClsSwing | ClsHTF.

(** [STRATEGY_CLASSES.get(strategy_id)] *)
Definition STRATEGY_CLASSES (strategy_id : string) : option StrategyClass :=
  if String.eqb strategy_id "ma101_burns" then Some ClsMA101
  else if String.eqb strategy_id "donchian_breakout" then Some ClsDonchian
  else if String.eqb strategy_id "swing_trading_burns" then Some ClsSwing
  else if String.eqb strategy_id "qullamaggie_htf" then Some ClsHTF
  else None.

(** The dict a variant returns. *)
Inductive signal_dict : Type :=
| OfMA101 (r : MA101Strategy.Record_)
| OfDonchian (r : DonchianStrategy.Record_)
| OfSwing (r : SwingTradingStrategy.Record_)
| OfHTF (r : QullamaggieHTFStrategy.Record_).

(** [signal['risk_per_share']] *)
Definition sig_risk (s : signal_dict) : fval :=
  match s with
  | OfMA101 r => MA101Strategy.risk_per_share r
  | OfDonchian r => DonchianStrategy.risk_per_share r
  | OfSwing r => SwingTradingStrategy.risk_per_share r
  | OfHTF r => QullamaggieHTFStrategy.risk_per_share r
  end.

(** [signal['symbol']] *)
Definition sig_symbol (s : signal_dict) : string :=
  match s with
  | OfMA101 r => MA101Strategy.r_symbol r
  | OfDonchian r => DonchianStrategy.r_symbol r
  | OfSwing r => SwingTradingStrategy.r_symbol r
  | OfHTF r => QullamaggieHTFStrategy.r_symbol r
  end.

(** An element of [all_signals]: the dict with its ['strategy_id']. *)
Record listed : Type := {
  w_strategy_id : string;
  w_signal : signal_dict
}.

Definition risk_of (e : listed) : fval := sig_risk (w_signal e).

(** [sorted(xs, key=key)] on keys that are ordered by [<]: the stable
    sort, each element going behind the ones not greater than it. *)
Fixpoint insert_by {A} (key : A -> fval) (x : A) (l : list A) : list A :=
  match l with
  | [] => [x]
  | y :: r =>
      if flt (key x) (key y) then x :: y :: r else y :: insert_by key x r
  end.

Definition sorted {A} (key : A -> fval) (l : list A) : list A :=
  fold_left (fun acc x => insert_by key x acc) l [].

(** The three columns of the "By Risk" tab. *)
Definition sorted_signals (signals : list listed) : list listed :=
  sorted risk_of signals.

Definition low_risk (signals : list listed) : list listed :=
  filter (fun s => flt (risk_of s) (Fin 1)) (sorted_signals signals).

Definition med_risk (signals : list listed) : list listed :=
  filter (fun s => fle (Fin 1) (risk_of s) && flt (risk_of s) (Fin 3))
    (sorted_signals signals).

Definition high_risk (signals : list listed) : list listed :=
  filter (fun s => fge (risk_of s) (Fin 3)) (sorted_signals signals).

Section Watchlist.

Variable load_data : string -> option DataFrame.
Variable strategy_name : StrategyClass -> string.
Variables min_risk max_risk : Q.

(** [StrategyClass().check_current_signal(df)] *)
Definition check_with (cls : StrategyClass) (df : DataFrame) :
    Err (option signal_dict) :=
  match cls with
  | ClsMA101 =>
      r <- MA101Strategy.check_current_signal
             (MA101Strategy.default (strategy_name cls)) df ;;
      ret (option_map OfMA101 r)
  | ClsDonchian =>
      r <- DonchianStrategy.check_current_signal
             (DonchianStrategy.default (strategy_name cls)) df ;;
      ret (option_map OfDonchian r)
  | ClsSwing =>
      r <- SwingTradingStrategy.check_current_signal
             (SwingTradingStrategy.default (strategy_name cls)) df ;;
      ret (option_map OfSwing r)
  | ClsHTF =>
      r <- QullamaggieHTFStrategy.check_current_signal
             (QullamaggieHTFStrategy.default (strategy_name cls)) df ;;
      ret (option_map OfHTF r)
  end.

(** The body of the inner loop; an exception of the strategy is
    swallowed. *)
Definition scan_strategy (df : DataFrame) (strategy_id : string) : list listed :=
  match STRATEGY_CLASSES strategy_id with
  | None => []
  | Some cls =>
      match check_with cls df with
      | inr (Some signal) =>
          if fle (Fin min_risk) (sig_risk signal)
             && fle (sig_risk signal) (Fin max_risk)
          then [{| w_strategy_id := strategy_id; w_signal := signal |}]
          else []
      | inr None => []
      | inl _ => []
      end
  end.

(** The body of the outer loop.  A frame without any column is
    [df.empty] for pandas; here it goes on to the strategies, whose
    KeyError is swallowed: no signal either way. *)
Definition scan_symbol (selected_strategies : list string) (symbol : string) :
    list listed :=
  match load_data symbol with
  | None => []
  | Some df =>
      if empty df || (length (rows df) <? 200)%nat then []
      else flat_map (scan_strategy (set_symbol symbol df)) selected_strategies
  end.

(** [all_signals] after the scan. *)
Definition scan (symbols selected_strategies : list string) : list listed :=
  flat_map (scan_symbol selected_strategies) symbols.

End Watchlist.

Lemma ma101_record_symbol self df r :
  MA101Strategy.check_current_signal self df = inr (Some r) ->
  MA101Strategy.r_symbol r = symbol_or_unknown df.
Proof.
  unfold MA101Strategy.check_current_signal. intros H.
  apply bind_inv in H. destruct H as (sf & _ & H).
  destruct (empty df); [discriminate|].
  destruct (zloc (MA101Strategy.signal sf) (last_index df) =? 1)%Z;
    [|discriminate].
  now injection H as <-.
Qed.

Lemma donchian_record_symbol self df r :
  DonchianStrategy.check_current_signal self df = inr (Some r) ->
  DonchianStrategy.r_symbol r = symbol_or_unknown df.
Proof.
  unfold DonchianStrategy.check_current_signal. intros H.
  apply bind_inv in H. destruct H as (sf & _ & H).
  destruct (empty df); [discriminate|].
  destruct (negb (zloc (DonchianStrategy.signal sf) (last_index df) =? 0)%Z);
    [|discriminate].
  now injection H as <-.
Qed.

Lemma swing_record_symbol self df r :
  SwingTradingStrategy.check_current_signal self df = inr (Some r) ->
  SwingTradingStrategy.r_symbol r = symbol_or_unknown df.
Proof.
  unfold SwingTradingStrategy.check_current_signal. intros H.
  apply bind_inv in H. destruct H as (sf & _ & H).
  destruct (empty df); [discriminate|].
  destruct (zloc (SwingTradingStrategy.signal sf) (last_index df) =? 1)%Z;
    [|discriminate].
  now injection H as <-.
Qed.

Lemma check_with_symbol names cls df s :
  check_with names cls df = inr (Some s) ->
  sig_symbol s = symbol_or_unknown df.
Proof.
  destruct cls; unfold check_with; intros H;
    apply bind_inv in H; destruct H as ([r|] & Hr & H);
    try discriminate; injection H as <-; cbn [sig_symbol].
  - eapply ma101_record_symbol, Hr.
  - eapply donchian_record_symbol, Hr.
  - eapply swing_record_symbol, Hr.
  - eapply htf_record_symbol, Hr.
Qed.

Lemma between_Fin a b x :
  fle (Fin a) x = true -> fle x (Fin b) = true ->
  exists q, x = Fin q /\ a <= q /\ q <= b.
Proof.
  destruct x as [q| | |]; cbn [fle]; try discriminate.
  intros H1 H2. apply Qle_bool_iff in H1, H2. eauto.
Qed.

(** Where an element of [all_signals] comes from. *)
Lemma In_scan load_data names min_risk max_risk symbols selected e :
  In e (scan load_data names min_risk max_risk symbols selected) ->
  exists symbol df cls,
    In symbol symbols /\ load_data symbol = Some df
    /\ (200 <= length (rows df))%nat
    /\ In (w_strategy_id e) selected
    /\ STRATEGY_CLASSES (w_strategy_id e) = Some cls
    /\ check_with names cls (set_symbol symbol df) = inr (Some (w_signal e))
    /\ fle (Fin min_risk) (risk_of e) = true
    /\ fle (risk_of e) (Fin max_risk) = true.
Proof.
  unfold scan. intros H.
  apply in_flat_map in H. destruct H as (symbol & Hsym & H).
  unfold scan_symbol in H.
  destruct (load_data symbol) as [df|] eqn:Hload; [|contradiction].
  destruct (empty df || (length (rows df) <? 200)%nat) eqn:Hskip;
    [contradiction|].
  apply orb_false_iff in Hskip. destruct Hskip as [_ Hlen].
  apply Nat.ltb_ge in Hlen.
  apply in_flat_map in H. destruct H as (sid & Hsid & H).
  unfold scan_strategy in H.
  destruct (STRATEGY_CLASSES sid) as [cls|] eqn:Hcls; [|contradiction].
  destruct (check_with names cls (set_symbol symbol df))
    as [err|[signal|]] eqn:Hchk; try contradiction.
  destruct (fle (Fin min_risk) (sig_risk signal)
            && fle (sig_risk signal) (Fin max_risk)) eqn:Hf;
    [|contradiction].
  destruct H as [<-|[]]. apply andb_true_iff in Hf. destruct Hf as [H1 H2].
  exists symbol, df, cls. cbn [w_strategy_id w_signal]. unfold risk_of.
  cbn [w_signal]. repeat split; assumption.
Qed.

(** X14.  What the scan lists.  Every element of [all_signals] was
    returned by one of the selected, known strategies for a symbol of
    the universe whose frame loaded with at least 200 rows; it carries
    that symbol; and its risk-per-share is a real number between
    [min_risk] and [max_risk].  A record whose risk is NaN, infinite or
    outside the bounds - with [min_risk >= 0], every record with a
    negative risk-per-share - is left out. *)
Theorem scan_lists_filtered_records load_data names min_risk max_risk
    symbols selected e :
  In e (scan load_data names min_risk max_risk symbols selected) ->
  (exists q, risk_of e = Fin q /\ min_risk <= q /\ q <= max_risk)
  /\ In (sig_symbol (w_signal e)) symbols
  /\ In (w_strategy_id e) selected
  /\ exists df cls,
       load_data (sig_symbol (w_signal e)) = Some df
       /\ (200 <= length (rows df))%nat
       /\ STRATEGY_CLASSES (w_strategy_id e) = Some cls
       /\ check_with names cls (set_symbol (sig_symbol (w_signal e)) df)
          = inr (Some (w_signal e)).
Proof.
  intros H. apply In_scan in H.
  destruct H as (sym & df & cls & Hs & Hl & Hn & Hsel & Hc & Hchk & H1 & H2).
  pose proof (check_with_symbol _ _ _ _ Hchk) as E.
  cbn [symbol_or_unknown set_symbol symbol] in E. rewrite E.
  split; [now apply between_Fin|].
  split; [assumption|]. split; [assumption|].
  exists df, cls. auto.
Qed.

(** 200 quiet bars, then a bar that breaks out on three times the
    volume. *)
Definition long_breakout_bars : list Bar :=
  map quiet_bar (seq 0 200) ++
  [{| date := 200; open := 11; high := 21; low := 11; close := 20;
      volume := 30000000 |}].

Lemma scan_lists_filtered_records_witness :
  exists e q,
    In e (scan (fun _ => Some (of_bars long_breakout_bars)) (fun _ => "S"%string)
            0 100 ["SPY"%string]
            ["qullamaggie_htf"%string; "donchian_breakout"%string])
    /\ risk_of e = Fin q /\ 0 <= q /\ q <= 100.
Proof.
  destruct (scan (fun _ => Some (of_bars long_breakout_bars))
              (fun _ => "S"%string) 0 100 ["SPY"%string]
              ["qullamaggie_htf"%string; "donchian_breakout"%string])
    as [|e l] eqn:E.
  - vm_compute in E. discriminate.
  - assert (Hin : In e (scan (fun _ => Some (of_bars long_breakout_bars))
              (fun _ => "S"%string) 0 100 ["SPY"%string]
              ["qullamaggie_htf"%string; "donchian_breakout"%string]))
      by (rewrite E; now left).
    destruct (scan_lists_filtered_records _ _ _ _ _ _ _ Hin)
      as ((q & Hq & H0 & H100) & _).
    exists e, q.
    split; [left; reflexivity|]. split; [exact Hq|].
    split; [exact H0 | exact H100].
Defined.

(* ------------------------------------------------------------------ *)
(** *** The "By Risk" tab                                               *)
(* ------------------------------------------------------------------ *)

Section SortedByKey.

Context {A : Type}.
Variable key : A -> fval.

(** [a] is listed before [b]. *)
Definition key_le (a b : A) : Prop := fle (key a) (key b) = true.

Lemma insert_by_perm x l : Permutation (insert_by key x l) (x :: l).
Proof.
  induction l as [|y r IH]; cbn [insert_by]; [apply Permutation_refl|].
  destruct (flt (key x) (key y)); [apply Permutation_refl|].
  eapply Permutation_trans; [apply perm_skip, IH | apply perm_swap].
Qed.

Lemma fold_insert_perm l acc :
  Permutation (fold_left (fun acc x => insert_by key x acc) l acc) (acc ++ l).
Proof.
  revert acc. induction l as [|x l IH]; intros acc; cbn [fold_left].
  - rewrite app_nil_r. apply Permutation_refl.
  - eapply Permutation_trans; [apply IH|].
    eapply Permutation_trans;
      [apply Permutation_app_tail, insert_by_perm|].
    cbn [app]. apply Permutation_middle.
Qed.

Lemma sorted_perm l : Permutation (sorted key l) l.
Proof. unfold sorted. apply (fold_insert_perm l []). Qed.

Lemma flt_key_le a b :
  defined (key a) -> defined (key b) ->
  flt (key a) (key b) = true -> key_le a b.
Proof.
  unfold key_le. destruct (key a) as [p| | |], (key b) as [q| | |];
    cbn [defined flt fle]; try contradiction. intros _ _ H.
  apply Qlt_bool_iff in H. apply Qle_bool_iff. lra.
Qed.

Lemma nflt_key_le a b :
  defined (key a) -> defined (key b) ->
  flt (key a) (key b) = false -> key_le b a.
Proof.
  unfold key_le. destruct (key a) as [p| | |], (key b) as [q| | |];
    cbn [defined flt fle]; try contradiction. intros _ _ H.
  apply Qlt_bool_false in H. now apply Qle_bool_iff.
Qed.

Lemma key_le_trans a b c :
  defined (key b) -> key_le a b -> key_le b c -> key_le a c.
Proof.
  unfold key_le. destruct (key b) as [q| | |]; cbn [defined];
    try contradiction. intros _.
  destruct (key a) as [p| | |], (key c) as [r| | |];
    cbn [fle]; try discriminate; try reflexivity.
  intros H1 H2. apply Qle_bool_iff in H1, H2. apply Qle_bool_iff. lra.
Qed.

Lemma insert_by_sorted x l :
  defined (key x) -> Forall (fun y => defined (key y)) l ->
  StronglySorted key_le l -> StronglySorted key_le (insert_by key x l).
Proof.
  intros Hx Hl Hs. induction Hs as [|y r Hr IH Hy]; cbn [insert_by].
  - constructor; constructor.
  - inversion Hl as [|? ? Hdy Hdr]; subst.
    destruct (flt (key x) (key y)) eqn:E.
    + constructor; [now constructor|].
      pose proof (flt_key_le _ _ Hx Hdy E) as Hxy.
      constructor; [assumption|].
      eapply Forall_impl; [|exact Hy].
      intros z Hz. now apply (key_le_trans x y z).
    + constructor; [now apply IH|].
      eapply Permutation_Forall;
        [apply Permutation_sym, insert_by_perm|].
      constructor; [|assumption].
      now apply nflt_key_le.
Qed.

Lemma fold_insert_sorted l acc :
  Forall (fun y => defined (key y)) l ->
  Forall (fun y => defined (key y)) acc ->
  StronglySorted key_le acc ->
  StronglySorted key_le (fold_left (fun acc x => insert_by key x acc) l acc).
Proof.
  revert acc. induction l as [|x l IH]; intros acc Hl Ha Hs; cbn [fold_left].
  - assumption.
  - inversion Hl as [|? ? Hx Hl']; subst.
    apply IH; [assumption| |now apply insert_by_sorted].
    eapply Permutation_Forall;
      [apply Permutation_sym, insert_by_perm|].
    now constructor.
Qed.

Lemma sorted_sorted l :
  Forall (fun y => defined (key y)) l ->
  StronglySorted key_le (sorted key l).
Proof.
  intros H. unfold sorted.
  apply fold_insert_sorted; [assumption | constructor | constructor].
Qed.

Lemma above_not_below c x y :
  fle (Fin c) (key x) = true -> key_le x y -> defined (key y) ->
  flt (key y) (Fin c) = false.
Proof.
  unfold key_le.
  destruct (key x) as [p| | |], (key y) as [q| | |];
    cbn [defined fle flt]; try contradiction; try discriminate.
  intros Hc Hy _. apply Qle_bool_iff in Hc, Hy. apply Qlt_bool_false. lra.
Qed.

Lemma filter_below_nil c x r :
  fle (Fin c) (key x) = true ->
  Forall (key_le x) r -> Forall (fun y => defined (key y)) r ->
  filter (fun s => flt (key s) (Fin c)) r = [].
Proof.
  intros Hc Hx Hd. induction Hx as [|y r Hy Hx IH]; [reflexivity|].
  inversion Hd as [|? ? Hdy Hdr]; subst. cbn [filter].
  rewrite (above_not_below c x y Hc Hy Hdy). now apply IH.
Qed.

Lemma filter_between_nil a b x r :
  fle (Fin b) (key x) = true ->
  Forall (key_le x) r -> Forall (fun y => defined (key y)) r ->
  filter (fun s => fle (Fin a) (key s) && flt (key s) (Fin b)) r = [].
Proof.
  intros Hc Hx Hd. induction Hx as [|y r Hy Hx IH]; [reflexivity|].
  inversion Hd as [|? ? Hdy Hdr]; subst. cbn [filter].
  rewrite (above_not_below b x y Hc Hy Hdy), andb_false_r. now apply IH.
Qed.

(** Cutting an increasing list at two thresholds [a <= b] gives three
    consecutive segments. *)
Lemma sorted_three_segments (a b : Q) l :
  a <= b ->
  Forall (fun y => defined (key y)) l ->
  StronglySorted key_le l ->
  filter (fun s => flt (key s) (Fin a)) l
  ++ filter (fun s => fle (Fin a) (key s) && flt (key s) (Fin b)) l
  ++ filter (fun s => fge (key s) (Fin b)) l = l.
Proof.
  intros Hab Hl Hs. induction Hs as [|x r Hr IH Hx]; [reflexivity|].
  inversion Hl as [|? ? Hdx Hdr]; subst. specialize (IH Hdr).
  pose proof (fun H => filter_below_nil a x r H Hx Hdr) as Hup.
  pose proof (fun H => filter_between_nil a b x r H Hx Hdr) as Hmid.
  cbn [filter]. unfold fge in *.
  destruct (key x) as [p| | |] eqn:Ekx; cbn [defined] in Hdx;
    try contradiction.
  cbn [flt fle] in *.
  destruct (Qlt_bool p a) eqn:E1.
  - apply Qlt_bool_iff in E1.
    assert (Qle_bool a p = false) as ->.
    { destruct (Qle_bool a p) eqn:E; [|reflexivity].
      apply Qle_bool_iff in E. lra. }
    assert (Qle_bool b p = false) as ->.
    { destruct (Qle_bool b p) eqn:E; [|reflexivity].
      apply Qle_bool_iff in E. lra. }
    cbn [andb app]. now rewrite IH.
  - apply Qlt_bool_false in E1.
    assert (Ea : Qle_bool a p = true) by now apply Qle_bool_iff.
    rewrite Ea. rewrite (Hup Ea) in *. cbn [app andb] in *.
    destruct (Qlt_bool p b) eqn:E2.
    + apply Qlt_bool_iff in E2.
      assert (Qle_bool b p = false) as ->.
      { destruct (Qle_bool b p) eqn:E; [|reflexivity].
        apply Qle_bool_iff in E. lra. }
      cbn [app]. now rewrite IH.
    + apply Qlt_bool_false in E2.
      assert (Eb : Qle_bool b p = true) by now apply Qle_bool_iff.
      rewrite Eb. rewrite (Hmid Eb) in *. cbn [app] in *. now rewrite IH.
Qed.

End SortedByKey.

(** On signals whose risk-per-share is a real number the three columns
    are consecutive segments of the sorted list. *)
Lemma risk_columns_of_defined signals :
  Forall (fun s => defined (risk_of s)) signals ->
  low_risk signals ++ med_risk signals ++ high_risk signals
    = sorted_signals signals
  /\ Permutation (sorted_signals signals) signals
  /\ StronglySorted (key_le risk_of) (sorted_signals signals).
Proof.
  intros Hd.
  pose proof (sorted_perm risk_of signals) as Hp.
  pose proof (sorted_sorted risk_of signals Hd) as Hs.
  split; [|split; assumption].
  unfold low_risk, med_risk, high_risk, sorted_signals.
  apply sorted_three_segments; [lra| |assumption].
  eapply Permutation_Forall; [apply Permutation_sym, Hp | exact Hd].
Qed.

(** X15.  The "By Risk" tab loses nothing of a scan: the low (< 1),
    medium (1 <= r < 3) and high (>= 3) columns, read one after the
    other, are exactly the scan's signals sorted by increasing
    risk-per-share - every signal of the scan is shown once, in one
    column.  (The risk filter of the scan is what makes this hold: a
    signal whose risk is NaN satisfies none of the three tests.) *)
Theorem risk_columns_show_every_signal load_data names min_risk max_risk
    symbols selected :
  let signals := scan load_data names min_risk max_risk symbols selected in
  low_risk signals ++ med_risk signals ++ high_risk signals
    = sorted_signals signals
  /\ Permutation (sorted_signals signals) signals
  /\ StronglySorted (key_le risk_of) (sorted_signals signals).
Proof.
  intros signals. apply risk_columns_of_defined.
  apply Forall_forall. intros e He.
  apply In_scan in He.
  destruct He as (_ & _ & _ & _ & _ & _ & _ & _ & _ & H1 & H2).
  destruct (between_Fin _ _ _ H1 H2) as (q & -> & _). exact I.
Qed.

(* ================================================================== *)
(** ** A falling market                                                *)
(* ================================================================== *)

(** Every close is at or below the one before. *)
Definition falling (df : DataFrame) : Prop :=
  forall t, (S t < length (rows df))%nat ->
    close (row df (S t)) <= close (row df t).

Lemma falling_le df i j :
  falling df -> (i <= j)%nat -> (j < length (rows df))%nat ->
  close (row df j) <= close (row df i).
Proof.
  intros Hf Hij. induction Hij as [|j Hij IH]; intros Hj.
  - apply Qle_refl.
  - eapply Qle_trans; [apply Hf; assumption | apply IH; lia].
Qed.

(** The close never exceeds the highest high of the rows before. *)
Lemma falling_donchian self df t :
  falling df -> (t < length (rows df))%nat ->
  Forall (fun b => close b <= high b) (rows df) ->
  zloc (DonchianStrategy.signal (DonchianFacts.signals_of self df)) t
  <> 1%Z.
Proof.
  intros Hf Ht Hhi.
  rewrite DonchianFacts.donchian_signal_at by assumption.
  destruct (DonchianFacts.short_at self df t); [discriminate|].
  assert (E : DonchianFacts.long_at self df t = false).
  { unfold DonchianFacts.long_at, DonchianFacts.indicators_of.
    cbn [DonchianStrategy.donchian_high_entry].
    set (w := DonchianStrategy.entry_period self).
    destruct (Nat.eq_dec w 0) as [->|Hw0].
    { unfold rolling_max.
      rewrite iloc_rolling by (autorewrite with len; lia). reflexivity. }
    destruct (Nat.lt_ge_cases t w) as [Hlt|Hge].
    { unfold rolling_max.
      rewrite rolling_shift1_short by (autorewrite with len; lia).
      reflexivity. }
    destruct (rolling_max_shift1_col ColHigh w df t) as (m & -> & _ & Hall);
      try assumption; try lia.
    unfold fgt. cbn [flt]. apply Qlt_bool_false.
    assert (Hin : In (row df (t - w)) (prior_rows w df t)).
    { replace (t - w)%nat with (t - w + 0)%nat by lia.
      rewrite <- (nth_prior_rows w df t 0) by lia.
      apply nth_In. rewrite length_prior_rows by lia. lia. }
    rewrite Forall_forall in Hall, Hhi.
    pose proof (Hall _ Hin) as Hm. cbn [cell] in Hm.
    assert (Hrow : In (row df (t - w)) (rows df))
      by (unfold row; apply nth_In; lia).
    pose proof (Hhi _ Hrow) as Hch.
    pose proof (falling_le df (t - w) t Hf ltac:(lia) Ht) as Hle.
    lra. }
  rewrite E. discriminate.
Qed.

(** The move over the pole lookback is never positive. *)
Lemma falling_htf self df t :
  falling df -> (t < length (rows df))%nat ->
  Forall (fun b => 0 < close b) (rows df) ->
  0 < QullamaggieHTFStrategy.min_pole_move self ->
  zloc (QullamaggieHTFStrategy.signal (HTFFacts.signals_of self df)) t = 0%Z.
Proof.
  intros Hf Ht Hpos Hmin.
  rewrite HTFFacts.htf_signal_at by assumption.
  pose proof (HTFFacts.mloc_htf_signal self df t Ht) as E. cbv zeta in E.
  rewrite E. clear E.
  assert (Hp : fge (iloc (QullamaggieHTFStrategy.pole_move
                            (HTFFacts.indicators_of self df)) t)
                   (Fin (QullamaggieHTFStrategy.min_pole_move self)) = false).
  { unfold HTFFacts.indicators_of. cbn [QullamaggieHTFStrategy.pole_move].
    rewrite (iloc_map (fun r => fsub r (Fin 1)))
      by (autorewrite with len; lia).
    rewrite iloc_zip_with by (autorewrite with len; lia).
    rewrite iloc_shift by (autorewrite with len; lia).
    rewrite iloc_col_of by assumption.
    set (L := QullamaggieHTFStrategy.pole_lookback self).
    destruct (Nat.ltb_spec t L) as [Hlt|Hge]; [reflexivity|].
    rewrite iloc_col_of by lia. cbn [cell].
    assert (Hprev : 0 < close (row df (t - L))).
    { rewrite Forall_forall in Hpos. apply Hpos.
      unfold row. apply nth_In. lia. }
    pose proof (falling_le df (t - L) t Hf ltac:(lia) Ht) as Hle.
    cbn [fdiv].
    assert (Qeq_bool (close (row df (t - L))) 0 = false) as ->.
    { destruct (Qeq_bool _ 0) eqn:E0; [|reflexivity].
      apply Qeq_bool_iff in E0. lra. }
    cbn [fsub fneg fadd]. unfold fge. cbn [fle].
    destruct (Qle_bool _ _) eqn:E1; [|reflexivity].
    apply Qle_bool_iff in E1.
    assert (H1 : close (row df t) / close (row df (t - L)) <= 1).
    { apply Qle_shift_div_r; [assumption | lra]. }
    lra. }
  rewrite Hp, !andb_false_r. reflexivity.
Qed.

(** X16.  A falling market gives no long breakout.  On a frame whose
    closes never rise from one row to the next, the Donchian variant,
    on bars with [close <= high], marks no row long, and a record it
    returns is a SHORT; the high-tight-flag variant with a positive
    [min_pole_move], on positive closes, marks no row and returns no
    record.  (The two variants that enter on a crossing of exponential
    averages are not covered: on a flat stretch the two averages agree
    up to rounding, and there the rounding of the code decides whether
    they cross.) *)
Theorem falling_market_no_long_signal df :
  falling df ->
  (forall self,
     Forall (fun b => close b <= high b) (rows df) ->
     (forall sf t, DonchianStrategy.generate_signals self df = inr sf ->
        (t < length (rows df))%nat ->
        zloc (DonchianStrategy.signal sf) t <> 1%Z)
     /\ forall r,
          DonchianStrategy.check_current_signal self df = inr (Some r) ->
          DonchianStrategy.r_signal r = "SHORT"%string)
  /\ (forall self,
     Forall (fun b => 0 < close b) (rows df) ->
     0 < QullamaggieHTFStrategy.min_pole_move self ->
     (forall sf t, QullamaggieHTFStrategy.generate_signals self df = inr sf ->
        (t < length (rows df))%nat ->
        zloc (QullamaggieHTFStrategy.signal sf) t = 0%Z)
     /\ forall r,
          QullamaggieHTFStrategy.check_current_signal self df <> inr (Some r)).
Proof.
  intros Hf. split.
  - intros self Hhi.
    assert (H : forall sf t,
              DonchianStrategy.generate_signals self df = inr sf ->
              (t < length (rows df))%nat ->
              zloc (DonchianStrategy.signal sf) t <> 1%Z).
    { intros sf t Hsf Ht.
      apply DonchianFacts.donchian_generate_signals_inv in Hsf. subst sf.
      now apply falling_donchian. }
    split; [exact H|].
    intros r Hr. unfold DonchianStrategy.check_current_signal in Hr.
    destruct (DonchianStrategy.generate_signals self df)
      as [e|sf] eqn:Hsf; [discriminate|]. cbn [bind] in Hr.
    destruct (empty df) eqn:He; [discriminate|].
    pose proof (H sf _ eq_refl (last_index_lt df He)) as Hne.
    destruct (negb (zloc (DonchianStrategy.signal sf) (last_index df) =? 0)%Z);
      [|discriminate].
    injection Hr as <-. cbn [DonchianStrategy.r_signal].
    destruct (Z.eqb_spec (zloc (DonchianStrategy.signal sf) (last_index df)) 1);
      [contradiction | reflexivity].
  - intros self Hpos Hmin.
    assert (H : forall sf t,
              QullamaggieHTFStrategy.generate_signals self df = inr sf ->
              (t < length (rows df))%nat ->
              zloc (QullamaggieHTFStrategy.signal sf) t = 0%Z).
    { intros sf t Hsf Ht.
      apply HTFFacts.htf_generate_signals_inv in Hsf. destruct Hsf as [-> _].
      now apply falling_htf. }
    split; [exact H|].
    intros r Hr. unfold QullamaggieHTFStrategy.check_current_signal in Hr.
    destruct (QullamaggieHTFStrategy.generate_signals self df)
      as [e|sf] eqn:Hsf; [discriminate|]. cbn [bind] in Hr.
    destruct (empty df) eqn:He; [discriminate|].
    rewrite (H sf _ eq_refl (last_index_lt df He)) in Hr. discriminate.
Qed.

(** Closes 100, 60, 60, 1. *)
Definition sliding_bars : list Bar :=
  [still_bar 1 100; still_bar 2 60; still_bar 3 60; still_bar 4 1].

Lemma falling_market_no_long_signal_witness :
  exists r,
    DonchianStrategy.check_current_signal donchian_2_1 (of_bars sliding_bars)
      = inr (Some r)
    /\ DonchianStrategy.r_signal r = "SHORT"%string.
Proof.
  assert (Hf : falling (of_bars sliding_bars)).
  { intros [|[|[|t]]] Ht; vm_compute; try discriminate.
    simpl in Ht. lia. }
  assert (Hhi : Forall (fun b => close b <= high b)
                  (rows (of_bars sliding_bars))).
  { repeat constructor; vm_compute; discriminate. }
  destruct (falling_market_no_long_signal (of_bars sliding_bars) Hf)
    as (HD & _).
  destruct (HD donchian_2_1 Hhi) as [_ Hrec].
  destruct (DonchianStrategy.check_current_signal donchian_2_1
              (of_bars sliding_bars)) as [e|[r|]] eqn:E.
  - vm_compute in E. discriminate.
  - exists r. split; [reflexivity | exact (Hrec r eq_refl)].
  - vm_compute in E. discriminate.
Defined.

(* ================================================================== *)
(** ** MACD (strategy_base.py)                                         *)
(* ================================================================== *)

(** The three columns [_calculate_macd] adds. *)
Record MACD : Type := {
  macd : list Q;
  macd_signal : list Q;
  macd_hist : list Q
}.

(** [a - b] on two columns of the same index. *)
Definition sub_Q (a b : list Q) : list Q :=
  tabulate (length a) (fun t => nth t a 0 - nth t b 0).

(** [_calculate_macd(df, fast, slow, signal)] *)
Definition _calculate_macd (df : DataFrame) (fast slow signal : nat) : Err MACD :=
  close <- getitem_Q df ColClose ;;
  ema_fast <- ewm_mean fast close ;;
  ema_slow <- ewm_mean slow close ;;
  let macd := sub_Q ema_fast ema_slow in
  macd_signal <- ewm_mean signal macd ;;
  ret {| macd := macd;
         macd_signal := macd_signal;
         macd_hist := sub_Q macd macd_signal |}.

Lemma ewm_Q_between span lo hi xs :
  (1 <= span)%nat ->
  Forall (fun x => lo <= x <= hi) xs ->
  Forall (fun y => lo <= y <= hi) (ewm_Q span xs).
Proof.
  intros Hs Hxs. destruct (ewm_alpha_range span Hs) as [Ha0 Ha1].
  destruct xs as [|x0 r]; [constructor|].
  inversion Hxs as [|? ? Hx0 Hr]; subst. cbn [ewm_Q].
  constructor; [assumption|].
  apply ewm_from_between; try assumption; lra.
Qed.

Lemma Forall_nth_Q (P : Q -> Prop) l t :
  Forall P l -> (t < length l)%nat -> P (nth t l 0).
Proof.
  intros H Ht. rewrite Forall_forall in H. now apply H, nth_In.
Qed.

Lemma sub_Q_between lo1 hi1 lo2 hi2 a b :
  length b = length a ->
  Forall (fun x => lo1 <= x <= hi1) a ->
  Forall (fun x => lo2 <= x <= hi2) b ->
  Forall (fun y => lo1 - hi2 <= y <= hi1 - lo2) (sub_Q a b).
Proof.
  intros Hl Ha Hb. unfold sub_Q, tabulate.
  apply Forall_forall. intros y Hy.
  apply in_map_iff in Hy. destruct Hy as (t & <- & Ht).
  apply in_seq in Ht.
  pose proof (Forall_nth_Q _ a t Ha ltac:(lia)) as H1.
  pose proof (Forall_nth_Q _ b t Hb ltac:(lia)) as H2.
  cbv beta in H1, H2. lra.
Qed.

Lemma length_sub_Q a b : length (sub_Q a b) = length a.
Proof. apply length_tabulate. Qed.

(** X17.  For spans of at least 1 and a frame with a close column,
    [_calculate_macd] succeeds with one cell per row; when the closes
    lie between [lo] and [hi], the MACD line and its signal line stay
    within [hi - lo] of zero and the histogram within twice that - on
    flat closes all three columns are zero - and the three columns start
    at zero whatever the closes. *)
Theorem macd_within_price_range df fast slow signal lo hi :
  (1 <= fast)%nat -> (1 <= slow)%nat -> (1 <= signal)%nat ->
  columns df ColClose = true ->
  Forall (fun b => lo <= close b <= hi) (rows df) ->
  exists m,
    _calculate_macd df fast slow signal = inr m
    /\ length (macd m) = length (rows df)
    /\ length (macd_signal m) = length (rows df)
    /\ length (macd_hist m) = length (rows df)
    /\ Forall (fun y => lo - hi <= y <= hi - lo) (macd m)
    /\ Forall (fun y => lo - hi <= y <= hi - lo) (macd_signal m)
    /\ Forall (fun y => 2 * (lo - hi) <= y <= 2 * (hi - lo)) (macd_hist m)
    /\ nth 0 (macd m) 0 == 0 /\ nth 0 (macd_signal m) 0 == 0
    /\ nth 0 (macd_hist m) 0 == 0.
Proof.
  intros Hf Hs Hg Hc Hb.
  unfold _calculate_macd. rewrite getitem_Q_eq, Hc. cbn [bind].
  rewrite !ewm_mean_eq.
  rewrite (ltb_1_false fast Hf), (ltb_1_false slow Hs). cbn [bind].
  rewrite ewm_mean_eq, (ltb_1_false signal Hg). cbn [bind ret].
  set (cl := map (cell ColClose) (rows df)).
  assert (Hcl : Forall (fun x => lo <= x <= hi) cl).
  { unfold cl. apply Forall_map. exact Hb. }
  pose proof (ewm_Q_between fast lo hi cl Hf Hcl) as Hef.
  pose proof (ewm_Q_between slow lo hi cl Hs Hcl) as Hes.
  assert (Hm : Forall (fun y => lo - hi <= y <= hi - lo)
                 (sub_Q (ewm_Q fast cl) (ewm_Q slow cl))).
  { apply sub_Q_between; [now rewrite !length_ewm_Q | assumption..]. }
  pose proof (ewm_Q_between signal _ _ _ Hg Hm) as Hsig.
  assert (Hh : Forall (fun y => 2 * (lo - hi) <= y <= 2 * (hi - lo))
                 (sub_Q (sub_Q (ewm_Q fast cl) (ewm_Q slow cl))
                    (ewm_Q signal (sub_Q (ewm_Q fast cl) (ewm_Q slow cl))))).
  { eapply Forall_impl;
      [|apply (sub_Q_between _ _ _ _ _ _
                 ltac:(now rewrite length_ewm_Q) Hm Hsig)].
    intros y Hy. cbv beta in Hy. lra. }
  eexists. split; [reflexivity|].
  cbn [macd macd_signal macd_hist].
  assert (Hn : length cl = length (rows df)) by apply length_map.
  rewrite ?length_ewm_Q, !length_sub_Q, !length_ewm_Q.
  repeat (split; [assumption|]).
  destruct cl as [|x0 r] eqn:Ecl.
  - repeat split; reflexivity.
  - assert (E0 : nth 0 (sub_Q (ewm_Q fast (x0 :: r)) (ewm_Q slow (x0 :: r))) 0
                 == 0).
    { unfold sub_Q. rewrite nth_tabulate by (rewrite length_ewm_Q; simpl; lia).
      cbn [ewm_Q nth]. ring. }
    split; [exact E0|].
    assert (E1 : nth 0 (ewm_Q signal
                   (sub_Q (ewm_Q fast (x0 :: r)) (ewm_Q slow (x0 :: r)))) 0
                 = nth 0 (sub_Q (ewm_Q fast (x0 :: r)) (ewm_Q slow (x0 :: r))) 0).
    { destruct (sub_Q _ _); reflexivity. }
    split; [rewrite E1; exact E0|].
    unfold sub_Q at 1.
    rewrite nth_tabulate
      by (rewrite length_sub_Q, length_ewm_Q; simpl; lia).
    rewrite E1. ring.
Qed.

Lemma macd_within_price_range_witness :
  exists m,
    _calculate_macd (of_bars rebound_bars) 12 26 9 = inr m
    /\ Forall (fun y => 1 - 100 <= y <= 100 - 1) (macd m).
Proof.
  destruct (macd_within_price_range (of_bars rebound_bars) 12 26 9 1 100)
    as (m & Hm & _ & _ & _ & Hb & _).
  - lia.
  - lia.
  - lia.
  - reflexivity.
  - repeat constructor; vm_compute; discriminate.
  - exists m. split; [exact Hm | exact Hb].
Defined.
